(** * Theme service: color themes and file icon sets compiled to style rules

    A shallow embedding of
    [src/vs/workbench/services/themes/electron-browser/themeService.ts].

    Conventions of the embedding.
    - A JavaScript string is a [string]: its characters are read as code
      units below 256, which covers every literal of the source file.
    - A value has the type that the interfaces of the source declare for
      it: a record for an interface, an [option] for an optional member.  A
      member that the code tests for truthiness is tested with [truthy],
      under which the empty string counts as absent.
    - A parsed object that the code reads as a dictionary (a settings
      record, an association map) is an association list that lists the
      members in the order in which [for .. in] visits them.  An object that
      the code fills itself ([selectorByDefinitionId],
      [themeExtensionsActivated]) is the list of its own properties in the
      order of their creation: a lookup goes on to [Object.prototype] when
      there is no own property, and [for .. in] visits the array indices
      first.
    - A color channel is [None] for NaN and [Some z] for the integer [z];
      the alpha channel is a binary64 floating-point number.
    - A promise chain runs to completion without interleaving; it is a
      function from the service state to an outcome and a new state.  The
      load of a theme document calls itself on included documents and takes
      fuel. *)

From Stdlib Require Import String Ascii List ZArith Bool Lia Permutation.
From Stdlib Require Import Floats.PrimFloat Floats.SpecFloat Floats.FloatOps.
Import ListNotations.

Open Scope list_scope.
Open Scope string_scope.

(** ** Strings as the language's built-in methods treat them *)

Module Js.

(** The double quote character, for the rules that quote a path. *)
Definition dquote : string := String (ascii_of_nat 34) EmptyString.

Definition code (c : ascii) : Z := Z.of_nat (nat_of_ascii c).

(** The truthiness of a string: [!s] holds of the empty string only. *)
Definition truthy (s : string) : bool :=
  match s with
  | EmptyString => false
  | String _ _ => true
  end.

(** The truthiness of an optional string member. *)
Definition truthy_opt (o : option string) : bool :=
  match o with
  | Some s => truthy s
  | None => false
  end.

(** [s.charAt(0)]: the first character, or nothing for the empty string. *)
Definition charAt0 (s : string) : option ascii :=
  match s with
  | EmptyString => None
  | String c _ => Some c
  end.

(** [s.substr(start, len)] for non-negative arguments. *)
Definition substr (start len : nat) (s : string) : string :=
  substring start len s.

(** [s.split(sep)] for a separator of one character: the pieces between
    the occurrences of [sep]; a string without [sep] is its only piece. *)
Fixpoint split (sep : ascii) (s : string) : list string :=
  match s with
  | EmptyString => [EmptyString]
  | String c rest =>
      if Ascii.eqb c sep then EmptyString :: split sep rest
      else match split sep rest with
           | [] => [String c EmptyString]
           | piece :: pieces => String c piece :: pieces
           end
  end.

(** [pieces.join(sep)]. *)
Fixpoint join (sep : string) (pieces : list string) : string :=
  match pieces with
  | [] => EmptyString
  | [piece] => piece
  | piece :: more => piece ++ sep ++ join sep more
  end.

(** White space and line terminators among the code units below 256:
    TAB, LF, VT, FF, CR, SP and NBSP. *)
Definition isWhiteSpace (c : ascii) : bool :=
  let n := code c in
  ((9 <=? n) && (n <=? 13) || (n =? 32) || (n =? 160))%Z.

Fixpoint trimStart (s : string) : string :=
  match s with
  | EmptyString => EmptyString
  | String c rest => if isWhiteSpace c then trimStart rest else s
  end.

Fixpoint trimEnd (s : string) : string :=
  match s with
  | EmptyString => EmptyString
  | String c rest =>
      match trimEnd rest with
      | EmptyString => if isWhiteSpace c then EmptyString else String c EmptyString
      | kept => String c kept
      end
  end.

(** [s.trim()]. *)
Definition trim (s : string) : string := trimEnd (trimStart s).

(** [s.replace(/ /g, '.')] *)
Fixpoint replaceSpaces (s : string) : string :=
  match s with
  | EmptyString => EmptyString
  | String c rest =>
      String (if Ascii.eqb c " "%char then "."%char else c) (replaceSpaces rest)
  end.

(** [s.toLowerCase()] on code units below 256: A-Z and the accented
    capitals U+00C0..U+00DE (U+00D7, the multiplication sign, apart) move
    up by 32. *)
Definition lowerChar (c : ascii) : ascii :=
  let n := code c in
  if ((65 <=? n) && (n <=? 90)
      || (192 <=? n) && (n <=? 222) && negb (n =? 215))%Z
  then ascii_of_nat (nat_of_ascii c + 32)
  else c.

Fixpoint toLowerCase (s : string) : string :=
  match s with
  | EmptyString => EmptyString
  | String c rest => String (lowerChar c) (toLowerCase rest)
  end.

(** The value of a digit in a radix up to 36, when it is one. *)
Definition digitValue (radix : Z) (c : ascii) : option Z :=
  let n := code c in
  let v := (if (48 <=? n) && (n <=? 57) then n - 48
            else if (65 <=? n) && (n <=? 90) then n - 55
            else if (97 <=? n) && (n <=? 122) then n - 87
            else 36)%Z in
  if (v <? radix)%Z then Some v else None.

(** The number written by the longest prefix of [s] made of digits of the
    radix; [acc] is the number read so far, [None] before any digit. *)
Fixpoint digits (radix : Z) (s : string) (acc : option Z) : option Z :=
  match s with
  | EmptyString => acc
  | String c rest =>
      match digitValue radix c with
      | Some d =>
          digits radix rest
            (Some (radix * match acc with Some a => a | None => 0 end + d)%Z)
      | None => acc
      end
  end.

(** [parseInt(s)] without a radix argument: leading white space is
    skipped, a sign is read, a [0x] or [0X] prefix selects radix 16, and
    the longest run of digits is the result; [None] is NaN.  The result is
    the mathematical integer, which is the number returned whenever it
    lies below 2^53. *)
Definition parseInt (s : string) : option Z :=
  let s := trimStart s in
  let '(negative, s) :=
    match s with
    | String "-" rest => (true, rest)
    | String "+" rest => (false, rest)
    | _ => (false, s)
    end in
  let '(radix, s) :=
    match s with
    | String "0" (String "x" rest) => (16%Z, rest)
    | String "0" (String "X" rest) => (16%Z, rest)
    | _ => (10%Z, s)
    end in
  match digits radix s None with
  | Some n => Some (if negative then (- n)%Z else n)
  | None => None
  end.

(** Decimal digits of a non-negative integer. *)
Definition digitChar (d : Z) : ascii := ascii_of_nat (48 + Z.to_nat d).

Fixpoint decimalFuel (fuel : nat) (n : Z) (acc : string) : string :=
  match fuel with
  | O => acc
  | S fuel' =>
      let acc' := String (digitChar (n mod 10)) acc in
      if (n <? 10)%Z then acc' else decimalFuel fuel' (n / 10) acc'
  end.

Definition decimal (n : Z) : string :=
  decimalFuel (S (Z.to_nat (Z.log2 n))) n EmptyString.

(** The text of an integer-valued number, as a template literal prints
    it. *)
Definition intText (z : Z) : string :=
  if (z <? 0)%Z then "-" ++ decimal (- z) else decimal z.

(** The number that an integer denotes. *)
Definition numberOfZ (z : Z) : float :=
  SF2Prim (binary_normalize prec emax z 0 false).

(** [+x.toFixed(2)] printed by a template literal, for [x] of magnitude
    below 10^21: [toFixed] picks the integer [n] nearest to [100 * x] (the
    larger one of two), the unary plus reads [n / 100] back, and the
    printed text is that decimal without trailing zeros. *)
Definition fixed2Text (x : float) : string :=
  match Prim2SF x with
  | S754_nan => "NaN"
  | S754_infinity negative => if negative then "-Infinity" else "Infinity"
  | S754_zero _ => "0"
  | S754_finite negative m e =>
      let n := (if 0 <=? e then 100 * Z.pos m * 2 ^ e
                else (200 * Z.pos m + 2 ^ (- e)) / 2 ^ (1 - e))%Z in
      let whole := (n / 100)%Z in
      let cents := (n mod 100)%Z in
      (if negative && negb (n =? 0)%Z then "-" else "")
      ++ decimal whole
      ++ (if (cents =? 0)%Z then ""
          else "." ++ String (digitChar (cents / 10))
                        (if (cents mod 10 =? 0)%Z then ""
                         else String (digitChar (cents mod 10)) ""))
  end.

End Js.

(** ** The color model: [interface RGBA] and [class Color] *)

Record RGBA : Type := mkRGBA {
  r : option Z;
  g : option Z;
  b : option Z;
  a : float
}.

Module Color.

(** The nested [parseHex]. *)
Definition parseHex (str : string) : option Z := Js.parseInt ("0x" ++ str).

(** A channel as a number: NaN stays NaN. *)
Definition channelNumber (c : option Z) : float :=
  match c with
  | Some z => Js.numberOfZ z
  | None => nan
  end.

(** [color.charAt(0) === '#'] *)
Definition startsWithHash (color : string) : bool :=
  match Js.charAt0 color with
  | Some c => Ascii.eqb c "#"
  | None => false
  end.

(** The fixed color returned for a string that is not parsed. *)
Definition fallback : RGBA := mkRGBA (Some 255%Z) (Some 0%Z) (Some 0%Z) 1%float.

(** [Color.parse] *)
Definition parse (color : string) : RGBA :=
  if startsWithHash color && (7 <=? String.length color)%nat then
    let r := parseHex (Js.substr 1 2 color) in
    let g := parseHex (Js.substr 3 2 color) in
    let b := parseHex (Js.substr 5 2 color) in
    let a := if (String.length color =? 9)%nat
             then (channelNumber (parseHex (Js.substr 7 2 color)) / 255)%float
             else 1%float in
    mkRGBA r g b a
  else fallback.

(** The text of a channel in a template literal. *)
Definition channelText (c : option Z) : string :=
  match c with
  | Some z => Js.intText z
  | None => "NaN"
  end.

(** [toString]; the memo field [str] holds this very text once computed,
    so the method is a function of [parsed]. *)
Definition toString (p : RGBA) : string :=
  "rgba(" ++ channelText (r p) ++ ", " ++ channelText (g p) ++ ", "
  ++ channelText (b p) ++ ", " ++ Js.fixed2Text (a p) ++ ")".

(** [transparent(factor)] *)
Definition transparent (p : RGBA) (factor : float) : RGBA :=
  mkRGBA (r p) (g p) (b p) (a p * factor)%float.

(** [opposite()] *)
Definition opposite (p : RGBA) : RGBA :=
  let flip c := match c with Some z => Some (255 - z)%Z | None => None end in
  mkRGBA (flip (r p)) (flip (g p)) (flip (b p)) (a p).

End Color.

(** ** Theme documents *)

(** A parsed JSON object whose members are strings, in [for .. in] order. *)
Definition Dict : Type := list (string * string).

(** [o[key]]: the member's value, or nothing when [o] has no such member. *)
Fixpoint member {V : Type} (key : string) (o : list (string * V)) : option V :=
  match o with
  | [] => None
  | (k, v) :: more => if String.eqb k key then Some v else member key more
  end.

(** [interface ThemeSettingStyle]: the members [background], [foreground],
    [fontStyle], [caret], [invisibles], [lineHighlight], [selection] are
    all optional, so a value is the dictionary of the members it has. *)
Definition ThemeSettingStyle : Type := Dict.

(** The type [string | string[]] of a scope. *)
Inductive Scope : Type :=
| ScopeString (s : string)
| ScopeArray (tokens : list string).

Module ThemeSetting.
Record t : Type := mk {
  name : option string;
  scope : option Scope;
  settings : option ThemeSettingStyle
}.
End ThemeSetting.

Module ThemeDocument.
Record t : Type := mk {
  name : string;
  include : option string;
  settings : list ThemeSetting.t
}.
End ThemeDocument.

(** The truthiness of [s.scope]: a missing scope and the empty string are
    falsy, every array is truthy. *)
Definition scopeTruthy (scope : option Scope) : bool :=
  match scope with
  | None => false
  | Some (ScopeString s) => Js.truthy s
  | Some (ScopeArray _) => true
  end.

(** What a JavaScript function body does: it returns a value or throws. *)
Inductive Completion (A : Type) : Type :=
| Return (v : A)
| ThrowTypeError.
Arguments Return {A} v.
Arguments ThrowTypeError {A}.

(** ** The functions this file imports from other modules

    [getBaseThemeId] and [getSyntaxThemeId] (vs/platform/theme/common/themes),
    [Paths] (vs/base/common/paths), [Json] (vs/base/common/json), [plist]
    and [pfs] (vs/base/node), the extension registry, the class list
    operations of the builder, and the browser's [CSS.escape] are not part
    of the file: the embedding takes them as the members of a [Host]. *)

Record ExtensionDescription : Type := mkExtensionDescription {
  ext_id : string;
  ext_name : string;
  ext_isBuiltin : bool;
  ext_publisher : string
}.

(** ** File icon documents *)

Record FileIconDefinition : Type := mkFileIconDefinition {
  iconPath : option string
}.

Record FileIconsAssociation : Type := mkFileIconsAssociation {
  folder : option string;
  file : option string;
  folderExpanded : option string;
  fileExtensions : option Dict;
  fileNames : option Dict;
  languageIds : option Dict
}.

(** [FileIconsDocument extends FileIconsAssociation]: [associations] holds
    the inherited members. *)
Record FileIconsDocument : Type := mkFileIconsDocument {
  associations : FileIconsAssociation;
  iconDefinitions : option (list (string * FileIconDefinition));
  light : option FileIconsAssociation;
  highContrast : option FileIconsAssociation
}.

Record Host : Type := mkHost {
  getBaseThemeId : string -> string;
  getSyntaxThemeId : string -> string;
  escapeCSS : string -> string;
  Paths_extname : string -> string;
  Paths_dirname : string -> string;
  Paths_basename : string -> string;
  Paths_normalize : string -> string;
  Paths_join : string -> string -> string;
  (** [pfs.readFile]: the content, or nothing when the promise is rejected. *)
  readFile : string -> option string;
  (** [Json.parse(text, errors)]: the value and the errors pushed. *)
  ParseError : Type;
  Json_parse_theme : string -> ThemeDocument.t * list ParseError;
  Json_parse_icons : string -> FileIconsDocument * list ParseError;
  Json_getParseErrorMessage : ParseError -> string;
  (** [plist.parse(text)]: [value] and [errors]. *)
  plist_parse : string -> ThemeDocument.t * list string;
  getExtensionDescription : string -> option ExtensionDescription;
  (** [$(container).addClass(name)] and [removeClass(name)] on a class
      attribute. *)
  addClass : string -> string -> string;
  removeClass : string -> string -> string
}.

(** ** The color theme compiler *)

(** [statements.push(x)] and [cssRules.push(x)] *)
Definition push {A : Type} (arr : list A) (x : A) : list A := arr ++ [x].

(** [arr.forEach((x, index) => ...)] over a state that the callback
    updates. *)
Fixpoint forEachFrom {A St : Type} (f : St -> nat -> A -> St)
    (index : nat) (arr : list A) (st : St) : St :=
  match arr with
  | [] => st
  | x :: more => forEachFrom f (S index) more (f st index x)
  end.

Definition forEach {A St : Type} (f : St -> nat -> A -> St)
    (arr : list A) (st : St) : St :=
  forEachFrom f 0 arr st.

(** The inner [switch (s)] of [_settingsToStatements], for one segment of a
    [fontStyle] value. *)
Definition fontStyleSegment (statements : list string) (s : string) : list string :=
  if String.eqb s "italic" then push statements "font-style: italic;"
  else if String.eqb s "bold" then push statements "font-weight: bold;"
  else if String.eqb s "underline" then push statements "text-decoration: underline;"
  else statements.

(** The body of the [for (let settingName in settings)] loop. *)
Definition settingStatement (statements : list string)
    (setting : string * string) : list string :=
  let '(settingName, value) := setting in
  if String.eqb settingName "foreground" then
    let foreground := Color.parse value in
    push statements ("color: " ++ Color.toString foreground ++ ";")
  else if String.eqb settingName "background" then
    statements
  else if String.eqb settingName "fontStyle" then
    let segments := Js.split " " value in
    fold_left fontStyleSegment segments statements
  else statements.

(** [_settingsToStatements] *)
Definition _settingsToStatements (settings : ThemeSettingStyle) : string :=
  let statements := fold_left settingStatement settings [] in
  Js.join " " statements.

(** The state of the [forEach] of [_processThemeObject]: the variable
    [editorSettings], which is [None] once an entry without [settings] was
    assigned to it, and the array [cssRules]. *)
Definition CompilerState : Type := (option ThemeSettingStyle * list string)%type.

(** The callback of [rules.forEach]. *)
Definition scopeRule (themeSelector statements : string)
    (cssRules : list string) (rule : string) : list string :=
  let rule := Js.replaceSpaces (Js.trim rule) in
  push cssRules
    (".monaco-editor." ++ themeSelector ++ " .token." ++ rule
     ++ " { " ++ statements ++ " }").

(** The callback of [themeSettings.forEach]. *)
Definition themeSettingStep (themeSelector : string)
    (st : CompilerState) (index : nat) (s : ThemeSetting.t) : CompilerState :=
  let '(editorSettings, cssRules) := st in
  if (index =? 0)%nat && negb (scopeTruthy (ThemeSetting.scope s)) then
    (ThemeSetting.settings s, cssRules)
  else
    match ThemeSetting.scope s, ThemeSetting.settings s with
    | Some scope, Some settings =>
        if scopeTruthy (Some scope) then
          let rules := match scope with
                       | ScopeArray tokens => tokens
                       | ScopeString text => Js.split "," text
                       end in
          let statements := _settingsToStatements settings in
          (editorSettings, fold_left (scopeRule themeSelector statements) rules cssRules)
        else st
    | _, _ => st
    end.

(** The record [editorSettings] starts from: every member is [void 0], so
    every member reads as absent. *)
Definition noEditorSettings : ThemeSettingStyle := [].

(** The first half of [_processThemeObject]: the walk over the settings.
    [themeDocument.settings] is an array by its type, so the test
    [Array.isArray(themeSettings)] holds. *)
Definition walkThemeSettings (themeSelector : string)
    (themeSettings : list ThemeSetting.t) : CompilerState :=
  forEach (themeSettingStep themeSelector) themeSettings (Some noEditorSettings, []).

(** One [if (editorSettings.<member>) { ... }] block: the rules [emit]
    builds from the member's color are pushed when the member is truthy. *)
Definition editorBlock (editorSettings : ThemeSettingStyle) (memberName : string)
    (emit : RGBA -> list string) (cssRules : list string) : list string :=
  match member memberName editorSettings with
  | Some value => if Js.truthy value then cssRules ++ emit (Color.parse value) else cssRules
  | None => cssRules
  end.

(** The second half of [_processThemeObject]: the rules of the whole
    editor. *)
Definition editorRules (themeSelector : string) (editorSettings : ThemeSettingStyle)
    (cssRules : list string) : list string :=
  let editor := ".monaco-editor." ++ themeSelector in
  let cssRules := editorBlock editorSettings "background" (fun background =>
    [ editor ++ " .monaco-editor-background { background-color: "
        ++ Color.toString background ++ "; }";
      editor ++ " .glyph-margin { background-color: "
        ++ Color.toString background ++ "; }";
      "." ++ themeSelector ++ " .monaco-workbench .monaco-editor-background { background-color: "
        ++ Color.toString background ++ "; }" ]) cssRules in
  let cssRules := editorBlock editorSettings "foreground" (fun foreground =>
    [ editor ++ " .token { color: " ++ Color.toString foreground ++ "; }" ]) cssRules in
  let cssRules := editorBlock editorSettings "selection" (fun selection =>
    [ editor ++ " .focused .selected-text { background-color: "
        ++ Color.toString selection ++ "; }";
      editor ++ " .selected-text { background-color: "
        ++ Color.toString (Color.transparent selection 0.5) ++ "; }" ]) cssRules in
  let cssRules := editorBlock editorSettings "lineHighlight" (fun lineHighlight =>
    [ editor ++ " .current-line { background-color: "
        ++ Color.toString lineHighlight ++ "; border:0; }" ]) cssRules in
  let cssRules := editorBlock editorSettings "caret" (fun caret =>
    let oppositeCaret := Color.opposite caret in
    [ editor ++ " .cursor { background-color: " ++ Color.toString caret
        ++ "; border-color: " ++ Color.toString caret
        ++ "; color: " ++ Color.toString oppositeCaret ++ "; }" ]) cssRules in
  let cssRules := editorBlock editorSettings "invisibles" (fun invisibles =>
    [ editor ++ " .token.whitespace { color: "
        ++ Color.toString invisibles ++ " !important; }";
      editor ++ " .lines-content .cigr { background: "
        ++ Color.toString invisibles ++ "; }" ]) cssRules in
  cssRules.

(** The newline that joins the rules of a style sheet. *)
Definition newline : string := String (ascii_of_nat 10) EmptyString.

Section Compiler.

Variable host : Host.

(** [_processThemeObject]: reading a member of [editorSettings] throws
    when an entry without [settings] was taken as the editor settings. *)
Definition _processThemeObject (themeId : string)
    (themeDocument : ThemeDocument.t) : Completion string :=
  let themeSettings := ThemeDocument.settings themeDocument in
  let themeSelector :=
    getBaseThemeId host themeId ++ "." ++ getSyntaxThemeId host themeId in
  let '(editorSettings, cssRules) := walkThemeSettings themeSelector themeSettings in
  match editorSettings with
  | None => ThrowTypeError
  | Some editorSettings =>
      Return (Js.join newline (editorRules themeSelector editorSettings cssRules))
  end.

End Compiler.

(** ** Promises *)

(** The reason a promise of this file is rejected with. *)
Inductive Failure : Type :=
| ReadFailure
    (** [pfs.readFile] was rejected *)
| JsonProblems (messages : string)
    (** the error "Problems parsing JSON theme file: {0}" *)
| PlistProblems (messages : string)
    (** the error "Problems parsing plist file: {0}" *)
| FileIconsProblems (messages : string)
    (** the error "Problems parsing file icons file: {0}" *)
| UnableToLoad (path : string)
    (** the message "Unable to load {0}" *)
| TypeError.
    (** an exception thrown inside a [then] callback *)

(** A settled promise. *)
Inductive Promise (A : Type) : Type :=
| Resolved (v : A)
| Rejected (reason : Failure).
Arguments Resolved {A} v.
Arguments Rejected {A} reason.

(** ** The document loaders *)

Section Loader.

Variable host : Host.

(** [errors.map(e => Json.getParseErrorMessage(e.error)).join(', ')] *)
Definition parseErrorMessages (errors : list (ParseError host)) : string :=
  Js.join ", " (map (Json_getParseErrorMessage host) errors).

(** [_loadThemeDocument].  The function calls itself on the included
    document; [fuel] bounds the depth of the calls, and [None] says that the
    promise was not settled within it. *)
Fixpoint _loadThemeDocument (fuel : nat) (themePath : string)
    : option (Promise ThemeDocument.t) :=
  match fuel with
  | O => None
  | S fuel' =>
      match readFile host themePath with
      | None => Some (Rejected ReadFailure)
      | Some content =>
          if String.eqb (Paths_extname host themePath) ".json" then
            let '(contentValue, errors) := Json_parse_theme host content in
            if (0 <? List.length errors)%nat then
              Some (Rejected (JsonProblems (parseErrorMessages errors)))
            else if Js.truthy_opt (ThemeDocument.include contentValue) then
              let included :=
                match ThemeDocument.include contentValue with
                | Some path => path
                | None => EmptyString
                end in
              match _loadThemeDocument fuel'
                      (Paths_join host (Paths_dirname host themePath) included) with
              | None => None
              | Some (Rejected reason) => Some (Rejected reason)
              | Some (Resolved includedValue) =>
                  Some (Resolved
                    (ThemeDocument.mk
                       (ThemeDocument.name contentValue)
                       (ThemeDocument.include contentValue)
                       (ThemeDocument.settings includedValue
                        ++ ThemeDocument.settings contentValue)%list))
              end
            else Some (Resolved contentValue)
          else
            let '(value, errors) := plist_parse host content in
            if (0 <? List.length errors)%nat then
              Some (Rejected (PlistProblems (Js.join ", " errors)))
            else Some (Resolved value)
      end
  end.

(** [_loadFileIconsDocument] *)
Definition _loadFileIconsDocument (fileSetPath : string) : Promise FileIconsDocument :=
  match readFile host fileSetPath with
  | None => Rejected ReadFailure
  | Some content =>
      let '(contentValue, errors) := Json_parse_icons host content in
      if (0 <? List.length errors)%nat then
        Rejected (FileIconsProblems (parseErrorMessages errors))
      else Resolved contentValue
  end.

End Loader.

(** ** Objects that the code fills itself

    [selectorByDefinitionId] and [themeExtensionsActivated] start as the
    object literal [{}] and get their properties by assignment.  Such an
    object is the list of its own properties in the order in which they
    were created.  A lookup that finds no own property goes on to
    [Object.prototype], and [for .. in] visits the properties that are
    named by an array index before the others. *)

(** The names of the members of [Object.prototype]: looked up on an object
    literal, each of them yields a function, and [__proto__] yields the
    prototype itself; none of them yields [undefined]. *)
Definition objectPrototypeMembers : list string :=
  ["constructor"; "hasOwnProperty"; "isPrototypeOf"; "propertyIsEnumerable";
   "toLocaleString"; "toString"; "valueOf"; "__proto__";
   "__defineGetter__"; "__defineSetter__"; "__lookupGetter__"; "__lookupSetter__"].

(** The name is found on the prototype when the object has no own
    property of it. *)
Definition inherited (key : string) : bool :=
  existsb (String.eqb key) objectPrototypeMembers.

(** [o[key] = value]: the own property keeps its place when it is there,
    and is created behind the others when it is not. *)
Fixpoint assign {V : Type} (key : string) (value : V) (o : list (string * V))
    : list (string * V) :=
  match o with
  | [] => [(key, value)]
  | (k, v) :: more =>
      if String.eqb k key then (k, value) :: more
      else (k, v) :: assign key value more
  end.

(** The number that a string of decimal digits writes; [acc] is the number
    of the digits read so far. *)
Fixpoint numeral (s : string) (acc : Z) : option Z :=
  match s with
  | EmptyString => Some acc
  | String c rest =>
      match Js.digitValue 10 c with
      | Some d => numeral rest (10 * acc + d)%Z
      | None => None
      end
  end.

(** The array index that a property name writes, when it writes one: the
    name is the decimal numeral, without leading zeros, of an integer from
    0 to 2^32 - 2. *)
Definition arrayIndex (key : string) : option Z :=
  match key with
  | EmptyString => None
  | String "0" (String _ _) => None
  | _ =>
      match numeral key 0 with
      | Some n => if (n <? 4294967295)%Z then Some n else None
      | None => None
      end
  end.

(** A property put into the properties that are sorted by their array
    indices. *)
Fixpoint insertIndexed {V : Type} (index : Z) (entry : string * V)
    (indexed : list (Z * (string * V))) : list (Z * (string * V)) :=
  match indexed with
  | [] => [(index, entry)]
  | (i, e) :: more =>
      if (index <? i)%Z then (index, entry) :: indexed
      else (i, e) :: insertIndexed index entry more
  end.

(** The own properties in two parts: those named by an array index, in
    ascending order of the index, and the others, in the order of their
    creation. *)
Fixpoint forInSplit {V : Type} (o : list (string * V))
    : list (Z * (string * V)) * list (string * V) :=
  match o with
  | [] => ([], [])
  | entry :: more =>
      let '(indexed, named) := forInSplit more in
      match arrayIndex (fst entry) with
      | Some index => (insertIndexed index entry indexed, named)
      | None => (indexed, entry :: named)
      end
  end.

(** The order in which [for (let key in o)] visits the own properties of
    [o]: the array indices first, ascending, then the other names in the
    order of their creation. *)
Definition forInOrder {V : Type} (o : list (string * V)) : list (string * V) :=
  let '(indexed, named) := forInSplit o in
  (map snd indexed ++ named)%list.

(** One statement after another: what the first one throws ends the
    function. *)
Definition andThen {A B : Type} (first : Completion A) (next : A -> Completion B)
    : Completion B :=
  match first with
  | Return v => next v
  | ThrowTypeError => ThrowTypeError
  end.

(** ** The file icon compiler *)

(** The object [selectorByDefinitionId]: its own properties, the
    definition ids in the order in which they were first added, each with
    its selectors. *)
Definition SelectorMap : Type := list (string * list string).

(** The three statements of [addSelector] for a truthy [defId].  The lookup
    [selectorByDefinitionId[defId]] yields the list of an own property; the
    list is created when the lookup yields [undefined]; and when the lookup
    yields a member of [Object.prototype], which is truthy and has no
    [push], the call [list.push(selector)] throws a [TypeError]. *)
Definition pushSelector (defId selector : string) (m : SelectorMap)
    : Completion SelectorMap :=
  match member defId m with
  | Some list => Return (assign defId (push list selector) m)
  | None =>
      if inherited defId then ThrowTypeError
      else Return (assign defId [selector] m)
  end.

(** The nested [addSelector]. *)
Definition addSelector (m : SelectorMap) (selector : string)
    (defId : option string) : Completion SelectorMap :=
  match defId with
  | Some d => if Js.truthy d then pushSelector d selector m else Return m
  | None => Return m
  end.

(** [for (let key in dict) { addSelector(selectorOf(key), dict[key]) }],
    skipped when the dictionary is missing. *)
Definition forIn (dict : option Dict) (selectorOf : string -> string)
    (m : SelectorMap) : Completion SelectorMap :=
  match dict with
  | Some entries =>
      fold_left
        (fun m entry =>
           andThen m (fun m => addSelector m (selectorOf (fst entry)) (Some (snd entry))))
        entries (Return m)
  | None => Return m
  end.

Section FileIcons.

Variable host : Host.

(** The selector of a [fileNames] key. *)
Definition fileNameSelector (qualifier fileName : string) : string :=
  let ext := Js.toLowerCase (Paths_extname host fileName) in
  let name := Js.toLowerCase
                (substring 0 (String.length fileName - String.length ext) fileName) in
  qualifier ++ " ." ++ escapeCSS host name ++ "-name-file-icon."
  ++ escapeCSS host ext ++ "-ext-file-icon.file-icon".

(** The nested [collectSelectors]. *)
Definition collectSelectors (associations : option FileIconsAssociation)
    (baseThemeClassName : option string) (m : SelectorMap) : Completion SelectorMap :=
  match associations with
  | None => Return m
  | Some associations =>
      let qualifier := ".show-file-icons" in
      let qualifier :=
        match baseThemeClassName with
        | Some className =>
            if Js.truthy className then className ++ " " ++ qualifier else qualifier
        | None => qualifier
        end in
      andThen (addSelector m (qualifier ++ " .folder-icon") (folder associations))
        (fun m =>
      andThen (addSelector m (qualifier ++ " .expanded .folder-icon")
                 (folderExpanded associations))
        (fun m =>
      andThen (addSelector m (qualifier ++ " .file-icon") (file associations))
        (fun m =>
      andThen (forIn (fileExtensions associations) (fun fileExtension =>
                 qualifier ++ " ." ++ escapeCSS host (Js.toLowerCase fileExtension)
                 ++ "-ext-file-icon.file-icon") m)
        (fun m =>
      andThen (forIn (fileNames associations) (fileNameSelector qualifier) m)
        (fun m =>
      forIn (languageIds associations) (fun languageId =>
        qualifier ++ " ." ++ escapeCSS host languageId
        ++ "-lang-file-icon.file-icon") m)))))
  end.

(** The three calls of [collectSelectors]. *)
Definition collectAll (fileIconsDocument : FileIconsDocument) : Completion SelectorMap :=
  andThen (collectSelectors (Some (associations fileIconsDocument)) None [])
    (fun m =>
  andThen (collectSelectors (light fileIconsDocument) (Some ".vs") m)
    (fun m =>
  collectSelectors (highContrast fileIconsDocument) (Some ".hc_black") m)).

(** The body of [for (let defId in selectorByDefinitionId)].  The id is an
    own property of [selectorByDefinitionId], so it is no name of a member
    of [Object.prototype], and [iconDefinitions[defId]] is the definition
    of that name or [undefined]. *)
Definition iconRule (fileIconsPath : string)
    (definitions : list (string * FileIconDefinition))
    (cssRules : list string) (entry : string * list string) : list string :=
  let '(defId, selectors) := entry in
  match member defId definitions with
  | Some definition =>
      match iconPath definition with
      | Some iconPath =>
          if Js.truthy iconPath then
            let path := Paths_join host (Paths_dirname host fileIconsPath) iconPath in
            push cssRules
              (Js.join ", " selectors ++ " { background-image: url("
               ++ Js.dquote ++ path ++ Js.dquote ++ "); }")
          else cssRules
      | None => cssRules
      end
  | None => cssRules
  end.

(** The rules [_processFileIconsObject] joins: none when the document has
    no [iconDefinitions], and otherwise those of the definition ids in the
    order in which [for .. in] visits them. *)
Definition fileIconRules (fileIconsPath : string)
    (fileIconsDocument : FileIconsDocument) : Completion (list string) :=
  match iconDefinitions fileIconsDocument with
  | None => Return []
  | Some definitions =>
      andThen (collectAll fileIconsDocument) (fun selectorByDefinitionId =>
        Return (fold_left (iconRule fileIconsPath definitions)
                  (forInOrder selectorByDefinitionId) []))
  end.

(** [_processFileIconsObject]; the parameter [id] is not used. *)
Definition _processFileIconsObject (id fileIconsPath : string)
    (fileIconsDocument : FileIconsDocument) : Completion string :=
  andThen (fileIconRules fileIconsPath fileIconsDocument) (fun cssRules =>
    Return (Js.join newline cssRules)).

End FileIcons.

(** ** The theme service *)

Definition DEFAULT_THEME_ID : string :=
  "vs-dark vscode-theme-defaults-themes-dark_plus-json".
Definition DEFAULT_FILE_ICONS : string := "vs-standard".
Definition THEME_CHANNEL : string := "vscode:changeTheme".
Definition THEME_PREF : string := "workbench.theme".
Definition defaultThemeExtensionId : string := "vscode-theme-defaults".
Definition oldDefaultThemeExtensionId : string := "vscode-theme-colorful-defaults".
Definition colorThemeRulesClassName : string := "contributedColorTheme".
Definition fileIconRulesClassName : string := "contributedFileIcons".

(** [validateThemeId]: the migration of the identifiers of older
    versions. *)
Definition validateThemeId (theme : string) : string :=
  if String.eqb theme "vs" then
    "vs " ++ defaultThemeExtensionId ++ "-themes-light_vs-json"
  else if String.eqb theme "vs-dark" then
    "vs-dark " ++ defaultThemeExtensionId ++ "-themes-dark_vs-json"
  else if String.eqb theme "hc-black" then
    "hc-black " ++ defaultThemeExtensionId ++ "-themes-hc_black-json"
  else if String.eqb theme
            ("vs " ++ oldDefaultThemeExtensionId ++ "-themes-light_plus-tmTheme") then
    "vs " ++ defaultThemeExtensionId ++ "-themes-light_plus-json"
  else if String.eqb theme
            ("vs-dark " ++ oldDefaultThemeExtensionId ++ "-themes-dark_plus-tmTheme") then
    "vs-dark " ++ defaultThemeExtensionId ++ "-themes-dark_plus-json"
  else theme.

(** [toCSSSelector]: every character outside [_-a-zA-Z0-9] becomes a
    dash, and a leading digit or dash is guarded by an underscore. *)
Definition isSelectorChar (c : ascii) : bool :=
  let n := Js.code c in
  ((n =? 95) || (n =? 45) || (97 <=? n) && (n <=? 122)
   || (65 <=? n) && (n <=? 90) || (48 <=? n) && (n <=? 57))%Z.

Fixpoint dashOthers (str : string) : string :=
  match str with
  | EmptyString => EmptyString
  | String c rest => String (if isSelectorChar c then c else "-"%char) (dashOthers rest)
  end.

Definition toCSSSelector (str : string) : string :=
  let str := dashOthers str in
  match str with
  | String c _ =>
      let n := Js.code c in
      if ((48 <=? n) && (n <=? 57) || (n =? 45))%Z then "_" ++ str else str
  | EmptyString => str
  end.

Module IInternalThemeData.
Record t : Type := mk {
  id : string;
  label : string;
  description : option string;
  path : string;
  extensionId : string;
  styleSheetContent : option string
}.

(** [theme.styleSheetContent = content] *)
Definition cache (content : string) (theme : t) : t :=
  mk (id theme) (label theme) (description theme) (path theme)
     (extensionId theme) (Some content).
End IInternalThemeData.

(** A value that is [null], [undefined] or a string. *)
Inductive Nullable : Type :=
| JsNull
| JsUndefined
| JsString (s : string).

(** [x !== y] *)
Definition strictlyDiffer (x y : Nullable) : bool :=
  match x, y with
  | JsNull, JsNull => false
  | JsUndefined, JsUndefined => false
  | JsString s, JsString s' => negb (String.eqb s s')
  | _, _ => true
  end.

(** What the service logs with the telemetry service. *)
Record ActivatePlugin : Type := mkActivatePlugin {
  log_description : ExtensionDescription;
  log_themeId : string
}.

(** A message for an extension's collector: its severity ([true] for an
    error, [false] for a warning), the key of the message and its
    arguments. *)
Definition Collected : Type := (bool * string * list string)%type.

(** The fields of [class ThemeService], followed by the state of what the
    service acts on: the storage service, the style elements of
    [document.head] (class name and content, in document order), and what
    was broadcast, logged, fired and collected so far.  [container] is the
    class attribute of the registered element. *)
Record State : Type := mkState {
  knownThemes : list IInternalThemeData.t;
  currentTheme : option string;
  container : option string;
  knownFileIconContributions : list IInternalThemeData.t;
  currentFileIcons : Nullable;
  themeExtensionsActivated : list string;
  storage : Dict;
  styles : list (string * string);
  broadcasts : list (string * string);
  telemetry : list ActivatePlugin;
  fired : list string;
  collected : list Collected
}.

(** The service as its constructor leaves it, over given surroundings. *)
Definition initialState (storage : Dict) (styles : list (string * string)) : State :=
  mkState [] None None [] JsNull [] storage styles [] [] [] [].

Definition set_knownThemes (v : list IInternalThemeData.t) (st : State) : State :=
  mkState v (currentTheme st) (container st) (knownFileIconContributions st)
    (currentFileIcons st) (themeExtensionsActivated st) (storage st) (styles st)
    (broadcasts st) (telemetry st) (fired st) (collected st).

Definition set_currentTheme (v : option string) (st : State) : State :=
  mkState (knownThemes st) v (container st) (knownFileIconContributions st)
    (currentFileIcons st) (themeExtensionsActivated st) (storage st) (styles st)
    (broadcasts st) (telemetry st) (fired st) (collected st).

Definition set_container (v : option string) (st : State) : State :=
  mkState (knownThemes st) (currentTheme st) v (knownFileIconContributions st)
    (currentFileIcons st) (themeExtensionsActivated st) (storage st) (styles st)
    (broadcasts st) (telemetry st) (fired st) (collected st).

Definition set_knownFileIconContributions (v : list IInternalThemeData.t)
    (st : State) : State :=
  mkState (knownThemes st) (currentTheme st) (container st) v
    (currentFileIcons st) (themeExtensionsActivated st) (storage st) (styles st)
    (broadcasts st) (telemetry st) (fired st) (collected st).

Definition set_currentFileIcons (v : Nullable) (st : State) : State :=
  mkState (knownThemes st) (currentTheme st) (container st)
    (knownFileIconContributions st) v (themeExtensionsActivated st) (storage st)
    (styles st) (broadcasts st) (telemetry st) (fired st) (collected st).

Definition set_themeExtensionsActivated (v : list string) (st : State) : State :=
  mkState (knownThemes st) (currentTheme st) (container st)
    (knownFileIconContributions st) (currentFileIcons st) v (storage st)
    (styles st) (broadcasts st) (telemetry st) (fired st) (collected st).

Definition set_storage (v : Dict) (st : State) : State :=
  mkState (knownThemes st) (currentTheme st) (container st)
    (knownFileIconContributions st) (currentFileIcons st)
    (themeExtensionsActivated st) v (styles st) (broadcasts st) (telemetry st)
    (fired st) (collected st).

Definition set_styles (v : list (string * string)) (st : State) : State :=
  mkState (knownThemes st) (currentTheme st) (container st)
    (knownFileIconContributions st) (currentFileIcons st)
    (themeExtensionsActivated st) (storage st) v (broadcasts st) (telemetry st)
    (fired st) (collected st).

Definition set_broadcasts (v : list (string * string)) (st : State) : State :=
  mkState (knownThemes st) (currentTheme st) (container st)
    (knownFileIconContributions st) (currentFileIcons st)
    (themeExtensionsActivated st) (storage st) (styles st) v (telemetry st)
    (fired st) (collected st).

Definition set_telemetry (v : list ActivatePlugin) (st : State) : State :=
  mkState (knownThemes st) (currentTheme st) (container st)
    (knownFileIconContributions st) (currentFileIcons st)
    (themeExtensionsActivated st) (storage st) (styles st) (broadcasts st) v
    (fired st) (collected st).

Definition set_fired (v : list string) (st : State) : State :=
  mkState (knownThemes st) (currentTheme st) (container st)
    (knownFileIconContributions st) (currentFileIcons st)
    (themeExtensionsActivated st) (storage st) (styles st) (broadcasts st)
    (telemetry st) v (collected st).

Definition set_collected (v : list Collected) (st : State) : State :=
  mkState (knownThemes st) (currentTheme st) (container st)
    (knownFileIconContributions st) (currentFileIcons st)
    (themeExtensionsActivated st) (storage st) (styles st) (broadcasts st)
    (telemetry st) (fired st) v.

(** [storageService.store(key, value, StorageScope.GLOBAL)] *)
Fixpoint store (key value : string) (entries : Dict) : Dict :=
  match entries with
  | [] => [(key, value)]
  | (k, v) :: more =>
      if String.eqb k key then (k, value) :: more else (k, v) :: store key value more
  end.

(** [windowService.broadcast({ channel, payload })] *)
Definition broadcast (channel payload : string) (st : State) : State :=
  set_broadcasts (push (broadcasts st) (channel, payload)) st.

(** [_applyRules] on the style elements of [document.head]: the first
    element of the class receives the content, and an element is appended
    when there is none. *)
Fixpoint setFirstStyle (styleSheetContent rulesClassName : string)
    (elements : list (string * string)) : list (string * string) :=
  match elements with
  | [] => [(rulesClassName, styleSheetContent)]
  | (className, innerHTML) :: more =>
      if String.eqb className rulesClassName
      then (className, styleSheetContent) :: more
      else (className, innerHTML) :: setFirstStyle styleSheetContent rulesClassName more
  end.

Definition _applyRules (styleSheetContent rulesClassName : string) (st : State) : State :=
  set_styles (setFirstStyle styleSheetContent rulesClassName (styles st)) st.

(** The first element that satisfies [p], with its position: the element
    [filter(p)[0]] of the source.  The position stands for the reference
    the source holds, through which it goes on to update that very object
    of the list. *)
Fixpoint firstMatch {A : Type} (p : A -> bool) (l : list A) : option (nat * A) :=
  match l with
  | [] => None
  | x :: more =>
      if p x then Some (0%nat, x)
      else match firstMatch p more with
           | Some (i, y) => Some (S i, y)
           | None => None
           end
  end.

(** The update of the element at a position. *)
Fixpoint updateAt {A : Type} (f : A -> A) (index : nat) (l : list A) : list A :=
  match l, index with
  | [], _ => []
  | x :: more, O => f x :: more
  | x :: more, S i => x :: updateAt f i more
  end.

Definition hasId (themeId : string) (theme : IInternalThemeData.t) : bool :=
  String.eqb (IInternalThemeData.id theme) themeId.

(** [findThemeData], over the themes [getColorThemes] resolves to. *)
Definition findThemeData (themeId : string) (defaultId : option string)
    (st : State) : option (nat * IInternalThemeData.t) :=
  let allThemes := knownThemes st in
  match firstMatch (hasId themeId) allThemes with
  | Some found => Some found
  | None =>
      match defaultId with
      | Some defaultId =>
          if Js.truthy defaultId then firstMatch (hasId defaultId) allThemes else None
      | None => None
      end
  end.

(** The content a contribution holds when [data.styleSheetContent] is
    truthy. *)
Definition cached (data : IInternalThemeData.t) : option string :=
  match IInternalThemeData.styleSheetContent data with
  | Some content => if Js.truthy content then Some content else None
  | None => None
  end.

(** The loop of [_updateFileIcons]: the first icon set of the current
    identifier ends the search; until then the latest icon set of the
    default identifier is kept. *)
Fixpoint findIconSet (current : Nullable) (index : nat)
    (allIconSets : list IInternalThemeData.t)
    (iconSetData : option (nat * IInternalThemeData.t))
    : option (nat * IInternalThemeData.t) :=
  match allIconSets with
  | [] => iconSetData
  | iconSet :: more =>
      if negb (strictlyDiffer (JsString (IInternalThemeData.id iconSet)) current)
      then Some (index, iconSet)
      else if String.eqb (IInternalThemeData.id iconSet) DEFAULT_FILE_ICONS
      then findIconSet current (S index) more (Some (index, iconSet))
      else findIconSet current (S index) more iconSetData
  end.

(** [interface IThemeExtensionPoint], as an extension declares a theme or
    an icon set; every member is a string when it is there. *)
Record IThemeExtensionPoint : Type := mkIThemeExtensionPoint {
  point_id : option string;
  point_label : option string;
  point_description : option string;
  point_path : option string;
  point_uiTheme : option string
}.

(** [x || y] on strings. *)
Definition orElse (x : option string) (y : string) : string :=
  match x with
  | Some s => if Js.truthy s then s else y
  | None => y
  end.

(** [String(x)] of an optional string. *)
Definition stringOf (x : option string) : string :=
  match x with
  | Some s => s
  | None => "undefined"
  end.

Section Service.

Variable host : Host.

(** [sendTelemetry].  The lookup [themeExtensionsActivated[extensionId]]
    is truthy for an extension marked before, and for an [extensionId] that
    names a member of [Object.prototype]. *)
Definition sendTelemetry (themeData : IInternalThemeData.t) (st : State) : State :=
  let extensionId := IInternalThemeData.extensionId themeData in
  if existsb (String.eqb extensionId) (themeExtensionsActivated st)
     || inherited extensionId
  then st
  else
    match getExtensionDescription host extensionId with
    | Some description =>
        let st := set_telemetry
                    (push (telemetry st)
                       (mkActivatePlugin description (IInternalThemeData.id themeData))) st in
        set_themeExtensionsActivated (push (themeExtensionsActivated st) extensionId) st
    | None => st
    end.

(** The closure [onApply] of [setColorTheme]. *)
Definition onApply (broadcastToAllWindows : bool)
    (newTheme : IInternalThemeData.t) (st : State) : State :=
  let newThemeId := IInternalThemeData.id newTheme in
  let st :=
    match container st with
    | Some classes =>
        let classes :=
          match currentTheme st with
          | Some old => if Js.truthy old then removeClass host old classes else classes
          | None => classes
          end in
        let st := set_currentTheme (Some newThemeId) st in
        set_container (Some (addClass host newThemeId classes)) st
    | None => st
    end in
  let st := set_storage (store THEME_PREF newThemeId (storage st)) st in
  let st := if broadcastToAllWindows
            then broadcast THEME_CHANNEL newThemeId st
            else sendTelemetry newTheme st in
  set_fired (push (fired st) newThemeId) st.

(** [applyTheme], on the theme found at position [index] of
    [knownThemes].  The error callback of the [then] handles the rejections
    of the load only: what [_processThemeObject] throws rejects the promise
    as it is.  [None] says that the load was not settled within [fuel]. *)
Definition applyTheme (fuel : nat) (found : nat * IInternalThemeData.t)
    (onApply : IInternalThemeData.t -> State -> State) (st : State)
    : option (Promise bool * State) :=
  let '(index, theme) := found in
  match cached theme with
  | Some content =>
      let st := _applyRules content colorThemeRulesClassName st in
      Some (Resolved true, onApply theme st)
  | None =>
      match _loadThemeDocument host fuel (IInternalThemeData.path theme) with
      | None => None
      | Some (Rejected _) =>
          Some (Rejected (UnableToLoad (IInternalThemeData.path theme)), st)
      | Some (Resolved themeDocument) =>
          match _processThemeObject host (IInternalThemeData.id theme) themeDocument with
          | ThrowTypeError => Some (Rejected TypeError, st)
          | Return styleSheetContent =>
              let st := set_knownThemes
                          (updateAt (IInternalThemeData.cache styleSheetContent) index
                             (knownThemes st)) st in
              let st := _applyRules styleSheetContent colorThemeRulesClassName st in
              Some (Resolved true,
                    onApply (IInternalThemeData.cache styleSheetContent theme) st)
          end
      end
  end.

(** [applyThemeCSS] *)
Definition applyThemeCSS (fuel : nat) (themeId defaultId : string)
    (onApply : IInternalThemeData.t -> State -> State) (st : State)
    : option (Promise bool * State) :=
  match findThemeData themeId (Some defaultId) st with
  | Some theme => applyTheme fuel theme onApply st
  | None => Some (Resolved false, st)
  end.

(** [setColorTheme] *)
Definition setColorTheme (fuel : nat) (themeId : string)
    (broadcastToAllWindows : bool) (st : State) : option (Promise bool * State) :=
  if negb (Js.truthy themeId) then Some (Resolved false, st)
  else if match currentTheme st with
          | Some current => String.eqb themeId current
          | None => false
          end
  then
    Some (Resolved true,
          if broadcastToAllWindows then broadcast THEME_CHANNEL themeId st else st)
  else
    let themeId := validateThemeId themeId in
    applyThemeCSS fuel themeId DEFAULT_THEME_ID (onApply broadcastToAllWindows) st.


(** [initialize] *)
Definition initialize (fuel : nat) (classes : string) (st : State)
    : option (Promise bool * State) :=
  let st := set_container (Some classes) st in
  match member THEME_PREF (storage st) with
  | Some themeId =>
      if Js.truthy themeId then setColorTheme fuel themeId false st
      else
        let st := set_storage (store THEME_PREF DEFAULT_THEME_ID (storage st)) st in
        setColorTheme fuel DEFAULT_THEME_ID false st
  | None =>
      let st := set_storage (store THEME_PREF DEFAULT_THEME_ID (storage st)) st in
      setColorTheme fuel DEFAULT_THEME_ID false st
  end.

(** The callback of [themes.forEach] in [onThemes]. *)
Definition onTheme (extensionFolderPath extensionId : string)
    (st : State) (theme : IThemeExtensionPoint) : State :=
  match point_path theme with
  | Some path =>
      if Js.truthy path then
        let normalizedAbsolutePath :=
          Paths_normalize host (Paths_join host extensionFolderPath path) in
        let st :=
          if String.prefix extensionFolderPath normalizedAbsolutePath then st
          else set_collected
                 (push (collected st)
                    (false, "invalid.path.1",
                     ["themes"; normalizedAbsolutePath; extensionFolderPath])) st in
        let themeSelector :=
          toCSSSelector (extensionId ++ "-" ++ Paths_normalize host path) in
        let defaultBaseTheme := getBaseThemeId host DEFAULT_THEME_ID in
        set_knownThemes
          (push (knownThemes st)
             (IInternalThemeData.mk
                (orElse (point_uiTheme theme) defaultBaseTheme ++ " " ++ themeSelector)
                (orElse (point_label theme) (Paths_basename host path))
                (point_description theme)
                normalizedAbsolutePath
                extensionId
                None)) st
      else set_collected
             (push (collected st) (true, "reqpath", ["themes"; stringOf (Some path)])) st
  | None =>
      set_collected (push (collected st) (true, "reqpath", ["themes"; stringOf None])) st
  end.

(** [onThemes]; [themes] is missing when the contributed value is not an
    array. *)
Definition onThemes (extensionFolderPath extensionId : string)
    (themes : option (list IThemeExtensionPoint)) (st : State) : State :=
  match themes with
  | None => set_collected (push (collected st) (true, "reqarray", ["themes"])) st
  | Some themes => fold_left (onTheme extensionFolderPath extensionId) themes st
  end.

(** The callback of [fileIcons.forEach] in [onFileIcons]. *)
Definition onFileIconSet (extensionFolderPath extensionId : string)
    (st : State) (fileIconSet : IThemeExtensionPoint) : State :=
  if negb (Js.truthy_opt (point_path fileIconSet)) then
    set_collected
      (push (collected st) (true, "reqpath", ["themes"; stringOf (point_path fileIconSet)])) st
  else if negb (Js.truthy_opt (point_id fileIconSet)) then
    set_collected
      (push (collected st) (true, "reqid", ["themes"; stringOf (point_path fileIconSet)])) st
  else
    let path := stringOf (point_path fileIconSet) in
    let normalizedAbsolutePath :=
      Paths_normalize host (Paths_join host extensionFolderPath path) in
    let st :=
      if String.prefix extensionFolderPath normalizedAbsolutePath then st
      else set_collected
             (push (collected st)
                (false, "invalid.path.1",
                 ["themes"; normalizedAbsolutePath; extensionFolderPath])) st in
    set_knownFileIconContributions
      (push (knownFileIconContributions st)
         (IInternalThemeData.mk
            (stringOf (point_id fileIconSet))
            (orElse (point_label fileIconSet) (Paths_basename host path))
            (point_description fileIconSet)
            normalizedAbsolutePath
            extensionId
            None)) st.

(** [onFileIcons] *)
Definition onFileIcons (extensionFolderPath extensionId : string)
    (fileIcons : option (list IThemeExtensionPoint)) (st : State) : State :=
  match fileIcons with
  | None => set_collected (push (collected st) (true, "reqarray", ["themes"])) st
  | Some fileIcons => fold_left (onFileIconSet extensionFolderPath extensionId) fileIcons st
  end.

(** [_applyFileIcons], on the icon set found at position [index] of
    [knownFileIconContributions].  The error callback of the [then] handles
    the rejections of the load only: what [_processFileIconsObject] throws
    rejects the promise as it is. *)
Definition _applyFileIcons (found : nat * IInternalThemeData.t) (st : State)
    : Promise bool * State :=
  let '(index, data) := found in
  match cached data with
  | Some content => (Resolved true, _applyRules content fileIconRulesClassName st)
  | None =>
      match _loadFileIconsDocument host (IInternalThemeData.path data) with
      | Rejected _ => (Rejected (UnableToLoad (IInternalThemeData.path data)), st)
      | Resolved fileIconsDocument =>
          match _processFileIconsObject host (IInternalThemeData.id data)
                  (IInternalThemeData.path data) fileIconsDocument with
          | ThrowTypeError => (Rejected TypeError, st)
          | Return styleSheetContent =>
              let st := set_knownFileIconContributions
                          (updateAt (IInternalThemeData.cache styleSheetContent) index
                             (knownFileIconContributions st)) st in
              (Resolved true, _applyRules styleSheetContent fileIconRulesClassName st)
          end
      end
  end.

(** [_updateFileIcons] *)
Definition _updateFileIcons (st : State) : Promise bool * State :=
  let allIconSets := knownFileIconContributions st in
  match findIconSet (currentFileIcons st) 0 allIconSets None with
  | Some iconSetData => _applyFileIcons iconSetData st
  | None => (Resolved false, st)
  end.

(** [setFileIcons] *)
Definition setFileIcons (fileIcons : Nullable) (st : State) : Promise bool * State :=
  if strictlyDiffer fileIcons (currentFileIcons st) then
    let st := set_currentFileIcons fileIcons st in
    _updateFileIcons st
  else (Resolved true, st).

End Service.

(** ** The states the service reaches *)

Section Reachable.

Variable host : Host.

(** The service starts from [initialState]; its state changes when an
    extension point delivers contributions, when the workbench initializes
    it, and when a theme or an icon set is activated. *)
Inductive reachable : State -> Prop :=
| reach_initial (storage : Dict) (styles : list (string * string)) :
    reachable (initialState storage styles)
| reach_onThemes st folder extensionId themes :
    reachable st ->
    reachable (onThemes host folder extensionId themes st)
| reach_onFileIcons st folder extensionId fileIcons :
    reachable st ->
    reachable (onFileIcons host folder extensionId fileIcons st)
| reach_initialize st fuel classes outcome st' :
    reachable st ->
    initialize host fuel classes st = Some (outcome, st') ->
    reachable st'
| reach_setColorTheme st fuel themeId toAll outcome st' :
    reachable st ->
    setColorTheme host fuel themeId toAll st = Some (outcome, st') ->
    reachable st'
| reach_setFileIcons st fileIcons :
    reachable st ->
    reachable (snd (setFileIcons host fileIcons st)).

End Reachable.

(** A theme of the given identifier is known. *)
Definition known (themeId : string) (st : State) : Prop :=
  In themeId (map IInternalThemeData.id (knownThemes st)).

(** An identifier fit to be the active one: it is not empty, the
    migration leaves it as it is, and a known theme bears it. *)
Definition activatable (themeId : string) (st : State) : Prop :=
  Js.truthy themeId = true
  /\ validateThemeId themeId = themeId
  /\ known themeId st.

(** The active theme of a state, when there is one, is fit to be it. *)
Definition consistent (st : State) : Prop :=
  forall current, currentTheme st = Some current -> activatable current st.

(** ** A host to run the service on

    A small file system and simple path functions, on which the
    definitions above are evaluated in the examples below. *)

Module Example.

(** The part of [s] after its last [sep], and whether [sep] occurs. *)
Fixpoint afterLast (sep : ascii) (s : string) : option string :=
  match s with
  | EmptyString => None
  | String c rest =>
      match afterLast sep rest with
      | Some tail => Some tail
      | None => if Ascii.eqb c sep then Some rest else None
      end
  end.

Definition extname (path : string) : string :=
  match afterLast "." path with
  | Some ext => "." ++ ext
  | None => EmptyString
  end.

Definition basename (path : string) : string :=
  match afterLast "/" path with
  | Some base => base
  | None => path
  end.

Definition dirname (path : string) : string :=
  substring 0 (String.length path - String.length (basename path) - 1) path.

Definition join (dir path : string) : string := dir ++ "/" ++ path.

Definition piece (n : nat) (themeId : string) : string :=
  nth n (Js.split " " themeId) EmptyString.

Definition keyword : ThemeSetting.t :=
  ThemeSetting.mk (Some "Keyword") (Some (ScopeString "keyword"))
    (Some [("foreground", "#0000FF")]).

Definition comment : ThemeSetting.t :=
  ThemeSetting.mk (Some "Comment") (Some (ScopeString "comment"))
    (Some [("fontStyle", "italic")]).

Definition base : ThemeDocument.t :=
  ThemeDocument.mk "base" None [keyword].

Definition derived : ThemeDocument.t :=
  ThemeDocument.mk "derived" (Some "base.json") [comment].

Definition noDocument : ThemeDocument.t := ThemeDocument.mk "" None [].

Definition noAssociation : FileIconsAssociation :=
  mkFileIconsAssociation None None None None None None.

Definition icons : FileIconsDocument :=
  mkFileIconsDocument
    (mkFileIconsAssociation (Some "dir") (Some "doc") None
       (Some [("TXT", "doc"); ("rs", "rust")])
       (Some [("Makefile", "make")])
       (Some [("rust", "rust"); ("c", "missing")]))
    (Some [("doc", mkFileIconDefinition (Some "doc.svg"));
           ("rust", mkFileIconDefinition (Some "rust.svg"));
           ("make", mkFileIconDefinition None);
           ("unused", mkFileIconDefinition (Some "unused.svg"))])
    (Some (mkFileIconsAssociation None (Some "doc") None None None None))
    None.

(** An icon set whose definition ids are array indices: the passes add
    [2], then [10], then [1]. *)
Definition numbered : FileIconsDocument :=
  mkFileIconsDocument
    (mkFileIconsAssociation (Some "2") (Some "1") (Some "10") None None None)
    (Some [("2", mkFileIconDefinition (Some "two.svg"));
           ("10", mkFileIconDefinition (Some "ten.svg"));
           ("1", mkFileIconDefinition (Some "one.svg"))])
    None None.

(** The files: the text of each is its own name, parsed below. *)
Definition disk : Dict :=
  [("/ext/themes/base.json", "base");
   ("/ext/themes/derived.json", "derived");
   ("/ext/themes/derived.tmTheme", "derived");
   ("/ext/themes/broken.json", "broken");
   ("/ext/icons/icons.json", "icons");
   ("/ext/icons/broken.json", "broken")].

Definition parseTheme (content : string) : ThemeDocument.t * list nat :=
  if String.eqb content "base" then (base, [])
  else if String.eqb content "derived" then (derived, [])
  else (noDocument, [1; 2]).

Definition parseIcons (content : string) : FileIconsDocument * list nat :=
  if String.eqb content "icons" then (icons, [])
  else (mkFileIconsDocument noAssociation None None None, [1]).

Definition parsePlist (content : string) : ThemeDocument.t * list string :=
  if String.eqb content "derived" then (derived, [])
  else (noDocument, ["not a property list"]).

Definition host : Host :=
  mkHost (piece 0) (piece 1) (fun str => str)
    extname dirname basename (fun path => path) join
    (fun path => member path disk)
    nat parseTheme parseIcons (fun error => "error " ++ Js.decimal (Z.of_nat error))
    parsePlist
    (fun extensionId => Some (mkExtensionDescription extensionId extensionId false "publisher"))
    (fun name classes => classes ++ " " ++ name)
    (fun name classes => classes).

Definition theme (id path : string) : IInternalThemeData.t :=
  IInternalThemeData.mk id id None path "ext" None.

(** A service that knows three themes and two icon sets, none of them
    active. *)
Definition idle : State :=
  mkState
    [theme "vs-dark ext-themes-base-json" "/ext/themes/base.json";
     theme "vs ext-themes-broken-json" "/ext/themes/broken.json";
     theme "vs vscode-theme-defaults-themes-light_vs-json" "/ext/themes/derived.json"]
    None (Some "monaco-shell")
    [theme "plain" "/ext/icons/icons.json"; theme "broken" "/ext/icons/broken.json"]
    JsNull [] [] [] [] [] [] [].

(** The service after the first theme was activated, and after the
    icon set [plain] was. *)
Definition themed : State :=
  match setColorTheme host 2 "vs-dark ext-themes-base-json" false idle with
  | Some (_, st) => st
  | None => idle
  end.

Definition iconed : State := snd (setFileIcons host (JsString "plain") idle).

(** The service from its construction on: an extension contributes the
    theme of [base.json], the workbench initializes the service, and the
    theme is activated. *)
Definition contributed : State :=
  onThemes host "/ext" "ext"
    (Some [mkIThemeExtensionPoint None (Some "Base") None
             (Some "themes/base.json") (Some "vs-dark")])
    (initialState [] []).

Definition initialized : State :=
  match initialize host 2 "monaco-shell" contributed with
  | Some (_, st) => st
  | None => contributed
  end.

Definition activated : State :=
  match setColorTheme host 2 "vs-dark ext-themes-base-json" true initialized with
  | Some (_, st) => st
  | None => initialized
  end.

(** A host on which every read gives a document that includes
    [loop.json] beside it. *)
Definition looping : Host :=
  mkHost (piece 0) (piece 1) (fun str => str)
    extname dirname basename (fun path => path) join
    (fun path => Some "loop")
    nat (fun content => (ThemeDocument.mk "loop" (Some "loop.json") [comment], []))
    parseIcons (fun error => "error")
    parsePlist
    (fun extensionId => None)
    (fun name classes => classes)
    (fun name classes => classes).

(** A host whose only file is [/a.json], a document that includes the
    file [missing.json] beside it. *)
Definition dangling : Host :=
  mkHost (piece 0) (piece 1) (fun str => str)
    extname dirname basename (fun path => path) join
    (fun path => if String.eqb path "/a.json" then Some "a" else None)
    nat (fun content => (ThemeDocument.mk "a" (Some "missing.json") [comment], []))
    parseIcons (fun error => "error")
    parsePlist
    (fun extensionId => None)
    (fun name classes => classes)
    (fun name classes => classes).

End Example.

(** ** What the compilers are expected to produce

    The functions below describe the output of the compilers entry by
    entry; the theorems relate them to the loops of the source. *)

(** The declarations of one segment of a [fontStyle] value. *)
Definition fontStyleDeclaration (segment : string) : list string :=
  if String.eqb segment "italic" then ["font-style: italic;"]
  else if String.eqb segment "bold" then ["font-weight: bold;"]
  else if String.eqb segment "underline" then ["text-decoration: underline;"]
  else [].

(** The declarations of one member of a settings record. *)
Definition settingDeclarations (setting : string * string) : list string :=
  if String.eqb (fst setting) "foreground" then
    ["color: " ++ Color.toString (Color.parse (snd setting)) ++ ";"]
  else if String.eqb (fst setting) "fontStyle" then
    flat_map fontStyleDeclaration (Js.split " " (snd setting))
  else [].

(** The pieces of a string between its white space characters: the
    tokens of a value read as separated by white space of any kind. *)
Fixpoint whiteSpaceSeparated (s : string) : list string :=
  match s with
  | EmptyString => [EmptyString]
  | String c rest =>
      if Js.isWhiteSpace c then EmptyString :: whiteSpaceSeparated rest
      else match whiteSpaceSeparated rest with
           | [] => [String c EmptyString]
           | piece :: pieces => String c piece :: pieces
           end
  end.

(** The tokens of a scope. *)
Definition scopeTokens (scope : Scope) : list string :=
  match scope with
  | ScopeString text => Js.split "," text
  | ScopeArray tokens => tokens
  end.

(** The rule of one scope token. *)
Definition tokenRule (themeSelector statements token : string) : string :=
  ".monaco-editor." ++ themeSelector ++ " .token."
  ++ Js.replaceSpaces (Js.trim token) ++ " { " ++ statements ++ " }".

(** The rules of an entry compiled as a scoped rule: one per token when
    the entry has a scope and settings, none otherwise. *)
Definition entryRules (themeSelector : string) (s : ThemeSetting.t) : list string :=
  if scopeTruthy (ThemeSetting.scope s) then
    match ThemeSetting.scope s, ThemeSetting.settings s with
    | Some scope, Some settings =>
        map (tokenRule themeSelector (_settingsToStatements settings)) (scopeTokens scope)
    | _, _ => []
    end
  else [].

(** A tab between two words. *)
Definition boldTabItalic : string :=
  "bold" ++ String (ascii_of_nat 9) "italic".

(** The rules of one definition id with its accumulated selectors: one
    rule when the id has a definition with a truthy [iconPath], none
    otherwise. *)
Definition definitionRules (host : Host) (fileIconsPath : string)
    (definitions : list (string * FileIconDefinition))
    (entry : string * list string) : list string :=
  match member (fst entry) definitions with
  | Some definition =>
      if Js.truthy_opt (iconPath definition) then
        [Js.join ", " (snd entry) ++ " { background-image: url(" ++ Js.dquote
         ++ Paths_join host (Paths_dirname host fileIconsPath)
              (match iconPath definition with Some path => path | None => "" end)
         ++ Js.dquote ++ "); }"]
      else []
  | None => []
  end.

(** The calls [addSelector(selector, defId)] that [collectSelectors]
    makes, in the order in which it makes them. *)
Definition dictionaryCalls (dict : option Dict) (selectorOf : string -> string)
    : list (string * option string) :=
  match dict with
  | Some entries => map (fun entry => (selectorOf (fst entry), Some (snd entry))) entries
  | None => []
  end.

Definition associationCalls (host : Host) (associations : option FileIconsAssociation)
    (baseThemeClassName : option string) : list (string * option string) :=
  match associations with
  | None => []
  | Some associations =>
      let qualifier :=
        match baseThemeClassName with
        | Some className =>
            if Js.truthy className then className ++ " .show-file-icons"
            else ".show-file-icons"
        | None => ".show-file-icons"
        end in
      let fixed :=
        [(qualifier ++ " .folder-icon", folder associations);
         (qualifier ++ " .expanded .folder-icon", folderExpanded associations);
         (qualifier ++ " .file-icon", file associations)] in
      let extensions :=
        dictionaryCalls (fileExtensions associations) (fun fileExtension =>
          qualifier ++ " ." ++ escapeCSS host (Js.toLowerCase fileExtension)
          ++ "-ext-file-icon.file-icon") in
      let names :=
        dictionaryCalls (fileNames associations) (fileNameSelector host qualifier) in
      let languages :=
        dictionaryCalls (languageIds associations) (fun languageId =>
          qualifier ++ " ." ++ escapeCSS host languageId
          ++ "-lang-file-icon.file-icon") in
      (fixed ++ extensions ++ names ++ languages)%list
  end.

Definition documentCalls (host : Host) (fileIconsDocument : FileIconsDocument)
    : list (string * option string) :=
  (associationCalls host (Some (associations fileIconsDocument)) None
   ++ associationCalls host (light fileIconsDocument) (Some ".vs")
   ++ associationCalls host (highContrast fileIconsDocument) (Some ".hc_black"))%list.

(** The definition id of a call, when it is truthy. *)
Definition calledId (call : string * option string) : option string :=
  match snd call with
  | Some defId => if Js.truthy defId then Some defId else None
  | None => None
  end.

(** The selectors that the calls give to a definition id, in order. *)
Fixpoint selectorsOf (defId : string) (calls : list (string * option string))
    : list string :=
  match calls with
  | [] => []
  | call :: more =>
      match calledId call with
      | Some d =>
          if String.eqb d defId then fst call :: selectorsOf defId more
          else selectorsOf defId more
      | None => selectorsOf defId more
      end
  end.

(** A list of strings without one of them. *)
Fixpoint without (s : string) (l : list string) : list string :=
  match l with
  | [] => []
  | x :: more => if String.eqb x s then without s more else x :: without s more
  end.

(** The definition ids that the calls name, each once, in the order of
    their first calls. *)
Fixpoint calledIds (calls : list (string * option string)) : list string :=
  match calls with
  | [] => []
  | call :: more =>
      match calledId call with
      | Some d => d :: without d (calledIds more)
      | None => calledIds more
      end
  end.

(** The calls made one after the other on a selector map. *)
Definition accumulate (calls : list (string * option string)) (m : SelectorMap)
    : Completion SelectorMap :=
  fold_left (fun m call => andThen m (fun m => addSelector m (fst call) (snd call)))
    calls (Return m).

(** The selector map that the calls describe. *)
Definition table (calls : list (string * option string)) : SelectorMap :=
  map (fun defId => (defId, selectorsOf defId calls)) (calledIds calls).

(** Membership in a list of strings, decided. *)
Definition among (s : string) (l : list string) : bool := existsb (String.eqb s) l.

(** Two characters read as a hexadecimal numeral the way [parseInt] reads
    what stands behind [0x]: the number written by the longest run of
    hexadecimal digits they start with, and NaN when the first of them is
    not a hexadecimal digit.  So [1G] reads as 1 and [G1] as NaN. *)
Definition hexPair (c1 c2 : ascii) : option Z :=
  match Js.digitValue 16 c1 with
  | Some h1 =>
      match Js.digitValue 16 c2 with
      | Some h2 => Some (16 * h1 + h2)%Z
      | None => Some h1
      end
  | None => None
  end.

(** ** Predicates the further properties are stated with *)

(** A channel that is NaN or the integer of a byte. *)
Definition byteChannel (c : option Z) : Prop :=
  match c with
  | Some z => (0 <= z <= 255)%Z
  | None => True
  end.

(** The identifiers of older versions that [validateThemeId] rewrites. *)
Definition legacyThemeIds : list string :=
  ["vs"; "vs-dark"; "hc-black";
   "vs vscode-theme-colorful-defaults-themes-light_plus-tmTheme";
   "vs-dark vscode-theme-colorful-defaults-themes-dark_plus-tmTheme"].

(** Every character of a string passes a test. *)
Fixpoint everyChar (p : ascii -> bool) (s : string) : bool :=
  match s with
  | EmptyString => true
  | String c rest => p c && everyChar p rest
  end.

(** A string starts with a digit or a dash. *)
Definition leadingDigitOrDash (s : string) : bool :=
  match s with
  | String c _ =>
      let n := Js.code c in
      ((48 <=? n) && (n <=? 57) || (n =? 45))%Z
  | EmptyString => false
  end.

(** An entry of an extension point declares a non-empty path, and a
    non-empty identifier. *)
Definition declaresPath (point : IThemeExtensionPoint) : bool :=
  Js.truthy_opt (point_path point).

Definition declaresId (point : IThemeExtensionPoint) : bool :=
  Js.truthy_opt (point_id point).

(** A message for a collector is an error. *)
Definition isError (message : Collected) : bool := fst (fst message).

(** The number of errors among the messages collected. *)
Definition errorCount (messages : list Collected) : nat :=
  List.length (filter isError messages).

(** The composite identifier of a color theme: a base theme, a space and
    a selector. *)
Definition compositeId (themeId : string) : Prop :=
  exists base selector,
    themeId = base ++ " " ++ selector
    /\ everyChar isSelectorChar selector = true
    /\ leadingDigitOrDash selector = false.

(** Two states differ in the known themes and in the collected messages
    at most; in the known icon sets and in the collected messages at
    most. *)
Definition sameButThemes (st st' : State) : Prop :=
  st' = set_collected (collected st') (set_knownThemes (knownThemes st') st).

Definition sameButIconSets (st st' : State) : Prop :=
  st' = set_collected (collected st')
          (set_knownFileIconContributions (knownFileIconContributions st') st).

(** The contents of the style elements of a class, in document order. *)
Definition stylesOf (rulesClassName : string) (elements : list (string * string))
    : list string :=
  map snd (filter (fun element => String.eqb (fst element) rulesClassName) elements).

(** A theme document includes another: the document at [path] is read,
    has the extension [.json], parses without errors, and names in its
    [include], which is not empty, the document at [included]. *)
Inductive includes (host : Host) : string -> string -> Prop :=
| includes_intro (path content include : string) (contentValue : ThemeDocument.t) :
    readFile host path = Some content ->
    Paths_extname host path = ".json" ->
    Json_parse_theme host content = (contentValue, []) ->
    ThemeDocument.include contentValue = Some include ->
    Js.truthy include = true ->
    includes host path (Paths_join host (Paths_dirname host path) include).

(** A chain of inclusions, from a document down to one it includes
    directly or through others. *)
Inductive includesThrough (host : Host) : string -> string -> Prop :=
| through_here (path : string) : includesThrough host path path
| through_next (path included last : string) :
    includes host path included ->
    includesThrough host included last ->
    includesThrough host path last.

(** Whether a member of the editor settings is there and not empty,
    counted as 1 or 0. *)
Definition has (memberName : string) (editorSettings : ThemeSettingStyle) : nat :=
  if Js.truthy_opt (member memberName editorSettings) then 1 else 0.

(** The last element that satisfies [p], with its position. *)
Fixpoint lastMatch {A : Type} (p : A -> bool) (l : list A) : option (nat * A) :=
  match l with
  | [] => None
  | x :: more =>
      match lastMatch p more with
      | Some (i, y) => Some (S i, y)
      | None => if p x then Some (0%nat, x) else None
      end
  end.

(** No element before a position bears an identifier. *)
Definition noneBefore (themeId : string) (index : nat)
    (themes : list IInternalThemeData.t) : Prop :=
  forall j other,
    j < index -> nth_error themes j = Some other ->
    IInternalThemeData.id other <> themeId.

(** The icon set that an identifier names, the one named [vs-standard]
    standing in: the first icon set of that identifier, or else the last
    icon set of the default identifier. *)
Definition iconSetFor (current : Nullable) (allIconSets : list IInternalThemeData.t)
    : option (nat * IInternalThemeData.t) :=
  let requested :=
    match current with
    | JsString themeId => firstMatch (hasId themeId) allIconSets
    | _ => None
    end in
  match requested with
  | Some found => Some found
  | None => lastMatch (hasId DEFAULT_FILE_ICONS) allIconSets
  end.


(** Two states differ in the icon side at most: the current icon set,
    the known icon sets and the style elements. *)
Definition sameButIconSide (st st' : State) : Prop :=
  st' = set_styles (styles st')
          (set_knownFileIconContributions (knownFileIconContributions st')
             (set_currentFileIcons (currentFileIcons st') st)).


(** One list of contributions keeps the caches of another: where the one
    holds a contribution with a cached style sheet, the other holds, at the
    same position, a contribution of the same identifier and path with the
    same cached style sheet. *)
Definition keepsCaches (before after : list IInternalThemeData.t) : Prop :=
  forall index data content,
    nth_error before index = Some data ->
    cached data = Some content ->
    exists data',
      nth_error after index = Some data'
      /\ IInternalThemeData.id data' = IInternalThemeData.id data
      /\ IInternalThemeData.path data' = IInternalThemeData.path data
      /\ cached data' = Some content.

(** One operation on the service. *)
Inductive step (host : Host) : State -> State -> Prop :=
| step_onThemes st folder extensionId themes :
    step host st (onThemes host folder extensionId themes st)
| step_onFileIcons st folder extensionId fileIcons :
    step host st (onFileIcons host folder extensionId fileIcons st)
| step_initialize st fuel classes outcome st' :
    initialize host fuel classes st = Some (outcome, st') ->
    step host st st'
| step_setColorTheme st fuel themeId toAll outcome st' :
    setColorTheme host fuel themeId toAll st = Some (outcome, st') ->
    step host st st'
| step_setFileIcons st fileIcons :
    step host st (snd (setFileIcons host fileIcons st)).

(** Any number of operations, one after the other. *)
Inductive steps (host : Host) : State -> State -> Prop :=
| steps_none st : steps host st st
| steps_more st st' st'' :
    steps host st st' -> step host st' st'' -> steps host st st''.

(** * Properties *)

(** ** Colors *)

Lemma parseHex_pair (c1 c2 : ascii) (h1 h2 : Z) :
  Js.digitValue 16 c1 = Some h1 ->
  Js.digitValue 16 c2 = Some h2 ->
  Color.parseHex (String c1 (String c2 EmptyString)) = Some (16 * h1 + h2)%Z.
Proof.
  intros H1 H2. unfold Color.parseHex, Js.parseInt. simpl.
  rewrite H1, H2. reflexivity.
Qed.

Lemma parse_without_hash (color : string) :
  Color.startsWithHash color = false -> Color.parse color = Color.fallback.
Proof.
  intros H. unfold Color.parse. now rewrite H.
Qed.

Lemma parse_short (color : string) :
  (String.length color < 7)%nat -> Color.parse color = Color.fallback.
Proof.
  intros H. unfold Color.parse.
  apply Nat.leb_gt in H. rewrite H. now rewrite andb_false_r.
Qed.

(** [parseHex] of two characters. *)
Lemma parseHex_hexPair (c1 c2 : ascii) :
  Color.parseHex (String c1 (String c2 EmptyString)) = hexPair c1 c2.
Proof.
  unfold Color.parseHex, Js.parseInt, hexPair. simpl.
  destruct (Js.digitValue 16 c1) as [h1 |]; [| reflexivity].
  destruct (Js.digitValue 16 c2) as [h2 |]; reflexivity.
Qed.

(** C4, as the code has it.  [Color.parse] returns the fixed color
    [{r: 255, g: 0, b: 0, a: 1}] for every string that does not start with
    [#] and for every string shorter than seven characters.  A [#] followed
    by six hexadecimal digits yields the three bytes and alpha 1; a [#]
    followed by eight hexadecimal digits yields the three bytes and the
    last byte divided by 255 as alpha.  So ["#000000"] parses to
    [{0, 0, 0, 1}], ["#FFFFFF80"] has alpha [128 / 255], and ["bogus"]
    parses to the fixed color.  Every string that starts with [#] and has
    at least seven characters is parsed, whatever its characters are: each
    of the pairs at the positions 1-2, 3-4 and 5-6 is read as [parseInt]
    reads it behind [0x], which gives the number of the hexadecimal digits
    the pair starts with and NaN when it starts with none; alpha is 1
    unless the string has exactly nine characters, and then it is the pair
    at the positions 7-8, read in the same way, divided by 255. *)
Theorem parse_accepts_hash_colors :
  (forall color,
      Color.startsWithHash color = false \/ (String.length color < 7)%nat ->
      Color.parse color = Color.fallback)
  /\ (forall c1 c2 c3 c4 c5 c6 h1 h2 h3 h4 h5 h6,
         Js.digitValue 16 c1 = Some h1 -> Js.digitValue 16 c2 = Some h2 ->
         Js.digitValue 16 c3 = Some h3 -> Js.digitValue 16 c4 = Some h4 ->
         Js.digitValue 16 c5 = Some h5 -> Js.digitValue 16 c6 = Some h6 ->
         Color.parse
           (String "#" (String c1 (String c2 (String c3 (String c4
              (String c5 (String c6 EmptyString)))))))
         = mkRGBA (Some (16 * h1 + h2)%Z) (Some (16 * h3 + h4)%Z)
             (Some (16 * h5 + h6)%Z) 1%float)
  /\ (forall c1 c2 c3 c4 c5 c6 c7 c8 h1 h2 h3 h4 h5 h6 h7 h8,
         Js.digitValue 16 c1 = Some h1 -> Js.digitValue 16 c2 = Some h2 ->
         Js.digitValue 16 c3 = Some h3 -> Js.digitValue 16 c4 = Some h4 ->
         Js.digitValue 16 c5 = Some h5 -> Js.digitValue 16 c6 = Some h6 ->
         Js.digitValue 16 c7 = Some h7 -> Js.digitValue 16 c8 = Some h8 ->
         Color.parse
           (String "#" (String c1 (String c2 (String c3 (String c4
              (String c5 (String c6 (String c7 (String c8 EmptyString)))))))))
         = mkRGBA (Some (16 * h1 + h2)%Z) (Some (16 * h3 + h4)%Z)
             (Some (16 * h5 + h6)%Z)
             (Js.numberOfZ (16 * h7 + h8) / 255)%float)
  /\ Color.parse "#000000" = mkRGBA (Some 0%Z) (Some 0%Z) (Some 0%Z) 1%float
  /\ a (Color.parse "#FFFFFF80") = (128 / 255)%float
  /\ Color.parse "bogus" = mkRGBA (Some 255%Z) (Some 0%Z) (Some 0%Z) 1%float
  /\ (forall color,
         Color.startsWithHash color = true ->
         (7 <= String.length color)%nat ->
         exists c1 c2 c3 c4 c5 c6 rest,
           color = String "#" (String c1 (String c2 (String c3 (String c4
                     (String c5 (String c6 rest))))))
           /\ Color.parse color
              = mkRGBA (hexPair c1 c2) (hexPair c3 c4) (hexPair c5 c6)
                  (match rest with
                   | String c7 (String c8 EmptyString) =>
                       (Color.channelNumber (hexPair c7 c8) / 255)%float
                   | _ => 1%float
                   end)).
Proof.
  split; [| split; [| split; [| split; [| split; [| split ]]]]].
  - intros color [H | H].
    + now apply parse_without_hash.
    + now apply parse_short.
  - intros c1 c2 c3 c4 c5 c6 h1 h2 h3 h4 h5 h6 H1 H2 H3 H4 H5 H6.
    unfold Color.parse, Color.startsWithHash, Js.substr. simpl.
    now rewrite (parseHex_pair _ _ _ _ H1 H2), (parseHex_pair _ _ _ _ H3 H4),
      (parseHex_pair _ _ _ _ H5 H6).
  - intros c1 c2 c3 c4 c5 c6 c7 c8 h1 h2 h3 h4 h5 h6 h7 h8 H1 H2 H3 H4 H5 H6 H7 H8.
    unfold Color.parse, Color.startsWithHash, Js.substr. simpl.
    now rewrite (parseHex_pair _ _ _ _ H1 H2), (parseHex_pair _ _ _ _ H3 H4),
      (parseHex_pair _ _ _ _ H5 H6), (parseHex_pair _ _ _ _ H7 H8).
  - reflexivity.
  - reflexivity.
  - reflexivity.
  - intros color Hhash Hlength.
    destruct color as [| c0 [| c1 [| c2 [| c3 [| c4 [| c5 [| c6 rest]]]]]]];
      cbn [String.length] in Hlength; try lia.
    unfold Color.startsWithHash in Hhash. cbn [Js.charAt0] in Hhash.
    apply Ascii.eqb_eq in Hhash. subst c0.
    exists c1, c2, c3, c4, c5, c6, rest. split; [reflexivity |].
    unfold Color.parse, Color.startsWithHash, Js.substr.
    cbn [Js.charAt0 String.length Nat.leb andb]. rewrite Ascii.eqb_refl.
    cbn [andb Nat.eqb].
    assert (Hpair : forall d1 d2 more,
               Color.parseHex (substring 0 2 (String d1 (String d2 more)))
               = hexPair d1 d2).
    { intros d1 d2 more. cbn [substring].
      destruct more; apply parseHex_hexPair. }
    change (substring 1 2 (String "#" (String c1 (String c2 (String c3 (String c4
              (String c5 (String c6 rest))))))))
      with (substring 0 2 (String c1 (String c2 (String c3 (String c4
              (String c5 (String c6 rest))))))).
    change (substring 3 2 (String "#" (String c1 (String c2 (String c3 (String c4
              (String c5 (String c6 rest))))))))
      with (substring 0 2 (String c3 (String c4 (String c5 (String c6 rest))))).
    change (substring 5 2 (String "#" (String c1 (String c2 (String c3 (String c4
              (String c5 (String c6 rest))))))))
      with (substring 0 2 (String c5 (String c6 rest))).
    change (substring 7 2 (String "#" (String c1 (String c2 (String c3 (String c4
              (String c5 (String c6 rest))))))))
      with (substring 0 2 rest).
    rewrite !Hpair.
    destruct rest as [| c7 [| c8 [| c9 more]]]; try reflexivity.
    cbn [String.length Nat.eqb]. now rewrite Hpair.
Qed.

(** The theorem at ["#1aF"], which is too short, and at ["#0a1B2c"] and
    ["#0a1B2cFF"]. *)
Lemma parse_accepts_hash_colors_witness :
  Color.parse "#1aF" = Color.fallback
  /\ Color.parse "#0a1B2c" = mkRGBA (Some 10%Z) (Some 27%Z) (Some 44%Z) 1%float
  /\ Color.parse "#0a1B2cFF"
     = mkRGBA (Some 10%Z) (Some 27%Z) (Some 44%Z) (Js.numberOfZ 255 / 255)%float.
Proof.
  destruct parse_accepts_hash_colors as (Hshort & Hsix & Height & _).
  split; [| split].
  - apply Hshort. right. simpl. lia.
  - apply (Hsix "0" "a" "1" "B" "2" "c" 0 10 1 11 2 12)%char%Z; reflexivity.
  - apply (Height "0" "a" "1" "B" "2" "c" "F" "F" 0 10 1 11 2 12 15 15)%char%Z;
      reflexivity.
Defined.

(** C4, as stated, fails: a string with malformed digits and a string of
    a wrong length are parsed, and the result is not the fixed color.  A
    pair that starts with a hexadecimal digit and goes on with another
    character is read as that digit. *)
Lemma parse_malformed_is_not_fallback :
  Color.parse "#GGGGGG" = mkRGBA None None None 1%float
  /\ Color.parse "#GGGGGG" <> Color.fallback
  /\ Color.parse "#0000FF00FF" = mkRGBA (Some 0%Z) (Some 0%Z) (Some 255%Z) 1%float
  /\ Color.parse "#0000FF00FF" <> Color.fallback
  /\ Color.parse "#1G2H3I" = mkRGBA (Some 1%Z) (Some 2%Z) (Some 3%Z) 1%float
  /\ Color.parse "#1G2H3I" <> Color.fallback.
Proof.
  repeat split; try reflexivity; intros H; vm_compute in H; discriminate H.
Qed.

(** ** The declarations of a settings record *)

Lemma fold_fontStyleSegment (segments statements : list string) :
  fold_left fontStyleSegment segments statements
  = (statements ++ flat_map fontStyleDeclaration segments)%list.
Proof.
  revert statements.
  induction segments as [| segment segments IH]; intros statements; simpl.
  - now rewrite app_nil_r.
  - rewrite IH. unfold fontStyleSegment, fontStyleDeclaration, push.
    destruct (String.eqb segment "italic");
      [| destruct (String.eqb segment "bold");
         [| destruct (String.eqb segment "underline") ]];
      simpl; now rewrite <- ?app_assoc.
Qed.

Lemma fold_settingStatement (settings : ThemeSettingStyle) (statements : list string) :
  fold_left settingStatement settings statements
  = (statements ++ flat_map settingDeclarations settings)%list.
Proof.
  revert statements.
  induction settings as [| [settingName value] settings IH]; intros statements; simpl.
  - now rewrite app_nil_r.
  - rewrite IH. unfold settingDeclarations, push. simpl.
    destruct (String.eqb settingName "foreground") eqn:Hfg.
    + now rewrite <- app_assoc.
    + destruct (String.eqb settingName "background") eqn:Hbg.
      * apply String.eqb_eq in Hbg. subst settingName. reflexivity.
      * destruct (String.eqb settingName "fontStyle").
        -- rewrite fold_fontStyleSegment. now rewrite <- app_assoc.
        -- reflexivity.
Qed.

(** C5, as the code has it.  The statements of a settings record are the
    declarations of its members, in the order of the members.  A
    [fontStyle] value is cut at every space character (U+0020), and its
    segments contribute in the order in which they appear: [italic],
    [bold] and [underline] one declaration each ([font-style: italic],
    [font-weight: bold], [text-decoration: underline]), any other segment
    nothing.  So ["bold italic"] yields the font-weight declaration
    followed by the font-style declaration. *)
Theorem fontStyle_segments_in_order :
  (forall settings,
      _settingsToStatements settings
      = Js.join " " (flat_map settingDeclarations settings))
  /\ (forall value,
         _settingsToStatements [("fontStyle", value)]
         = Js.join " " (flat_map fontStyleDeclaration (Js.split " " value)))
  /\ fontStyleDeclaration "italic" = ["font-style: italic;"]
  /\ fontStyleDeclaration "bold" = ["font-weight: bold;"]
  /\ fontStyleDeclaration "underline" = ["text-decoration: underline;"]
  /\ (forall segment,
         segment <> "italic" -> segment <> "bold" -> segment <> "underline" ->
         fontStyleDeclaration segment = [])
  /\ _settingsToStatements [("fontStyle", "bold italic")]
     = "font-weight: bold; font-style: italic;".
Proof.
  assert (Hall : forall settings,
             _settingsToStatements settings
             = Js.join " " (flat_map settingDeclarations settings)).
  { intros settings. unfold _settingsToStatements.
    now rewrite fold_settingStatement. }
  split; [exact Hall |].
  split.
  { intros value. rewrite Hall. simpl. now rewrite app_nil_r. }
  split; [reflexivity |]. split; [reflexivity |]. split; [reflexivity |].
  split; [| reflexivity].
  intros segment Hitalic Hbold Hunderline. unfold fontStyleDeclaration.
  apply String.eqb_neq in Hitalic, Hbold, Hunderline.
  now rewrite Hitalic, Hbold, Hunderline.
Qed.

(** The theorem at the segment ["oblique"], which is none of the three. *)
Lemma fontStyle_segments_in_order_witness :
  fontStyleDeclaration "oblique" = []
  /\ _settingsToStatements [("fontStyle", "underline oblique bold")]
     = "text-decoration: underline; font-weight: bold;".
Proof.
  destruct fontStyle_segments_in_order as (_ & Hvalue & _ & _ & _ & Hother & _).
  split.
  - apply Hother; discriminate.
  - rewrite Hvalue. reflexivity.
Defined.

(** C5, as stated, fails: [bold] and [italic] separated by a tab are two
    tokens separated by white space, and the record yields no declaration
    at all. *)
Lemma fontStyle_tab_is_no_separator :
  whiteSpaceSeparated boldTabItalic = ["bold"; "italic"]
  /\ _settingsToStatements [("fontStyle", boldTabItalic)] = ""
  /\ _settingsToStatements [("fontStyle", boldTabItalic)]
     <> Js.join " " (flat_map fontStyleDeclaration (whiteSpaceSeparated boldTabItalic)).
Proof.
  split; [reflexivity |]. split; [reflexivity |].
  intros H. vm_compute in H. discriminate H.
Qed.

(** ** The walk over the settings of a theme document *)

Lemma fold_scopeRule (themeSelector statements : string)
    (rules cssRules : list string) :
  fold_left (scopeRule themeSelector statements) rules cssRules
  = (cssRules ++ map (tokenRule themeSelector statements) rules)%list.
Proof.
  revert cssRules.
  induction rules as [| rule rules IH]; intros cssRules; simpl.
  - now rewrite app_nil_r.
  - rewrite IH. unfold scopeRule, push, tokenRule. now rewrite <- app_assoc.
Qed.

(** An entry that is not taken as the editor settings adds its rules and
    leaves the editor settings alone. *)
Lemma themeSettingStep_scoped (themeSelector : string)
    (editorSettings : option ThemeSettingStyle) (cssRules : list string)
    (index : nat) (s : ThemeSetting.t) :
  index <> 0%nat \/ scopeTruthy (ThemeSetting.scope s) = true ->
  themeSettingStep themeSelector (editorSettings, cssRules) index s
  = (editorSettings, (cssRules ++ entryRules themeSelector s)%list).
Proof.
  intros Hscoped. unfold themeSettingStep, entryRules.
  assert (Hbranch : (index =? 0)%nat && negb (scopeTruthy (ThemeSetting.scope s)) = false).
  { destruct Hscoped as [Hindex | Hscope].
    - apply Nat.eqb_neq in Hindex. now rewrite Hindex.
    - rewrite Hscope. apply andb_false_r. }
  rewrite Hbranch.
  destruct (ThemeSetting.scope s) as [scope |]; simpl.
  - destruct (ThemeSetting.settings s) as [settings |].
    + destruct scope as [text | tokens]; simpl.
      * destruct (Js.truthy text).
        -- now rewrite fold_scopeRule.
        -- now rewrite app_nil_r.
      * now rewrite fold_scopeRule.
    + destruct scope as [text | tokens]; simpl;
        try destruct (Js.truthy text); now rewrite app_nil_r.
  - now rewrite app_nil_r.
Qed.

(** The entry at index 0 without a scope replaces the editor settings. *)
Lemma themeSettingStep_defaults (themeSelector : string)
    (editorSettings : option ThemeSettingStyle) (cssRules : list string)
    (s : ThemeSetting.t) :
  scopeTruthy (ThemeSetting.scope s) = false ->
  themeSettingStep themeSelector (editorSettings, cssRules) 0 s
  = (ThemeSetting.settings s, cssRules).
Proof.
  intros Hscope. unfold themeSettingStep. now rewrite Hscope.
Qed.

Lemma forEachFrom_later (themeSelector : string) (rest : list ThemeSetting.t) :
  forall (index : nat) (editorSettings : option ThemeSettingStyle)
         (cssRules : list string),
    forEachFrom (themeSettingStep themeSelector) (S index) rest
      (editorSettings, cssRules)
    = (editorSettings, (cssRules ++ flat_map (entryRules themeSelector) rest)%list).
Proof.
  induction rest as [| s rest IH]; intros index editorSettings cssRules;
    cbn [forEachFrom flat_map].
  - now rewrite app_nil_r.
  - rewrite themeSettingStep_scoped by (left; discriminate).
    rewrite IH. now rewrite <- app_assoc.
Qed.

(** C3.  The entry at index 0 is taken as the editor settings exactly when
    its scope is falsy (missing or empty): the walk then ends with that
    entry's [settings] as the editor settings and with the scoped rules of
    the other entries only.  When its scope is truthy the walk ends with
    the editor settings it started from, and the entry has contributed its
    scoped rules in front, built as those of every other entry.  The
    compiled style sheet follows: the rules of the whole editor come from
    the first entry in the first case, and there are none in the second. *)
Theorem first_entry_without_scope_is_editor_settings
    (s : ThemeSetting.t) (rest : list ThemeSetting.t) :
  (forall themeSelector,
      walkThemeSettings themeSelector (s :: rest)
      = if scopeTruthy (ThemeSetting.scope s)
        then (Some noEditorSettings,
              (entryRules themeSelector s
               ++ flat_map (entryRules themeSelector) rest)%list)
        else (ThemeSetting.settings s, flat_map (entryRules themeSelector) rest))
  /\ (forall host themeId name include,
         let themeSelector :=
           getBaseThemeId host themeId ++ "." ++ getSyntaxThemeId host themeId in
         _processThemeObject host themeId (ThemeDocument.mk name include (s :: rest))
         = if scopeTruthy (ThemeSetting.scope s)
           then Return (Js.join newline
                          (entryRules themeSelector s
                           ++ flat_map (entryRules themeSelector) rest)%list)
           else match ThemeSetting.settings s with
                | Some editorSettings =>
                    Return (Js.join newline
                              (editorRules themeSelector editorSettings
                                 (flat_map (entryRules themeSelector) rest)))
                | None => ThrowTypeError
                end).
Proof.
  assert (Hwalk : forall themeSelector,
             walkThemeSettings themeSelector (s :: rest)
             = if scopeTruthy (ThemeSetting.scope s)
               then (Some noEditorSettings,
                     (entryRules themeSelector s
                      ++ flat_map (entryRules themeSelector) rest)%list)
               else (ThemeSetting.settings s,
                     flat_map (entryRules themeSelector) rest)).
  { intros themeSelector. unfold walkThemeSettings, forEach. cbn [forEachFrom].
    destruct (scopeTruthy (ThemeSetting.scope s)) eqn:Hscope.
    - rewrite themeSettingStep_scoped by (now right).
      now rewrite forEachFrom_later.
    - rewrite themeSettingStep_defaults by assumption.
      now rewrite forEachFrom_later. }
  split; [exact Hwalk |].
  intros host themeId name include themeSelector. unfold _processThemeObject.
  cbn [ThemeDocument.settings]. fold themeSelector. rewrite Hwalk.
  destruct (scopeTruthy (ThemeSetting.scope s)); reflexivity.
Qed.

(** C3, as stated, fails: an entry at index 0 that has a scope, the empty
    string, is taken as the editor settings all the same.  Its [settings]
    give the rules of the whole editor, here the one of [foreground], and
    no scoped rule; behind another entry it gives no rule at all. *)
Lemma first_entry_with_empty_scope_is_editor_settings :
  ThemeSetting.scope
    (ThemeSetting.mk None (Some (ScopeString "")) (Some [("foreground", "#FF0000")]))
  <> None
  /\ walkThemeSettings "vs.x"
       [ThemeSetting.mk None (Some (ScopeString "")) (Some [("foreground", "#FF0000")])]
     = (Some [("foreground", "#FF0000")], [])
  /\ _processThemeObject Example.host "vs x"
       (ThemeDocument.mk "t" None
          [ThemeSetting.mk None (Some (ScopeString ""))
             (Some [("foreground", "#FF0000")])])
     = Return ".monaco-editor.vs.x .token { color: rgba(255, 0, 0, 1); }"
  /\ _processThemeObject Example.host "vs x"
       (ThemeDocument.mk "t" None
          [Example.keyword;
           ThemeSetting.mk None (Some (ScopeString ""))
             (Some [("foreground", "#FF0000")])])
     = Return ".monaco-editor.vs.x .token.keyword { color: rgba(0, 0, 255, 1); }".
Proof.
  split; [discriminate |]. repeat split; reflexivity.
Qed.

Lemma forEachFrom_app {A St : Type} (f : St -> nat -> A -> St) (before after : list A) :
  forall (index : nat) (st : St),
    forEachFrom f index (before ++ after)%list st
    = forEachFrom f (List.length before + index) after (forEachFrom f index before st).
Proof.
  induction before as [| x before IH]; intros index st; simpl.
  - reflexivity.
  - rewrite IH. now rewrite Nat.add_succ_r.
Qed.

(** The rule of a token is the rule of the token trimmed. *)
Lemma tokenRule_trim (themeSelector statements : string) (tokens tokens' : list string) :
  map Js.trim tokens = map Js.trim tokens' ->
  map (tokenRule themeSelector statements) tokens
  = map (tokenRule themeSelector statements) tokens'.
Proof.
  intros Htrim.
  pose (ruleOfTrimmed := fun trimmed =>
          ".monaco-editor." ++ themeSelector ++ " .token."
          ++ Js.replaceSpaces trimmed ++ " { " ++ statements ++ " }").
  transitivity (map ruleOfTrimmed (map Js.trim tokens)).
  - symmetry. exact (map_map Js.trim ruleOfTrimmed tokens).
  - rewrite Htrim. exact (map_map Js.trim ruleOfTrimmed tokens').
Qed.

(** A non-empty scope string steps as an array of its pieces between
    commas, trimmed or not. *)
Lemma themeSettingStep_string_as_array (themeSelector : string) (st : CompilerState)
    (index : nat) (name : option string) (text : string) (tokens : list string)
    (settings : option ThemeSettingStyle) :
  Js.truthy text = true ->
  map Js.trim tokens = map Js.trim (Js.split "," text) ->
  themeSettingStep themeSelector st index
    (ThemeSetting.mk name (Some (ScopeString text)) settings)
  = themeSettingStep themeSelector st index
      (ThemeSetting.mk name (Some (ScopeArray tokens)) settings).
Proof.
  intros Htext Htokens. destruct st as [editorSettings cssRules].
  rewrite !themeSettingStep_scoped by (right; cbn; auto).
  unfold entryRules. cbn. rewrite Htext.
  destruct settings as [settings |]; [| reflexivity].
  now rewrite (tokenRule_trim _ _ _ _ Htokens).
Qed.

(** The walk through an entry that is compiled as a scoped rule: the
    entries before it are walked as they are walked alone, and the entry
    and the entries behind it add their rules. *)
Lemma walkThemeSettings_scoped (themeSelector : string)
    (before after : list ThemeSetting.t) (s : ThemeSetting.t) :
  scopeTruthy (ThemeSetting.scope s) = true ->
  walkThemeSettings themeSelector (before ++ s :: after)%list
  = (fst (walkThemeSettings themeSelector before),
     (snd (walkThemeSettings themeSelector before)
      ++ entryRules themeSelector s
      ++ flat_map (entryRules themeSelector) after)%list).
Proof.
  intros Hscope. unfold walkThemeSettings, forEach. rewrite forEachFrom_app.
  destruct (forEachFrom (themeSettingStep themeSelector) 0 before
              (Some noEditorSettings, [])) as [editorSettings rulesBefore].
  cbn [forEachFrom fst snd].
  rewrite themeSettingStep_scoped by (now right).
  rewrite forEachFrom_later. now rewrite <- app_assoc.
Qed.

(** C2, as the code has it.  In a document, an entry whose scope is a
    non-empty string compiles as the entry whose scope is the array of the
    pieces of that string between its commas, be the pieces of the array
    trimmed or not: the two style sheets are equal.  The style sheet of a
    document with an entry that has settings and a non-empty scope string
    or a scope array is made of the rules of the entries before it, then
    one rule per token of the entry, in which the token is trimmed and each
    of its spaces is replaced by a dot, then the rules of the entries
    behind it, and the rules of the whole editor.  So the single token
    ["string quoted"], given as a string or in an array, adds the one rule
    of the compound class [string.quoted], which is all of the style sheet
    when the entry is the only one. *)
Theorem scope_string_compiles_as_array :
  (forall host themeId name include before after entryName text tokens settings,
      Js.truthy text = true ->
      map Js.trim tokens = map Js.trim (Js.split "," text) ->
      _processThemeObject host themeId
        (ThemeDocument.mk name include
           (before ++ ThemeSetting.mk entryName (Some (ScopeString text)) settings
                   :: after)%list)
      = _processThemeObject host themeId
          (ThemeDocument.mk name include
             (before ++ ThemeSetting.mk entryName (Some (ScopeArray tokens)) settings
                     :: after)%list))
  /\ (forall host themeId name include before after entryName scope settings,
         scopeTruthy (Some scope) = true ->
         let themeSelector :=
           getBaseThemeId host themeId ++ "." ++ getSyntaxThemeId host themeId in
         let rules :=
           map (fun token =>
                  (".monaco-editor." ++ themeSelector ++ " .token."
                   ++ Js.replaceSpaces (Js.trim token)
                   ++ " { " ++ _settingsToStatements settings ++ " }")%string)
             (match scope with
              | ScopeString text => Js.split "," text
              | ScopeArray tokens => tokens
              end) in
         _processThemeObject host themeId
           (ThemeDocument.mk name include
              (before ++ ThemeSetting.mk entryName (Some scope) (Some settings)
                      :: after)%list)
         = match walkThemeSettings themeSelector before with
           | (Some editorSettings, rulesBefore) =>
               Return (Js.join newline
                         (editorRules themeSelector editorSettings
                            (rulesBefore ++ rules
                             ++ flat_map (entryRules themeSelector) after)%list))
           | (None, _) => ThrowTypeError
           end)
  /\ (forall host themeId name include entryName scope settings,
         scope = ScopeString "string quoted" \/ scope = ScopeArray ["string quoted"] ->
         let themeSelector :=
           getBaseThemeId host themeId ++ "." ++ getSyntaxThemeId host themeId in
         _processThemeObject host themeId
           (ThemeDocument.mk name include
              [ThemeSetting.mk entryName (Some scope) (Some settings)])
         = Return (".monaco-editor." ++ themeSelector ++ " .token.string.quoted"
                   ++ " { " ++ _settingsToStatements settings ++ " }"))
  /\ (forall themeSelector editorSettings cssRules index entryName tokens settings,
         themeSettingStep themeSelector (editorSettings, cssRules) index
           (ThemeSetting.mk entryName (Some (ScopeArray tokens)) (Some settings))
         = (editorSettings,
            (cssRules
             ++ map (fun token =>
                       (".monaco-editor." ++ themeSelector ++ " .token."
                        ++ Js.replaceSpaces (Js.trim token)
                        ++ " { " ++ _settingsToStatements settings ++ " }")%string)
                  tokens)%list))
  /\ (forall themeSelector editorSettings cssRules index entryName settings,
         themeSettingStep themeSelector (editorSettings, cssRules) index
           (ThemeSetting.mk entryName (Some (ScopeString "string quoted")) (Some settings))
         = (editorSettings,
            (cssRules
             ++ [(".monaco-editor." ++ themeSelector ++ " .token.string.quoted"
                  ++ " { " ++ _settingsToStatements settings ++ " }")%string])%list)).
Proof.
  assert (Hsheet : forall host themeId name include before after entryName scope settings,
             scopeTruthy (Some scope) = true ->
             let themeSelector :=
               getBaseThemeId host themeId ++ "." ++ getSyntaxThemeId host themeId in
             let rules :=
               map (fun token =>
                      (".monaco-editor." ++ themeSelector ++ " .token."
                       ++ Js.replaceSpaces (Js.trim token)
                       ++ " { " ++ _settingsToStatements settings ++ " }")%string)
                 (match scope with
                  | ScopeString text => Js.split "," text
                  | ScopeArray tokens => tokens
                  end) in
             _processThemeObject host themeId
               (ThemeDocument.mk name include
                  (before ++ ThemeSetting.mk entryName (Some scope) (Some settings)
                          :: after)%list)
             = match walkThemeSettings themeSelector before with
               | (Some editorSettings, rulesBefore) =>
                   Return (Js.join newline
                             (editorRules themeSelector editorSettings
                                (rulesBefore ++ rules
                                 ++ flat_map (entryRules themeSelector) after)%list))
               | (None, _) => ThrowTypeError
               end).
  { intros host themeId name include before after entryName scope settings
      Hscope themeSelector rules.
    unfold _processThemeObject. cbn [ThemeDocument.settings]. fold themeSelector.
    rewrite walkThemeSettings_scoped by exact Hscope.
    destruct (walkThemeSettings themeSelector before) as [editorSettings rulesBefore].
    cbn [fst snd].
    assert (Hrules : entryRules themeSelector
                       (ThemeSetting.mk entryName (Some scope) (Some settings))
                     = rules).
    { unfold entryRules. cbn [ThemeSetting.scope ThemeSetting.settings].
      rewrite Hscope. reflexivity. }
    rewrite Hrules. destruct editorSettings; reflexivity. }
  split; [| split; [exact Hsheet | split; [| split]]].
  - intros host themeId name include before after entryName text tokens settings
      Htext Htokens.
    unfold _processThemeObject, walkThemeSettings, forEach.
    cbn [ThemeDocument.settings].
    rewrite !forEachFrom_app. cbn [forEachFrom].
    now rewrite (themeSettingStep_string_as_array _ _ _ _ text tokens).
  - intros host themeId name include entryName scope settings Hscope themeSelector.
    assert (Htruthy : scopeTruthy (Some scope) = true)
      by (destruct Hscope as [-> | ->]; reflexivity).
    pose proof (Hsheet host themeId name include [] [] entryName scope settings
                  Htruthy) as Hone.
    cbn [app] in Hone. rewrite Hone.
    destruct Hscope as [-> | ->]; reflexivity.
  - intros themeSelector editorSettings cssRules index entryName tokens settings.
    now rewrite themeSettingStep_scoped by (now right).
  - intros themeSelector editorSettings cssRules index entryName settings.
    now rewrite themeSettingStep_scoped by (now right).
Qed.

(** The theorem at a document whose second entry has the scope
    ["string, string.quoted"], against the array of the two tokens. *)
Lemma scope_string_compiles_as_array_witness :
  _processThemeObject Example.host "vs x"
    (ThemeDocument.mk "t" None
       [Example.keyword;
        ThemeSetting.mk None (Some (ScopeString "string, string.quoted"))
          (Some [("foreground", "#FF0000")])])
  = _processThemeObject Example.host "vs x"
      (ThemeDocument.mk "t" None
         [Example.keyword;
          ThemeSetting.mk None (Some (ScopeArray ["string"; "string.quoted"]))
            (Some [("foreground", "#FF0000")])]).
Proof.
  exact (proj1 scope_string_compiles_as_array Example.host "vs x" "t" None
           [Example.keyword] [] None "string, string.quoted"
           ["string"; "string.quoted"]
           (Some [("foreground", "#FF0000")]) eq_refl eq_refl).
Defined.

(** C2, as stated, fails for the scope that is the empty string.  The
    pieces of the empty string between its commas are the one empty piece;
    the entry with the scope array of that piece adds the rule of the empty
    class, and the entry with the empty scope string adds no rule. *)
Lemma empty_scope_string_is_not_its_array :
  Js.split "," "" = [""]
  /\ _processThemeObject Example.host "vs x"
       (ThemeDocument.mk "t" None
          [Example.keyword;
           ThemeSetting.mk None (Some (ScopeString ""))
             (Some [("foreground", "#FF0000")])])
     = Return ".monaco-editor.vs.x .token.keyword { color: rgba(0, 0, 255, 1); }"
  /\ _processThemeObject Example.host "vs x"
       (ThemeDocument.mk "t" None
          [Example.keyword;
           ThemeSetting.mk None (Some (ScopeArray [""]))
             (Some [("foreground", "#FF0000")])])
     = Return (".monaco-editor.vs.x .token.keyword { color: rgba(0, 0, 255, 1); }"
               ++ newline
               ++ ".monaco-editor.vs.x .token. { color: rgba(255, 0, 0, 1); }")
  /\ _processThemeObject Example.host "vs x"
       (ThemeDocument.mk "t" None
          [Example.keyword;
           ThemeSetting.mk None (Some (ScopeString ""))
             (Some [("foreground", "#FF0000")])])
     <> _processThemeObject Example.host "vs x"
          (ThemeDocument.mk "t" None
             [Example.keyword;
              ThemeSetting.mk None (Some (ScopeArray [""]))
                (Some [("foreground", "#FF0000")])]).
Proof.
  repeat (split; [reflexivity |]).
  intros H. vm_compute in H. discriminate H.
Qed.

(** ** Loading a theme document *)

(** C1, as the code has it.  Let a theme document be read from a path of
    extension [.json] and parsed without errors, let its [include] be a
    non-empty string, and let the load of the path obtained by joining the
    directory of the including path with [include] resolve to a document.
    Then the load resolves to the including document with the settings of
    the included document put in front of its own, and the result compiles
    as any document with that sequence of settings: with included settings
    [[s0]] and own settings [[s1]], as a document with settings
    [[s0; s1]].  A document read from a path of any other extension is
    parsed as a property list, and its [include] is not followed: whatever
    the parsed value includes, the load resolves to that value as it is,
    with its own settings, when the parser reports no error, and is
    rejected with the parser's errors otherwise, within any fuel. *)
Theorem include_puts_included_settings_first (host : Host) (fuel : nat)
    (themePath content : string) :
  readFile host themePath = Some content ->
  (forall included contentValue includedValue,
      Paths_extname host themePath = ".json" ->
      Json_parse_theme host content = (contentValue, []) ->
      ThemeDocument.include contentValue = Some included ->
      Js.truthy included = true ->
      _loadThemeDocument host fuel
        (Paths_join host (Paths_dirname host themePath) included)
      = Some (Resolved includedValue) ->
      let loaded :=
        ThemeDocument.mk (ThemeDocument.name contentValue)
          (ThemeDocument.include contentValue)
          (ThemeDocument.settings includedValue
           ++ ThemeDocument.settings contentValue)%list in
      _loadThemeDocument host (S fuel) themePath = Some (Resolved loaded)
      /\ (forall themeId name include,
             _processThemeObject host themeId loaded
             = _processThemeObject host themeId
                 (ThemeDocument.mk name include
                    (ThemeDocument.settings includedValue
                     ++ ThemeDocument.settings contentValue)%list))
      /\ (forall s0 s1 themeId name include,
             ThemeDocument.settings includedValue = [s0] ->
             ThemeDocument.settings contentValue = [s1] ->
             _processThemeObject host themeId loaded
             = _processThemeObject host themeId
                 (ThemeDocument.mk name include [s0; s1])))
  /\ (forall value errors,
         Paths_extname host themePath <> ".json" ->
         plist_parse host content = (value, errors) ->
         _loadThemeDocument host (S fuel) themePath
         = Some (match errors with
                 | [] => Resolved value
                 | _ :: _ => Rejected (PlistProblems (Js.join ", " errors))
                 end)).
Proof.
  intros Hread. split.
  - intros included contentValue includedValue
      Hext Hparse Hinclude Htruthy Hincluded loaded.
    split; [| split].
    + subst loaded. cbn [_loadThemeDocument].
      rewrite Hread, Hext, Hparse.
      cbn [String.eqb Ascii.eqb Bool.eqb List.length Nat.ltb Nat.leb].
      rewrite Hinclude. cbn [Js.truthy_opt]. rewrite Htruthy, Hincluded.
      reflexivity.
    + reflexivity.
    + intros s0 s1 themeId name include Hs0 Hs1. subst loaded.
      unfold _processThemeObject. cbn [ThemeDocument.settings].
      now rewrite Hs0, Hs1.
  - intros value errors Hext Hparse. cbn [_loadThemeDocument].
    apply String.eqb_neq in Hext. rewrite Hread, Hext, Hparse.
    now destruct errors.
Qed.

(** The theorem at the document [derived.json], which includes
    [base.json], and at the same document read from [derived.tmTheme]. *)
Lemma include_puts_included_settings_first_witness :
  _loadThemeDocument Example.host 2 "/ext/themes/derived.json"
  = Some (Resolved
            (ThemeDocument.mk "derived" (Some "base.json")
               [Example.keyword; Example.comment]))
  /\ _loadThemeDocument Example.host 1 "/ext/themes/derived.tmTheme"
     = Some (Resolved Example.derived).
Proof.
  split.
  - exact (proj1 (proj1 (include_puts_included_settings_first Example.host 1
                           "/ext/themes/derived.json" "derived" eq_refl)
                    "base.json" Example.derived Example.base
                    eq_refl eq_refl eq_refl eq_refl eq_refl)).
  - apply (proj2 (include_puts_included_settings_first Example.host 0
                    "/ext/themes/derived.tmTheme" "derived" eq_refl)
             Example.derived []); [discriminate | reflexivity].
Defined.

(** C1, as stated, fails: a document read from a path of another
    extension is parsed as a property list, and its [include] is not
    followed.  The document below names [base.json], which loads from the
    path beside it, and yet it is returned with its own settings only. *)
Lemma include_of_a_property_list_is_not_followed :
  Paths_join Example.host (Paths_dirname Example.host "/ext/themes/derived.tmTheme")
    "base.json" = "/ext/themes/base.json"
  /\ _loadThemeDocument Example.host 2 "/ext/themes/base.json"
     = Some (Resolved Example.base)
  /\ ThemeDocument.settings Example.base = [Example.keyword]
  /\ _loadThemeDocument Example.host 2 "/ext/themes/derived.tmTheme"
     = Some (Resolved
               (ThemeDocument.mk "derived" (Some "base.json") [Example.comment]))
  /\ _loadThemeDocument Example.host 2 "/ext/themes/derived.tmTheme"
     <> Some (Resolved
                (ThemeDocument.mk "derived" (Some "base.json")
                   [Example.keyword; Example.comment])).
Proof.
  repeat (split; [reflexivity |]).
  intros H. vm_compute in H. discriminate H.
Qed.

(** ** File icon selectors *)

Lemma substring_all (s : string) : substring 0 (String.length s) s = s.
Proof.
  induction s as [| c s IH]; simpl.
  - reflexivity.
  - now rewrite IH.
Qed.

(** C6.  A [fileNames] key without an extension has the selector
    [<name>-name-file-icon.-ext-file-icon.file-icon] behind the qualifier:
    the name is the whole key in lower case, and the extension class is
    built from the empty string.  So the association
    [fileNames: {"Makefile": "defA"}] gives [defA] the one selector
    [.show-file-icons .makefile-name-file-icon.-ext-file-icon.file-icon].
    [Paths.extname] and [CSS.escape] are the host's: the key is without an
    extension when [Paths.extname] returns the empty string for it, and
    [CSS.escape] leaves the empty string and [makefile] as they are. *)
Theorem fileName_without_extension (host : Host) :
  escapeCSS host "" = "" ->
  (forall qualifier fileName,
      Paths_extname host fileName = "" ->
      fileNameSelector host qualifier fileName
      = qualifier ++ " ." ++ escapeCSS host (Js.toLowerCase fileName)
        ++ "-name-file-icon.-ext-file-icon.file-icon")
  /\ (Paths_extname host "Makefile" = "" ->
      escapeCSS host "makefile" = "makefile" ->
      collectSelectors host
        (Some (mkFileIconsAssociation None None None None
                 (Some [("Makefile", "defA")]) None))
        None []
      = Return
          [("defA",
            [".show-file-icons .makefile-name-file-icon.-ext-file-icon.file-icon"])]).
Proof.
  intros Hempty.
  assert (Hselector : forall qualifier fileName,
             Paths_extname host fileName = "" ->
             fileNameSelector host qualifier fileName
             = qualifier ++ " ." ++ escapeCSS host (Js.toLowerCase fileName)
               ++ "-name-file-icon.-ext-file-icon.file-icon").
  { intros qualifier fileName Hext. unfold fileNameSelector.
    rewrite Hext. cbn [Js.toLowerCase String.length].
    now rewrite Nat.sub_0_r, substring_all, Hempty. }
  split; [exact Hselector |].
  intros Hext Hescape.
  unfold collectSelectors, forIn, addSelector. cbn [fold_left fst snd andThen
    folder folderExpanded file fileExtensions fileNames languageIds].
  rewrite Hselector by exact Hext.
  cbn [Js.toLowerCase]. change (Js.lowerChar "M") with "m"%char.
  change (Js.lowerChar "a") with "a"%char. change (Js.lowerChar "k") with "k"%char.
  change (Js.lowerChar "e") with "e"%char. change (Js.lowerChar "f") with "f"%char.
  change (Js.lowerChar "i") with "i"%char. change (Js.lowerChar "l") with "l"%char.
  rewrite Hescape. reflexivity.
Qed.

(** The theorem on the example host. *)
Lemma fileName_without_extension_witness :
  collectSelectors Example.host
    (Some (mkFileIconsAssociation None None None None
             (Some [("Makefile", "defA")]) None))
    None []
  = Return
      [("defA",
        [".show-file-icons .makefile-name-file-icon.-ext-file-icon.file-icon"])].
Proof.
  exact (proj2 (fileName_without_extension Example.host eq_refl) eq_refl eq_refl).
Defined.

(** ** The selector map and the calls that fill it *)

Lemma among_In (s : string) (l : list string) : among s l = true <-> In s l.
Proof.
  unfold among. rewrite existsb_exists. split.
  - intros (x & Hx & Heq). apply String.eqb_eq in Heq. now subst x.
  - intros H. exists s. split; [exact H | apply String.eqb_refl].
Qed.

Lemma among_without_same (s : string) (l : list string) :
  among s (without s l) = false.
Proof.
  induction l as [| x l IH]; simpl.
  - reflexivity.
  - destruct (String.eqb x s) eqn:Hx; [exact IH |].
    simpl. rewrite String.eqb_sym, Hx. exact IH.
Qed.

Lemma among_without_other (s e : string) (l : list string) :
  String.eqb s e = false -> among s (without e l) = among s l.
Proof.
  intros Hse. induction l as [| x l IH]; simpl.
  - reflexivity.
  - destruct (String.eqb x e) eqn:Hx; simpl.
    + apply String.eqb_eq in Hx. subst x. now rewrite Hse.
    + now rewrite IH.
Qed.

Lemma without_app (e : string) (l l' : list string) :
  without e (l ++ l')%list = (without e l ++ without e l')%list.
Proof.
  induction l as [| x l IH]; simpl.
  - reflexivity.
  - destruct (String.eqb x e); simpl; now rewrite IH.
Qed.

Lemma NoDup_without (e : string) (l : list string) :
  NoDup l -> NoDup (without e l).
Proof.
  induction 1 as [| x l Hx Hl IH]; simpl.
  - constructor.
  - destruct (String.eqb x e) eqn:Hxe; [exact IH |].
    constructor; [| exact IH].
    intros Hin. apply Hx. apply among_In. apply among_In in Hin.
    now rewrite among_without_other in Hin.
Qed.

Lemma NoDup_calledIds (calls : list (string * option string)) :
  NoDup (calledIds calls).
Proof.
  induction calls as [| call calls IH]; simpl.
  - constructor.
  - destruct (calledId call) as [d |]; [| exact IH].
    constructor.
    + intros Hin. apply among_In in Hin. now rewrite among_without_same in Hin.
    + now apply NoDup_without.
Qed.

Lemma calledId_truthy (call : string * option string) (d : string) :
  calledId call = Some d -> snd call = Some d /\ Js.truthy d = true.
Proof.
  unfold calledId. destruct (snd call) as [defId |]; [| discriminate].
  destruct (Js.truthy defId) eqn:Htruthy; [| discriminate].
  intros H. injection H as <-. now split.
Qed.

Lemma calledIds_truthy (calls : list (string * option string)) (d : string) :
  In d (calledIds calls) -> Js.truthy d = true.
Proof.
  induction calls as [| call calls IH]; simpl; [contradiction |].
  destruct (calledId call) as [e |] eqn:Hcall; [| exact IH].
  intros [<- | Hin].
  - now apply calledId_truthy in Hcall.
  - apply IH. apply among_In. apply among_In in Hin.
    destruct (String.eqb d e) eqn:Hde.
    + apply String.eqb_eq in Hde. subst e. now rewrite among_without_same in Hin.
    + now rewrite among_without_other in Hin.
Qed.

(** A definition id has selectors exactly when a call names it. *)
Lemma selectorsOf_not_called (d : string) (calls : list (string * option string)) :
  among d (calledIds calls) = false -> selectorsOf d calls = [].
Proof.
  induction calls as [| call calls IH]; simpl; [reflexivity |].
  destruct (calledId call) as [e |]; [| exact IH].
  simpl. destruct (String.eqb d e) eqn:Hde; [discriminate |].
  rewrite String.eqb_sym, Hde. simpl.
  rewrite among_without_other by exact Hde. exact IH.
Qed.

Lemma selectorsOf_called (d : string) (calls : list (string * option string)) :
  among d (calledIds calls) = true -> selectorsOf d calls <> [].
Proof.
  induction calls as [| call calls IH]; simpl; [discriminate |].
  destruct (calledId call) as [e |]; [| exact IH].
  simpl. destruct (String.eqb d e) eqn:Hde.
  - rewrite String.eqb_sym, Hde. discriminate.
  - rewrite String.eqb_sym, Hde. simpl.
    rewrite among_without_other by exact Hde. exact IH.
Qed.

Lemma selectorsOf_snoc (d : string) (calls : list (string * option string))
    (call : string * option string) :
  selectorsOf d (calls ++ [call])%list
  = (selectorsOf d calls
     ++ match calledId call with
        | Some e => if String.eqb e d then [fst call] else []
        | None => []
        end)%list.
Proof.
  induction calls as [| first calls IH]; simpl.
  - destruct (calledId call) as [e |]; [destruct (String.eqb e d) |]; reflexivity.
  - destruct (calledId first) as [e |]; [destruct (String.eqb e d) |];
      simpl; now rewrite IH.
Qed.

Lemma calledIds_snoc (calls : list (string * option string))
    (call : string * option string) :
  calledIds (calls ++ [call])%list
  = match calledId call with
    | Some d =>
        if among d (calledIds calls) then calledIds calls
        else (calledIds calls ++ [d])%list
    | None => calledIds calls
    end.
Proof.
  induction calls as [| first calls IH]; simpl.
  - destruct (calledId call); reflexivity.
  - destruct (calledId first) as [e |]; rewrite IH; [| reflexivity].
    destruct (calledId call) as [d |]; [| reflexivity].
    simpl. destruct (String.eqb d e) eqn:Hde; simpl.
    + apply String.eqb_eq in Hde. subst e.
      destruct (among d (calledIds calls)); [reflexivity |].
      rewrite without_app. simpl. rewrite String.eqb_refl. now rewrite app_nil_r.
    + rewrite among_without_other by exact Hde.
      destruct (among d (calledIds calls)); [reflexivity |].
      rewrite without_app. simpl. now rewrite Hde.
Qed.

(** A definition id that a call names is among the called ids. *)
Lemma calledId_In (calls : list (string * option string))
    (call : string * option string) (d : string) :
  In call calls -> calledId call = Some d -> In d (calledIds calls).
Proof.
  induction calls as [| first calls IH]; simpl; [contradiction |].
  intros [-> | Hin] Hcall.
  - rewrite Hcall. now left.
  - specialize (IH Hin Hcall).
    destruct (calledId first) as [e |]; [| exact IH].
    destruct (String.eqb d e) eqn:Hde.
    + apply String.eqb_eq in Hde. subst e. now left.
    + right. apply among_In. rewrite among_without_other by exact Hde.
      now apply among_In.
Qed.

(** The own properties of a map that holds the ids of a list. *)
Lemma member_table {V : Type} (h : string -> V) (d : string) (ids : list string) :
  member d (map (fun x => (x, h x)) ids) = if among d ids then Some (h d) else None.
Proof.
  induction ids as [| x ids IH]; simpl; [reflexivity |].
  rewrite (String.eqb_sym d x).
  destruct (String.eqb x d) eqn:Hxd; simpl.
  - apply String.eqb_eq in Hxd. now subst x.
  - exact IH.
Qed.

Lemma assign_absent {V : Type} (h : string -> V) (d : string) (v : V)
    (ids : list string) :
  among d ids = false ->
  assign d v (map (fun x => (x, h x)) ids)
  = (map (fun x => (x, h x)) ids ++ [(d, v)])%list.
Proof.
  induction ids as [| x ids IH]; simpl; [reflexivity |].
  destruct (String.eqb d x) eqn:Hdx; [discriminate |].
  simpl. intros Hrest. rewrite String.eqb_sym, Hdx. now rewrite IH.
Qed.

Lemma assign_present {V : Type} (h : string -> V) (d : string) (v : V)
    (ids : list string) :
  NoDup ids ->
  among d ids = true ->
  assign d v (map (fun x => (x, h x)) ids)
  = map (fun x => (x, if String.eqb x d then v else h x)) ids.
Proof.
  induction 1 as [| x ids Hx Hids IH]; simpl; [discriminate |].
  destruct (String.eqb x d) eqn:Hxd.
  - intros _. apply String.eqb_eq in Hxd. subst x. f_equal.
    apply map_ext_in. intros y Hy.
    destruct (String.eqb y d) eqn:Hyd; [| reflexivity].
    apply String.eqb_eq in Hyd. now subst y.
  - rewrite String.eqb_sym, Hxd. simpl. intros Hrest. now rewrite IH.
Qed.

(** One call takes the map of the calls before it to the map of the calls
    up to it, when the id it names is no name of a member of
    [Object.prototype]. *)
Lemma addSelector_table (calls : list (string * option string))
    (call : string * option string) :
  (forall d, calledId call = Some d -> inherited d = false) ->
  addSelector (table calls) (fst call) (snd call)
  = Return (table (calls ++ [call])%list).
Proof.
  intros Hown. unfold table. rewrite calledIds_snoc.
  destruct (calledId call) as [d |] eqn:Hcall.
  - destruct (calledId_truthy _ _ Hcall) as [Hsnd Htruthy].
    unfold addSelector, pushSelector. rewrite Hsnd, Htruthy, member_table.
    destruct (among d (calledIds calls)) eqn:Hamong.
    + rewrite assign_present by (auto using NoDup_calledIds). apply f_equal.
      apply map_ext. intros x. rewrite selectorsOf_snoc, Hcall.
      rewrite (String.eqb_sym d x).
      destruct (String.eqb x d) eqn:Hxd; [| now rewrite app_nil_r].
      apply String.eqb_eq in Hxd. now subst x.
    + rewrite (Hown d eq_refl), assign_absent by exact Hamong. apply f_equal.
      rewrite map_app. cbn [map]. f_equal.
      * apply map_ext_in. intros x Hx. rewrite selectorsOf_snoc, Hcall.
        destruct (String.eqb d x) eqn:Hdx; [| now rewrite app_nil_r].
        apply String.eqb_eq in Hdx. subst x.
        apply among_In in Hx. congruence.
      * rewrite selectorsOf_snoc, Hcall, String.eqb_refl.
        now rewrite selectorsOf_not_called.
  - assert (Hsame : addSelector
                      (map (fun defId => (defId, selectorsOf defId calls)) (calledIds calls))
                      (fst call) (snd call)
                    = Return
                        (map (fun defId => (defId, selectorsOf defId calls))
                           (calledIds calls))).
    { unfold addSelector. unfold calledId in Hcall.
      destruct (snd call) as [defId |]; [| reflexivity].
      destruct (Js.truthy defId); [discriminate | reflexivity]. }
    rewrite Hsame. apply f_equal. apply map_ext. intros x.
    rewrite selectorsOf_snoc, Hcall. now rewrite app_nil_r.
Qed.

(** Once a call has thrown, the calls behind it are not made. *)
Lemma accumulate_from (calls : list (string * option string))
    (start : Completion SelectorMap) :
  fold_left (fun m call => andThen m (fun m => addSelector m (fst call) (snd call)))
    calls start
  = andThen start (accumulate calls).
Proof.
  destruct start as [m |]; [reflexivity |].
  induction calls as [| call calls IH]; [reflexivity | exact IH].
Qed.

Lemma accumulate_cons (call : string * option string)
    (calls : list (string * option string)) (m : SelectorMap) :
  accumulate (call :: calls) m
  = andThen (addSelector m (fst call) (snd call)) (accumulate calls).
Proof.
  unfold accumulate at 1. cbn [fold_left andThen]. apply accumulate_from.
Qed.

Lemma accumulate_table (calls before : list (string * option string)) :
  (forall call d, In call calls -> calledId call = Some d -> inherited d = false) ->
  accumulate calls (table before) = Return (table (before ++ calls)%list).
Proof.
  revert before. induction calls as [| call calls IH]; intros before Hown.
  - now rewrite app_nil_r.
  - rewrite accumulate_cons, addSelector_table.
    + cbn [andThen]. rewrite IH.
      * now rewrite <- app_assoc.
      * intros later d Hin. apply Hown. now right.
    + intros d. apply Hown. now left.
Qed.

Lemma accumulate_app (calls calls' : list (string * option string)) (m : SelectorMap) :
  accumulate (calls ++ calls')%list m = andThen (accumulate calls m) (accumulate calls').
Proof.
  unfold accumulate at 1. rewrite fold_left_app. apply accumulate_from.
Qed.

Lemma forIn_calls (dict : option Dict) (selectorOf : string -> string) (m : SelectorMap) :
  forIn dict selectorOf m = accumulate (dictionaryCalls dict selectorOf) m.
Proof.
  unfold forIn, dictionaryCalls, accumulate.
  destruct dict as [entries |]; [| reflexivity].
  generalize (Return m). induction entries as [| entry entries IH]; intros start; simpl.
  - reflexivity.
  - now rewrite IH.
Qed.

(** [collectSelectors] makes the calls of [associationCalls]. *)
Lemma collectSelectors_calls (host : Host) (associations : option FileIconsAssociation)
    (baseThemeClassName : option string) (m : SelectorMap) :
  collectSelectors host associations baseThemeClassName m
  = accumulate (associationCalls host associations baseThemeClassName) m.
Proof.
  unfold collectSelectors, associationCalls.
  destruct associations as [associations |]; [| reflexivity].
  cbv zeta.
  set (qualifier := match baseThemeClassName with
                    | Some className =>
                        if Js.truthy className then className ++ " .show-file-icons"
                        else ".show-file-icons"
                    | None => ".show-file-icons"
                    end).
  assert (Hqualifier :
            match baseThemeClassName with
            | Some className =>
                if Js.truthy className then className ++ " " ++ ".show-file-icons"
                else ".show-file-icons"
            | None => ".show-file-icons"
            end = qualifier) by reflexivity.
  rewrite Hqualifier. clear Hqualifier.
  cbn [app]. rewrite accumulate_cons. cbn [fst snd].
  destruct (addSelector m (qualifier ++ " .folder-icon") (folder associations))
    as [m1 |]; cbn [andThen fst snd]; [| reflexivity].
  rewrite accumulate_cons. cbn [fst snd].
  destruct (addSelector m1 (qualifier ++ " .expanded .folder-icon")
              (folderExpanded associations))
    as [m2 |]; cbn [andThen]; [| reflexivity].
  rewrite accumulate_cons. cbn [fst snd].
  destruct (addSelector m2 (qualifier ++ " .file-icon") (file associations))
    as [m3 |]; cbn [andThen]; [| reflexivity].
  rewrite accumulate_app, forIn_calls.
  destruct (accumulate _ m3) as [m4 |]; cbn [andThen]; [| reflexivity].
  rewrite accumulate_app, !forIn_calls.
  destruct (accumulate _ m4) as [m5 |]; cbn [andThen];
    [apply forIn_calls | reflexivity].
Qed.

(** The three passes make the calls of [documentCalls]. *)
Lemma collectAll_calls (host : Host) (fileIconsDocument : FileIconsDocument) :
  collectAll host fileIconsDocument
  = accumulate (documentCalls host fileIconsDocument) [].
Proof.
  unfold collectAll, documentCalls.
  rewrite accumulate_app, collectSelectors_calls.
  destruct (accumulate _ []) as [m1 |]; cbn [andThen]; [| reflexivity].
  rewrite accumulate_app, collectSelectors_calls.
  destruct (accumulate _ m1) as [m2 |]; cbn [andThen]; [| reflexivity].
  apply collectSelectors_calls.
Qed.

Lemma collectAll_table (host : Host) (fileIconsDocument : FileIconsDocument) :
  (forall defId,
      In defId (calledIds (documentCalls host fileIconsDocument)) ->
      inherited defId = false) ->
  collectAll host fileIconsDocument
  = Return (table (documentCalls host fileIconsDocument)).
Proof.
  intros Hown. rewrite collectAll_calls.
  apply (accumulate_table _ []).
  intros call d Hin Hcall. apply Hown. now apply calledId_In with (call := call).
Qed.

Lemma iconRule_adds (host : Host) (fileIconsPath : string)
    (definitions : list (string * FileIconDefinition))
    (cssRules : list string) (entry : string * list string) :
  iconRule host fileIconsPath definitions cssRules entry
  = (cssRules ++ definitionRules host fileIconsPath definitions entry)%list.
Proof.
  destruct entry as [defId selectors].
  unfold iconRule, definitionRules, push. cbn [fst snd].
  destruct (member defId definitions) as [definition |];
    [| now rewrite app_nil_r].
  destruct (iconPath definition) as [path |]; cbn [Js.truthy_opt];
    [| now rewrite app_nil_r].
  destruct (Js.truthy path); [reflexivity | now rewrite app_nil_r].
Qed.

Lemma fold_iconRule (host : Host) (fileIconsPath : string)
    (definitions : list (string * FileIconDefinition))
    (m : SelectorMap) (cssRules : list string) :
  fold_left (iconRule host fileIconsPath definitions) m cssRules
  = (cssRules ++ flat_map (definitionRules host fileIconsPath definitions) m)%list.
Proof.
  revert cssRules. induction m as [| entry m IH]; intros cssRules;
    cbn [fold_left flat_map].
  - now rewrite app_nil_r.
  - rewrite IH, iconRule_adds. now rewrite <- app_assoc.
Qed.

Lemma flat_map_table {B : Type} (f : string * list string -> list B)
    (h : string -> list string) (ids : list string) :
  flat_map f (map (fun defId => (defId, h defId)) ids)
  = flat_map (fun defId => f (defId, h defId)) ids.
Proof.
  induction ids as [| defId ids IH]; simpl.
  - reflexivity.
  - now rewrite IH.
Qed.

(** ** The order of [for .. in] *)

Lemma insertIndexed_Permutation {V : Type} (index : Z) (entry : string * V)
    (indexed : list (Z * (string * V))) :
  Permutation (map snd (insertIndexed index entry indexed)) (entry :: map snd indexed).
Proof.
  induction indexed as [| [i e] indexed IH]; cbn [insertIndexed map snd].
  - apply Permutation_refl.
  - destruct (index <? i)%Z; cbn [map snd].
    + apply Permutation_refl.
    + eapply perm_trans; [apply perm_skip, IH | apply perm_swap].
Qed.

(** [for .. in] visits every own property once. *)
Lemma forInOrder_Permutation {V : Type} (o : list (string * V)) :
  Permutation (forInOrder o) o.
Proof.
  unfold forInOrder. induction o as [| entry o IH]; cbn [forInSplit].
  - apply Permutation_refl.
  - destruct (forInSplit o) as [indexed named].
    destruct (arrayIndex (fst entry)) as [index |].
    + eapply perm_trans.
      * apply Permutation_app_tail, insertIndexed_Permutation.
      * cbn [app]. now apply perm_skip.
    + eapply perm_trans; [apply Permutation_sym, Permutation_middle |].
      now apply perm_skip.
Qed.

(** Properties of which none is named by an array index are visited in
    the order of their creation. *)
Lemma forInOrder_named {V : Type} (o : list (string * V)) :
  (forall entry, In entry o -> arrayIndex (fst entry) = None) ->
  forInOrder o = o.
Proof.
  intros Hnamed.
  assert (Hsplit : forInSplit o = ([], o)).
  { induction o as [| entry o IH]; cbn [forInSplit]; [reflexivity |].
    rewrite IH by (intros e He; apply Hnamed; now right).
    now rewrite (Hnamed entry) by now left. }
  unfold forInOrder. now rewrite Hsplit.
Qed.

(** C7, as the code has it.  Let the document have icon definitions, let
    [calls] be the calls of [addSelector] that the three passes make, and
    let no call name a definition id that is the name of a member of
    [Object.prototype].  The selector map then holds each definition id
    that a call names once, in the order of the first calls, with all the
    selectors of its calls; an id is in the map exactly when it has a
    selector.  The style sheet is made of the rules of these ids, each id
    visited once, in the order of [for .. in], which is the order of the
    map when no id is an array index: an id without an entry in
    [iconDefinitions], or whose entry has no [iconPath] or an empty one,
    has no rule; any other id has the one rule whose selector list is its
    selectors joined by [", "] and whose declaration is the background
    image at the [iconPath] joined to the directory of the document's
    path.  An id that no call names is not in the map and so has no rule
    either. *)
Theorem icon_rules_by_definition (host : Host) (id fileIconsPath : string)
    (fileIconsDocument : FileIconsDocument)
    (definitions : list (string * FileIconDefinition)) :
  iconDefinitions fileIconsDocument = Some definitions ->
  let calls := documentCalls host fileIconsDocument in
  let selectorByDefinitionId :=
    map (fun defId => (defId, selectorsOf defId calls)) (calledIds calls) in
  (forall defId, In defId (calledIds calls) -> inherited defId = false) ->
  collectAll host fileIconsDocument = Return selectorByDefinitionId
  /\ NoDup (calledIds calls)
  /\ (forall defId, In defId (calledIds calls) <-> selectorsOf defId calls <> [])
  /\ _processFileIconsObject host id fileIconsPath fileIconsDocument
     = Return (Js.join newline
                 (flat_map (definitionRules host fileIconsPath definitions)
                    (forInOrder selectorByDefinitionId)))
  /\ Permutation (forInOrder selectorByDefinitionId) selectorByDefinitionId
  /\ ((forall defId, In defId (calledIds calls) -> arrayIndex defId = None) ->
      forInOrder selectorByDefinitionId = selectorByDefinitionId)
  /\ (forall defId selectors,
         member defId definitions = None ->
         definitionRules host fileIconsPath definitions (defId, selectors) = [])
  /\ (forall defId selectors definition,
         member defId definitions = Some definition ->
         Js.truthy_opt (iconPath definition) = false ->
         definitionRules host fileIconsPath definitions (defId, selectors) = [])
  /\ (forall defId selectors definition path,
         member defId definitions = Some definition ->
         iconPath definition = Some path ->
         Js.truthy path = true ->
         definitionRules host fileIconsPath definitions (defId, selectors)
         = [Js.join ", " selectors ++ " { background-image: url(" ++ Js.dquote
            ++ Paths_join host (Paths_dirname host fileIconsPath) path
            ++ Js.dquote ++ "); }"]).
Proof.
  intros Hdefinitions calls selectorByDefinitionId Hown.
  assert (Hmap : collectAll host fileIconsDocument = Return selectorByDefinitionId)
    by (now apply collectAll_table).
  split; [exact Hmap |].
  split; [apply NoDup_calledIds |].
  split.
  { intros defId. split.
    - intros Hin. apply selectorsOf_called. now apply among_In.
    - intros Hselectors. apply among_In.
      destruct (among defId (calledIds calls)) eqn:Hamong; [reflexivity |].
      now apply selectorsOf_not_called in Hamong. }
  split.
  { unfold _processFileIconsObject, fileIconRules.
    rewrite Hdefinitions, Hmap. cbn [andThen]. now rewrite fold_iconRule. }
  split; [apply forInOrder_Permutation |].
  split.
  { intros Hnamed. apply forInOrder_named. intros entry Hentry.
    apply in_map_iff in Hentry as (defId & <- & Hin). now apply Hnamed. }
  split; [| split].
  - intros defId selectors Hmember. unfold definitionRules. cbn [fst].
    now rewrite Hmember.
  - intros defId selectors definition Hmember Hpath. unfold definitionRules.
    cbn [fst]. now rewrite Hmember, Hpath.
  - intros defId selectors definition path Hmember Hpath Htruthy.
    unfold definitionRules. cbn [fst snd].
    rewrite Hmember, Hpath. cbn [Js.truthy_opt]. now rewrite Htruthy.
Qed.

(** The theorem at the example document: [doc] and [rust] have one rule
    each, with all their selectors; [dir] and [missing] have no entry in
    [iconDefinitions], [make] has an entry without [iconPath], and no call
    names [unused].  And at a document whose definition ids are [2], [10]
    and [1], added in this order: their rules come in the order [1], [2],
    [10]. *)
Lemma icon_rules_by_definition_witness :
  calledIds (documentCalls Example.host Example.icons)
  = ["dir"; "doc"; "rust"; "make"; "missing"]
  /\ _processFileIconsObject Example.host "plain" "/ext/icons/icons.json" Example.icons
     = Return
         (".show-file-icons .file-icon, .show-file-icons .txt-ext-file-icon.file-icon, "
          ++ ".vs .show-file-icons .file-icon { background-image: url("
          ++ Js.dquote ++ "/ext/icons/doc.svg" ++ Js.dquote ++ "); }" ++ newline
          ++ ".show-file-icons .rs-ext-file-icon.file-icon, "
          ++ ".show-file-icons .rust-lang-file-icon.file-icon { background-image: url("
          ++ Js.dquote ++ "/ext/icons/rust.svg" ++ Js.dquote ++ "); }")
  /\ calledIds (documentCalls Example.host Example.numbered) = ["2"; "10"; "1"]
  /\ _processFileIconsObject Example.host "plain" "/ext/icons/icons.json"
       Example.numbered
     = Return
         (".show-file-icons .file-icon { background-image: url("
          ++ Js.dquote ++ "/ext/icons/one.svg" ++ Js.dquote ++ "); }" ++ newline
          ++ ".show-file-icons .folder-icon { background-image: url("
          ++ Js.dquote ++ "/ext/icons/two.svg" ++ Js.dquote ++ "); }" ++ newline
          ++ ".show-file-icons .expanded .folder-icon { background-image: url("
          ++ Js.dquote ++ "/ext/icons/ten.svg" ++ Js.dquote ++ "); }").
Proof.
  split; [reflexivity |]. split; [| split; [reflexivity |]].
  - assert (Hown : forall defId,
               In defId (calledIds (documentCalls Example.host Example.icons)) ->
               inherited defId = false).
    { intros defId Hin. vm_compute in Hin.
      repeat (destruct Hin as [<- | Hin]; [reflexivity |]). contradiction. }
    destruct (icon_rules_by_definition Example.host "plain" "/ext/icons/icons.json"
                Example.icons _ eq_refl Hown) as (_ & _ & _ & Hsheet & _).
    rewrite Hsheet. reflexivity.
  - assert (Hown : forall defId,
               In defId (calledIds (documentCalls Example.host Example.numbered)) ->
               inherited defId = false).
    { intros defId Hin. vm_compute in Hin.
      repeat (destruct Hin as [<- | Hin]; [reflexivity |]). contradiction. }
    destruct (icon_rules_by_definition Example.host "plain" "/ext/icons/icons.json"
                Example.numbered _ eq_refl Hown) as (_ & _ & _ & Hsheet & _).
    rewrite Hsheet. reflexivity.
Defined.

(** C7, as stated, fails.  In the first document the id [doc] has a
    selector and an entry in [iconDefinitions] with an [iconPath], the
    empty string, and yet it has no rule: the style sheet is empty.  In the
    second document the id [constructor] has an entry with an [iconPath],
    and the compiler throws at the first selector of that id, for the
    lookup of the id in the selector map yields a member of
    [Object.prototype]. *)
Lemma present_iconPath_without_rule :
  selectorsOf "doc"
    (documentCalls Example.host
       (mkFileIconsDocument
          (mkFileIconsAssociation None (Some "doc") None None None None)
          (Some [("doc", mkFileIconDefinition (Some ""))]) None None))
  = [".show-file-icons .file-icon"]
  /\ _processFileIconsObject Example.host "plain" "/ext/icons/icons.json"
       (mkFileIconsDocument
          (mkFileIconsAssociation None (Some "doc") None None None None)
          (Some [("doc", mkFileIconDefinition (Some ""))]) None None)
     = Return ""
  /\ _processFileIconsObject Example.host "plain" "/ext/icons/icons.json"
       (mkFileIconsDocument
          (mkFileIconsAssociation None (Some "constructor") None None None None)
          (Some [("constructor", mkFileIconDefinition (Some "doc.svg"))]) None None)
     = ThrowTypeError.
Proof.
  repeat split; reflexivity.
Qed.

(** ** Finding and activating a theme *)

Lemma firstMatch_none (themeId : string) (themes : list IInternalThemeData.t) :
  ~ In themeId (map IInternalThemeData.id themes) ->
  firstMatch (hasId themeId) themes = None.
Proof.
  induction themes as [| theme themes IH]; simpl; [reflexivity |].
  intros Hnot. unfold hasId at 1.
  destruct (String.eqb (IInternalThemeData.id theme) themeId) eqn:Hid.
  - apply String.eqb_eq in Hid. exfalso. apply Hnot. now left.
  - rewrite IH; [reflexivity |]. intros Hin. apply Hnot. now right.
Qed.

Lemma firstMatch_some (themeId : string) (themes : list IInternalThemeData.t)
    (index : nat) (theme : IInternalThemeData.t) :
  firstMatch (hasId themeId) themes = Some (index, theme) ->
  IInternalThemeData.id theme = themeId /\ nth_error themes index = Some theme.
Proof.
  revert index. induction themes as [| first themes IH]; intros index; simpl;
    [discriminate |].
  destruct (hasId themeId first) eqn:Hfirst.
  - intros H. injection H as <- <-. split; [| reflexivity].
    now apply String.eqb_eq in Hfirst.
  - destruct (firstMatch (hasId themeId) themes) as [[i found] |]; [| discriminate].
    intros H. injection H as <- <-. now apply IH.
Qed.

Lemma validateThemeId_idempotent (theme : string) :
  validateThemeId (validateThemeId theme) = validateThemeId theme.
Proof.
  unfold validateThemeId.
  repeat match goal with
         | |- context [String.eqb theme ?s] =>
             let H := fresh "H" in
             destruct (String.eqb theme s) eqn:H;
             [apply String.eqb_eq in H; subst theme; reflexivity |]
         end.
  repeat match goal with
         | H : String.eqb theme _ = false |- _ => rewrite H; clear H
         end.
  reflexivity.
Qed.

Lemma validateThemeId_truthy (theme : string) :
  Js.truthy theme = true -> Js.truthy (validateThemeId theme) = true.
Proof.
  intros Htruthy. unfold validateThemeId.
  repeat match goal with
         | |- context [if String.eqb theme ?s then _ else _] =>
             destruct (String.eqb theme s); [reflexivity |]
         end.
  exact Htruthy.
Qed.

Lemma updateAt_ids (content : string) (index : nat) (themes : list IInternalThemeData.t) :
  map IInternalThemeData.id (updateAt (IInternalThemeData.cache content) index themes)
  = map IInternalThemeData.id themes.
Proof.
  revert index. induction themes as [| theme themes IH]; intros [| index]; simpl;
    try reflexivity.
  now rewrite IH.
Qed.

(** What [findThemeData] finds is a known theme of the requested or of
    the default identifier. *)
Lemma findThemeData_found (themeId defaultId : string) (st : State)
    (index : nat) (theme : IInternalThemeData.t) :
  findThemeData themeId (Some defaultId) st = Some (index, theme) ->
  (IInternalThemeData.id theme = themeId \/ IInternalThemeData.id theme = defaultId)
  /\ known (IInternalThemeData.id theme) st.
Proof.
  unfold findThemeData, known.
  destruct (firstMatch (hasId themeId) (knownThemes st)) as [found |] eqn:Hfirst.
  - intros H. injection H as ->. apply firstMatch_some in Hfirst as [Hid Hnth].
    split; [now left |]. apply in_map. eauto using nth_error_In.
  - destruct (Js.truthy defaultId); [| discriminate].
    intros H. apply firstMatch_some in H as [Hid Hnth].
    split; [now right |]. apply in_map. eauto using nth_error_In.
Qed.

Lemma findThemeData_unknown (themeId defaultId : string) (st : State) :
  ~ known themeId st -> ~ known defaultId st ->
  findThemeData themeId (Some defaultId) st = None.
Proof.
  intros Hid Hdefault. unfold findThemeData.
  rewrite (firstMatch_none _ _ Hid), (firstMatch_none _ _ Hdefault).
  now destruct (Js.truthy defaultId).
Qed.

(** [onApply] leaves the known themes alone and makes the applied theme
    the current one when a container is registered. *)
Lemma onApply_knownThemes (host : Host) (toAll : bool)
    (newTheme : IInternalThemeData.t) (st : State) :
  knownThemes (onApply host toAll newTheme st) = knownThemes st.
Proof.
  unfold onApply, sendTelemetry, broadcast.
  destruct (container st), toAll; cbn;
    repeat match goal with
           | |- context [if ?c then _ else _] => destruct c; cbn
           | |- context [match getExtensionDescription ?h ?e with _ => _ end] =>
               destruct (getExtensionDescription h e); cbn
           end; reflexivity.
Qed.

Lemma onApply_currentTheme (host : Host) (toAll : bool)
    (newTheme : IInternalThemeData.t) (st : State) :
  currentTheme (onApply host toAll newTheme st)
  = match container st with
    | Some _ => Some (IInternalThemeData.id newTheme)
    | None => currentTheme st
    end.
Proof.
  unfold onApply, sendTelemetry, broadcast.
  destruct (container st), toAll; cbn;
    repeat match goal with
           | |- context [if ?c then _ else _] => destruct c; cbn
           | |- context [match getExtensionDescription ?h ?e with _ => _ end] =>
               destruct (getExtensionDescription h e); cbn
           end; reflexivity.
Qed.

Lemma onApply_consistent (host : Host) (toAll : bool)
    (newTheme : IInternalThemeData.t) (st : State) :
  consistent st ->
  activatable (IInternalThemeData.id newTheme) st ->
  consistent (onApply host toAll newTheme st).
Proof.
  intros Hst Hnew current. rewrite onApply_currentTheme.
  unfold activatable, known. rewrite onApply_knownThemes.
  destruct (container st).
  - intros H. injection H as <-. exact Hnew.
  - apply Hst.
Qed.

(** An activation keeps the state consistent. *)
Lemma setColorTheme_consistent (host : Host) (fuel : nat) (themeId : string)
    (toAll : bool) (st st' : State) (outcome : Promise bool) :
  consistent st ->
  setColorTheme host fuel themeId toAll st = Some (outcome, st') ->
  consistent st'.
Proof.
  intros Hst. unfold setColorTheme.
  destruct (Js.truthy themeId) eqn:Htruthy; cbn [negb].
  2: { intros H. now injection H as <- <-. }
  destruct (match currentTheme st with
            | Some current => String.eqb themeId current
            | None => false
            end).
  { intros H. injection H as <- <-. now destruct toAll. }
  unfold applyThemeCSS.
  destruct (findThemeData (validateThemeId themeId) (Some DEFAULT_THEME_ID) st)
    as [[index theme] |] eqn:Hfind.
  2: { intros H. now injection H as <- <-. }
  apply findThemeData_found in Hfind as [Hid Hknown].
  assert (Hnew : activatable (IInternalThemeData.id theme) st).
  { split; [| split; [| exact Hknown]]; destruct Hid as [-> | ->];
      auto using validateThemeId_truthy, validateThemeId_idempotent. }
  unfold applyTheme.
  destruct (cached theme) as [content |].
  { intros H. injection H as <- <-. now apply onApply_consistent. }
  destruct (_loadThemeDocument host fuel (IInternalThemeData.path theme))
    as [[themeDocument | reason] |]; [| | discriminate].
  2: { intros H. now injection H as <- <-. }
  destruct (_processThemeObject host (IInternalThemeData.id theme) themeDocument)
    as [styleSheetContent |].
  2: { intros H. now injection H as <- <-. }
  intros H. injection H as <- <-. apply onApply_consistent.
  - intros current Hcurrent. specialize (Hst current Hcurrent).
    unfold activatable, known in *. cbn. now rewrite updateAt_ids.
  - unfold activatable, known in *. cbn. now rewrite updateAt_ids.
Qed.

(** ** The reachable states are consistent *)

Lemma onTheme_consistent (host : Host) (folder extensionId : string)
    (st : State) (theme : IThemeExtensionPoint) :
  consistent st -> consistent (onTheme host folder extensionId st theme).
Proof.
  intros Hst. unfold onTheme.
  destruct (point_path theme) as [path |]; [| exact Hst].
  destruct (Js.truthy path); [| exact Hst].
  intros current Hcurrent.
  assert (Hactive : activatable current st).
  { apply Hst. destruct (String.prefix folder _) in Hcurrent; exact Hcurrent. }
  destruct Hactive as (Htruthy & Hmigrated & Hknown).
  repeat split; try assumption.
  unfold known in *.
  destruct (String.prefix folder _); cbn; unfold push;
    rewrite map_app; apply in_or_app; now left.
Qed.

Lemma onThemes_consistent (host : Host) (folder extensionId : string)
    (themes : option (list IThemeExtensionPoint)) (st : State) :
  consistent st -> consistent (onThemes host folder extensionId themes st).
Proof.
  unfold onThemes. destruct themes as [themes |]; [| intros H; exact H].
  revert st. induction themes as [| theme themes IH]; intros st Hst; simpl.
  - exact Hst.
  - apply IH. now apply onTheme_consistent.
Qed.

Lemma onFileIcons_consistent (host : Host) (folder extensionId : string)
    (fileIcons : option (list IThemeExtensionPoint)) (st : State) :
  consistent st -> consistent (onFileIcons host folder extensionId fileIcons st).
Proof.
  unfold onFileIcons. destruct fileIcons as [fileIcons |]; [| intros H; exact H].
  revert st. induction fileIcons as [| fileIconSet fileIcons IH]; intros st Hst; simpl.
  - exact Hst.
  - apply IH. unfold onFileIconSet.
    destruct (negb (Js.truthy_opt (point_path fileIconSet))); [exact Hst |].
    destruct (negb (Js.truthy_opt (point_id fileIconSet))); [exact Hst |].
    destruct (String.prefix folder _); exact Hst.
Qed.

Lemma setFileIcons_consistent (host : Host) (fileIcons : Nullable) (st : State) :
  consistent st -> consistent (snd (setFileIcons host fileIcons st)).
Proof.
  intros Hst. unfold setFileIcons.
  destruct (strictlyDiffer fileIcons (currentFileIcons st)); [| exact Hst].
  unfold _updateFileIcons.
  destruct (findIconSet _ _ _ _) as [[index data] |]; [| exact Hst].
  unfold _applyFileIcons.
  destruct (cached data); [exact Hst |].
  destruct (_loadFileIconsDocument host (IInternalThemeData.path data));
    [| exact Hst].
  destruct (_processFileIconsObject _ _ _ _); exact Hst.
Qed.

Lemma initialize_consistent (host : Host) (fuel : nat) (classes : string)
    (st st' : State) (outcome : Promise bool) :
  consistent st ->
  initialize host fuel classes st = Some (outcome, st') ->
  consistent st'.
Proof.
  intros Hst. unfold initialize.
  destruct (member THEME_PREF (storage (set_container (Some classes) st)))
    as [themeId |]; [destruct (Js.truthy themeId) |];
    apply setColorTheme_consistent; exact Hst.
Qed.

(** In every state the service reaches, the active theme is a known one,
    of a non-empty identifier that the migration leaves as it is. *)
Lemma reachable_consistent (host : Host) (st : State) :
  reachable host st -> consistent st.
Proof.
  induction 1 as [storage styles
                 | st folder extensionId themes _ IH
                 | st folder extensionId fileIcons _ IH
                 | st fuel classes outcome st' _ IH Hstep
                 | st fuel themeId toAll outcome st' _ IH Hstep
                 | st fileIcons _ IH].
  - intros current Hcurrent. discriminate Hcurrent.
  - now apply onThemes_consistent.
  - now apply onFileIcons_consistent.
  - eapply initialize_consistent; eassumption.
  - eapply setColorTheme_consistent; eassumption.
  - now apply setFileIcons_consistent.
Qed.

(** C9.  In a consistent state, and so in every state the service
    reaches, let no known theme bear the requested identifier as the
    migration of older identifiers leaves it, nor the default identifier.
    Then the activation resolves to [false], and the state it leaves is the
    state it found: the current theme, the stored preference and the style
    elements are as they were, and nothing is rejected or thrown. *)
Theorem unknown_theme_is_not_applied (host : Host) (fuel : nat) (themeId : string)
    (toAll : bool) (st : State) :
  consistent st ->
  ~ known (validateThemeId themeId) st ->
  ~ known DEFAULT_THEME_ID st ->
  setColorTheme host fuel themeId toAll st = Some (Resolved false, st).
Proof.
  intros Hst Hid Hdefault. unfold setColorTheme.
  destruct (Js.truthy themeId); [| reflexivity]. cbn [negb].
  destruct (currentTheme st) as [current |] eqn:Hcurrent.
  - destruct (String.eqb themeId current) eqn:Hsame.
    + apply String.eqb_eq in Hsame. subst current.
      destruct (Hst themeId Hcurrent) as (_ & Hmigrated & Hknown).
      rewrite Hmigrated in Hid. contradiction.
    + unfold applyThemeCSS. now rewrite findThemeData_unknown.
  - unfold applyThemeCSS. now rewrite findThemeData_unknown.
Qed.

(** The theorem at the identifier ["nope"], in a state that knows neither
    it nor the default theme. *)
Lemma unknown_theme_is_not_applied_witness :
  setColorTheme Example.host 0 "nope" true Example.idle
  = Some (Resolved false, Example.idle).
Proof.
  apply unknown_theme_is_not_applied.
  - intros current Hcurrent. discriminate Hcurrent.
  - unfold known. simpl. intuition discriminate.
  - unfold known. simpl. intuition discriminate.
Defined.

(** C9, as stated, fails for an identifier of an older version: no known
    theme bears ["vs"], none bears the default identifier, and yet the
    activation of ["vs"] resolves to [true], because the identifier is
    migrated before it is looked up and a known theme bears the migrated
    one.  The current theme, the stored preference and the style elements
    are no longer what they were. *)
Lemma migrated_identifier_is_applied :
  ~ known "vs" Example.idle
  /\ ~ known DEFAULT_THEME_ID Example.idle
  /\ currentTheme Example.idle = None
  /\ member THEME_PREF (storage Example.idle) = None
  /\ styles Example.idle = []
  /\ option_map fst (setColorTheme Example.host 3 "vs" false Example.idle)
     = Some (Resolved true)
  /\ option_map (fun result => currentTheme (snd result))
       (setColorTheme Example.host 3 "vs" false Example.idle)
     = Some (Some "vs vscode-theme-defaults-themes-light_vs-json")
  /\ option_map (fun result => member THEME_PREF (storage (snd result)))
       (setColorTheme Example.host 3 "vs" false Example.idle)
     = Some (Some "vs vscode-theme-defaults-themes-light_vs-json")
  /\ option_map (fun result => List.length (styles (snd result)))
       (setColorTheme Example.host 3 "vs" false Example.idle)
     = Some 1%nat.
Proof.
  split; [unfold known; simpl; intuition discriminate |].
  split; [unfold known; simpl; intuition discriminate |].
  repeat split; reflexivity.
Qed.

(** C10.  In a consistent state, and so in every state the service
    reaches, the activation of the identifier that is the current one
    resolves to [true] whatever the host and the fuel are: nothing is
    loaded or compiled.  Without the broadcast flag the state is left as it
    was found; with it, the one change is the message with the identifier
    on the theme channel, added to what was broadcast. *)
Theorem active_theme_is_not_applied_again (host : Host) (fuel : nat)
    (themeId : string) (toAll : bool) (st : State) :
  consistent st ->
  currentTheme st = Some themeId ->
  setColorTheme host fuel themeId toAll st
  = Some (Resolved true,
          if toAll
          then set_broadcasts (broadcasts st ++ [(THEME_CHANNEL, themeId)])%list st
          else st).
Proof.
  intros Hst Hcurrent.
  destruct (Hst themeId Hcurrent) as (Htruthy & _).
  unfold setColorTheme. rewrite Htruthy, Hcurrent, String.eqb_refl.
  reflexivity.
Qed.

(** The theorem at the state in which the first example theme is active,
    with and without the broadcast flag. *)
Lemma active_theme_is_not_applied_again_witness :
  setColorTheme Example.host 0 "vs-dark ext-themes-base-json" false Example.themed
  = Some (Resolved true, Example.themed)
  /\ setColorTheme Example.host 0 "vs-dark ext-themes-base-json" true Example.themed
     = Some (Resolved true,
             set_broadcasts
               [(THEME_CHANNEL, "vs-dark ext-themes-base-json")] Example.themed).
Proof.
  assert (Hthemed : consistent Example.themed).
  { intros current Hcurrent. injection Hcurrent as <-.
    repeat split. unfold known. simpl. now left. }
  split.
  - exact (active_theme_is_not_applied_again Example.host 0 _ false _ Hthemed eq_refl).
  - exact (active_theme_is_not_applied_again Example.host 0 _ true _ Hthemed eq_refl).
Defined.

(** ** Activations whose load fails *)

(** C8, as the code has it.  When the load of the document of a color
    theme is rejected, be it by the read or by the parser, the activation
    is rejected with "Unable to load" and leaves the state as it found it:
    the current theme, the stored preference and the style elements are as
    they were.  When the load of the document of an icon set is rejected,
    [_applyFileIcons] likewise leaves the state as it found it; the
    activation [setFileIcons] is rejected with the state changed in one
    place only, [currentFileIcons], which holds the requested identifier
    from before the load was started. *)
Theorem failed_load_keeps_styles (host : Host) :
  (forall fuel themeId toAll st index theme reason,
      Js.truthy themeId = true ->
      currentTheme st <> Some themeId ->
      findThemeData (validateThemeId themeId) (Some DEFAULT_THEME_ID) st
      = Some (index, theme) ->
      cached theme = None ->
      _loadThemeDocument host fuel (IInternalThemeData.path theme)
      = Some (Rejected reason) ->
      setColorTheme host fuel themeId toAll st
      = Some (Rejected (UnableToLoad (IInternalThemeData.path theme)), st))
  /\ (forall st index data reason,
         cached data = None ->
         _loadFileIconsDocument host (IInternalThemeData.path data) = Rejected reason ->
         _applyFileIcons host (index, data) st
         = (Rejected (UnableToLoad (IInternalThemeData.path data)), st))
  /\ (forall fileIcons st index data reason,
         strictlyDiffer fileIcons (currentFileIcons st) = true ->
         findIconSet fileIcons 0 (knownFileIconContributions st) None
         = Some (index, data) ->
         cached data = None ->
         _loadFileIconsDocument host (IInternalThemeData.path data) = Rejected reason ->
         setFileIcons host fileIcons st
         = (Rejected (UnableToLoad (IInternalThemeData.path data)),
            set_currentFileIcons fileIcons st)).
Proof.
  assert (Hicons : forall st index data reason,
             cached data = None ->
             _loadFileIconsDocument host (IInternalThemeData.path data) = Rejected reason ->
             _applyFileIcons host (index, data) st
             = (Rejected (UnableToLoad (IInternalThemeData.path data)), st)).
  { intros st index data reason Hcached Hload.
    unfold _applyFileIcons. now rewrite Hcached, Hload. }
  split; [| split; [exact Hicons |]].
  - intros fuel themeId toAll st index theme reason
      Htruthy Hother Hfind Hcached Hload.
    unfold setColorTheme. rewrite Htruthy. cbn [negb].
    assert (Hdiffer : match currentTheme st with
                      | Some current => String.eqb themeId current
                      | None => false
                      end = false).
    { destruct (currentTheme st) as [current |]; [| reflexivity].
      apply String.eqb_neq. intros ->. now apply Hother. }
    rewrite Hdiffer. unfold applyThemeCSS. rewrite Hfind.
    unfold applyTheme. now rewrite Hcached, Hload.
  - intros fileIcons st index data reason Hdiffer Hfind Hcached Hload.
    unfold setFileIcons. rewrite Hdiffer. unfold _updateFileIcons.
    cbn [currentFileIcons knownFileIconContributions set_currentFileIcons].
    rewrite Hfind. now apply Hicons with (reason := reason).
Qed.

(** The theorem at the theme and at the icon set of the example whose
    documents do not parse. *)
Lemma failed_load_keeps_styles_witness :
  setColorTheme Example.host 3 "vs ext-themes-broken-json" true Example.themed
  = Some (Rejected (UnableToLoad "/ext/themes/broken.json"), Example.themed)
  /\ setFileIcons Example.host (JsString "broken") Example.iconed
     = (Rejected (UnableToLoad "/ext/icons/broken.json"),
        set_currentFileIcons (JsString "broken") Example.iconed).
Proof.
  destruct (failed_load_keeps_styles Example.host) as (Htheme & _ & Hicons).
  split.
  - apply (Htheme 3%nat "vs ext-themes-broken-json" true Example.themed
             1%nat (Example.theme "vs ext-themes-broken-json" "/ext/themes/broken.json")
             (JsonProblems "error 1, error 2")); try reflexivity.
    discriminate.
  - apply (Hicons (JsString "broken") Example.iconed 1%nat
             (Example.theme "broken" "/ext/icons/broken.json")
             (FileIconsProblems "error 1")); reflexivity.
Defined.

(** C8, as stated, fails for icon sets: with the icon set [plain] active,
    the activation of an icon set whose document does not parse is
    rejected, the style elements are as before, and yet the identifier of
    the active icon set is no longer [plain]. *)
Lemma failed_icon_load_changes_identifier :
  currentFileIcons Example.iconed = JsString "plain"
  /\ _loadFileIconsDocument Example.host "/ext/icons/broken.json"
     = Rejected (FileIconsProblems "error 1")
  /\ fst (setFileIcons Example.host (JsString "broken") Example.iconed)
     = Rejected (UnableToLoad "/ext/icons/broken.json")
  /\ styles (snd (setFileIcons Example.host (JsString "broken") Example.iconed))
     = styles Example.iconed
  /\ currentFileIcons (snd (setFileIcons Example.host (JsString "broken") Example.iconed))
     = JsString "broken"
  /\ currentFileIcons (snd (setFileIcons Example.host (JsString "broken") Example.iconed))
     <> currentFileIcons Example.iconed.
Proof.
  repeat (split; [reflexivity |]).
  intros H. vm_compute in H. discriminate H.
Qed.

(** ** The text of a color *)

(** The alpha channel is printed with at most two decimals: the alpha
    [128 / 255] of ["#FFFFFF80"] is printed as [0.5], and half of it as
    [0.25].  [opposite] takes [{10, 20, 30, 1}] to [{245, 235, 225, 1}], and
    a channel that is NaN is printed as [NaN]. *)
Theorem color_text_examples :
  Color.toString (Color.parse "#FFFFFF80") = "rgba(255, 255, 255, 0.5)"
  /\ Color.toString (Color.transparent (Color.parse "#FFFFFF80") 0.5)
     = "rgba(255, 255, 255, 0.25)"
  /\ Color.opposite (mkRGBA (Some 10%Z) (Some 20%Z) (Some 30%Z) 1%float)
     = mkRGBA (Some 245%Z) (Some 235%Z) (Some 225%Z) 1%float
  /\ Color.toString (Color.parse "#GGGGGG") = "rgba(NaN, NaN, NaN, 1)".
Proof.
  repeat split; reflexivity.
Qed.

(** The invariant at the example service after its theme was activated:
    the state is reached from the initial one, and its current theme is
    the contributed one. *)
Lemma reachable_consistent_witness :
  currentTheme Example.activated = Some "vs-dark ext-themes-base-json"
  /\ consistent Example.activated.
Proof.
  split; [reflexivity |].
  apply (reachable_consistent Example.host).
  apply (reach_setColorTheme Example.host Example.initialized 2
           "vs-dark ext-themes-base-json" true (Resolved true));
    [| reflexivity].
  apply (reach_initialize Example.host Example.contributed 2 "monaco-shell"
           (Resolved false));
    [| reflexivity].
  apply reach_onThemes. apply reach_initial.
Defined.

(** * Further properties of the code *)

(** ** The channels of a color *)

Lemma digitValue_range (radix : Z) (c : ascii) (d : Z) :
  Js.digitValue radix c = Some d -> (0 <= d < radix)%Z.
Proof.
  unfold Js.digitValue. cbv zeta.
  destruct ((48 <=? Js.code c) && (Js.code c <=? 57))%Z eqn:Hdigit.
  - apply andb_prop in Hdigit as [Hlow _]. apply Z.leb_le in Hlow.
    destruct (Js.code c - 48 <? radix)%Z eqn:Hlt; [| discriminate].
    apply Z.ltb_lt in Hlt. intros H. injection H as <-. lia.
  - destruct ((65 <=? Js.code c) && (Js.code c <=? 90))%Z eqn:Hupper.
    + apply andb_prop in Hupper as [Hlow _]. apply Z.leb_le in Hlow.
      destruct (Js.code c - 55 <? radix)%Z eqn:Hlt; [| discriminate].
      apply Z.ltb_lt in Hlt. intros H. injection H as <-. lia.
    + destruct ((97 <=? Js.code c) && (Js.code c <=? 122))%Z eqn:Hlower.
      * apply andb_prop in Hlower as [Hlow _]. apply Z.leb_le in Hlow.
        destruct (Js.code c - 87 <? radix)%Z eqn:Hlt; [| discriminate].
        apply Z.ltb_lt in Hlt. intros H. injection H as <-. lia.
      * destruct (36 <? radix)%Z eqn:Hlt; [| discriminate].
        apply Z.ltb_lt in Hlt. intros H. injection H as <-. lia.
Qed.

(** [substr(start, 2)] has at most two characters. *)
Lemma substr_two (start : nat) (s : string) :
  Js.substr start 2 s = EmptyString
  \/ (exists c, Js.substr start 2 s = String c EmptyString)
  \/ (exists c1 c2, Js.substr start 2 s = String c1 (String c2 EmptyString)).
Proof.
  unfold Js.substr. revert start.
  induction s as [| c s IH]; intros start.
  - left. now destruct start.
  - destruct start as [| start]; [| apply IH].
    cbn [substring]. destruct s as [| c' s].
    + right. left. now exists c.
    + right. right. exists c, c'. cbn [substring]. now destruct s.
Qed.

Lemma parseHex_byte (start : nat) (s : string) :
  byteChannel (Color.parseHex (Js.substr start 2 s)).
Proof.
  destruct (substr_two start s) as [-> | [[c ->] | [c1 [c2 ->]]]].
  - exact I.
  - unfold Color.parseHex, Js.parseInt. simpl.
    destruct (Js.digitValue 16 c) as [d |] eqn:Hd; [| exact I].
    apply digitValue_range in Hd. cbn [byteChannel]. lia.
  - unfold Color.parseHex, Js.parseInt. simpl.
    destruct (Js.digitValue 16 c1) as [d1 |] eqn:Hd1; [| exact I].
    apply digitValue_range in Hd1.
    destruct (Js.digitValue 16 c2) as [d2 |] eqn:Hd2.
    + apply digitValue_range in Hd2. cbn [byteChannel]. destruct d1; lia.
    + cbn [byteChannel]. lia.
Qed.

(** Whatever the string, each of the three channels that [Color.parse]
    returns is NaN or an integer from 0 to 255, and alpha is 1 unless the
    string has exactly nine characters.  [opposite] keeps the channels in
    that range and the alpha as it is, and applied twice it gives the color
    back; [transparent] leaves the three channels as they are. *)
Theorem color_channels_are_bytes :
  (forall color,
      byteChannel (r (Color.parse color))
      /\ byteChannel (g (Color.parse color))
      /\ byteChannel (b (Color.parse color)))
  /\ (forall color,
         String.length color <> 9%nat -> a (Color.parse color) = 1%float)
  /\ (forall p,
         byteChannel (r p) -> byteChannel (g p) -> byteChannel (b p) ->
         byteChannel (r (Color.opposite p))
         /\ byteChannel (g (Color.opposite p))
         /\ byteChannel (b (Color.opposite p)))
  /\ (forall p, a (Color.opposite p) = a p)
  /\ (forall p, Color.opposite (Color.opposite p) = p)
  /\ (forall p factor,
         r (Color.transparent p factor) = r p
         /\ g (Color.transparent p factor) = g p
         /\ b (Color.transparent p factor) = b p).
Proof.
  split; [| split; [| split; [| split; [reflexivity | split]]]].
  - intros color. unfold Color.parse.
    destruct (Color.startsWithHash color && (7 <=? String.length color)%nat).
    + cbn [r g b]. auto using parseHex_byte.
    + cbn. lia.
  - intros color Hlength. unfold Color.parse.
    destruct (Color.startsWithHash color && (7 <=? String.length color)%nat);
      [| reflexivity].
    cbn [a]. apply Nat.eqb_neq in Hlength. now rewrite Hlength.
  - intros [[pr |] [pg |] [pb |] pa] Hr Hg Hb; unfold Color.opposite;
      cbn [r g b byteChannel] in *; repeat split; try exact I; lia.
  - intros [[pr |] [pg |] [pb |] pa]; unfold Color.opposite; cbn [r g b a];
      repeat f_equal; lia.
  - intros p factor. now split.
Qed.

(** The theorem at a color with a NaN channel. *)
Lemma color_channels_are_bytes_witness :
  byteChannel (r (Color.opposite (mkRGBA (Some 0%Z) None (Some 255%Z) 1%float)))
  /\ a (Color.parse "#12345") = 1%float.
Proof.
  destruct color_channels_are_bytes as (_ & Halpha & Hopposite & _).
  split.
  - apply Hopposite; cbn; lia.
  - apply Halpha. discriminate.
Defined.

(** ** The migration of theme identifiers *)

(** [validateThemeId] applied twice gives what it gives applied once; it
    keeps a non-empty identifier non-empty; it never returns one of the
    five identifiers of older versions; and it leaves every other
    identifier as it is. *)
Theorem migration_is_stable :
  (forall theme, validateThemeId (validateThemeId theme) = validateThemeId theme)
  /\ (forall theme,
         Js.truthy theme = true -> Js.truthy (validateThemeId theme) = true)
  /\ (forall theme, ~ In (validateThemeId theme) legacyThemeIds)
  /\ (forall theme, ~ In theme legacyThemeIds -> validateThemeId theme = theme).
Proof.
  split; [exact validateThemeId_idempotent |].
  split; [exact validateThemeId_truthy |].
  split.
  - intros theme. unfold validateThemeId.
    repeat match goal with
           | |- context [String.eqb theme ?s] =>
               let H := fresh "H" in
               destruct (String.eqb theme s) eqn:H;
               [cbn; intuition discriminate |]
           end.
    cbn. intros Hin.
    repeat match goal with
           | H : String.eqb theme _ = false |- _ =>
               apply String.eqb_neq in H
           end.
    cbn in *. intuition congruence.
  - intros theme Hnot. unfold validateThemeId.
    repeat match goal with
           | |- context [String.eqb theme ?s] =>
               let H := fresh "H" in
               destruct (String.eqb theme s) eqn:H;
               [apply String.eqb_eq in H; exfalso; apply Hnot;
                rewrite H; cbn; tauto |]
           end.
    reflexivity.
Qed.

(** The theorem at an identifier that is not one of the five. *)
Lemma migration_is_stable_witness :
  validateThemeId "vs ext-themes-base-json" = "vs ext-themes-base-json"
  /\ Js.truthy (validateThemeId "hc-black") = true.
Proof.
  destruct migration_is_stable as (_ & Htruthy & _ & Hother).
  split.
  - apply Hother. cbn. intuition discriminate.
  - now apply Htruthy.
Defined.

(** ** Selectors made of identifiers *)

Lemma dashOthers_selector (str : string) :
  everyChar isSelectorChar (dashOthers str) = true.
Proof.
  induction str as [| c str IH]; cbn [dashOthers everyChar]; [reflexivity |].
  rewrite IH, andb_true_r.
  destruct (isSelectorChar c) eqn:Hc; [exact Hc | reflexivity].
Qed.

Lemma dashOthers_fixed (str : string) :
  everyChar isSelectorChar str = true -> dashOthers str = str.
Proof.
  induction str as [| c str IH]; cbn [dashOthers everyChar]; [reflexivity |].
  intros H. apply andb_prop in H as [Hc Hstr].
  now rewrite Hc, IH.
Qed.

Lemma dashOthers_length (str : string) :
  String.length (dashOthers str) = String.length str.
Proof.
  induction str as [| c str IH]; cbn; [reflexivity | now rewrite IH].
Qed.

Lemma toCSSSelector_shape (str : string) :
  everyChar isSelectorChar (toCSSSelector str) = true
  /\ leadingDigitOrDash (toCSSSelector str) = false.
Proof.
  unfold toCSSSelector. cbv zeta.
  pose proof (dashOthers_selector str) as Hall.
  destruct (dashOthers str) as [| c rest] eqn:Hdashed; [now split |].
  destruct ((48 <=? Js.code c) && (Js.code c <=? 57) || (Js.code c =? 45))%Z
    eqn:Hlead.
  - split; [exact Hall | reflexivity].
  - split; [exact Hall | exact Hlead].
Qed.

(** Whatever the string, [toCSSSelector] returns a string made of the
    characters [_], [-], letters and digits only, which does not start with
    a digit or a dash, and which is the given string or one character
    longer; applied to its own result it changes nothing. *)
Theorem toCSSSelector_is_a_selector (str : string) :
  everyChar isSelectorChar (toCSSSelector str) = true
  /\ leadingDigitOrDash (toCSSSelector str) = false
  /\ (String.length str <= String.length (toCSSSelector str) <= S (String.length str))%nat
  /\ toCSSSelector (toCSSSelector str) = toCSSSelector str.
Proof.
  destruct (toCSSSelector_shape str) as [Hall Hlead].
  split; [exact Hall |]. split; [exact Hlead |]. split.
  - unfold toCSSSelector. cbv zeta.
    pose proof (dashOthers_length str) as Hlength.
    destruct (dashOthers str) as [| c rest]; [lia |].
    destruct ((48 <=? Js.code c) && (Js.code c <=? 57) || (Js.code c =? 45))%Z;
      cbn [String.append String.length] in *; lia.
  - unfold toCSSSelector at 1. cbv zeta.
    rewrite (dashOthers_fixed _ Hall).
    destruct (toCSSSelector str) as [| c rest]; [reflexivity |].
    cbn [leadingDigitOrDash] in Hlead. cbv zeta in Hlead. now rewrite Hlead.
Qed.

(** ** Contributions *)

(** What one entry of the [themes] extension point does to the state. *)
Lemma onTheme_appends (host : Host) (folder extensionId : string)
    (st : State) (point : IThemeExtensionPoint) :
  let st' := onTheme host folder extensionId st point in
  sameButThemes st st'
  /\ (if declaresPath point
      then exists theme,
             knownThemes st' = (knownThemes st ++ [theme])%list
             /\ IInternalThemeData.styleSheetContent theme = None
             /\ IInternalThemeData.extensionId theme = extensionId
             /\ compositeId (IInternalThemeData.id theme)
             /\ errorCount (collected st') = errorCount (collected st)
      else knownThemes st' = knownThemes st
           /\ errorCount (collected st') = S (errorCount (collected st))).
Proof.
  unfold onTheme, declaresPath, sameButThemes, errorCount.
  destruct (point_path point) as [path |]; cbn [Js.truthy_opt].
  - destruct (Js.truthy path).
    + destruct (String.prefix folder _); cbn.
      * split; [now destruct st |].
        eexists. split; [reflexivity |]. repeat split.
        eexists _, _. split; [reflexivity |]. apply toCSSSelector_shape.
      * split; [reflexivity |].
        eexists. split; [reflexivity |]. repeat split.
        -- eexists _, _. split; [reflexivity |]. apply toCSSSelector_shape.
        -- unfold push. rewrite filter_app, length_app. cbn. lia.
    + cbn. split; [now destruct st |]. split; [reflexivity |].
      unfold push. rewrite filter_app, length_app. cbn. lia.
  - cbn. split; [now destruct st |]. split; [reflexivity |].
    unfold push. rewrite filter_app, length_app. cbn. lia.
Qed.

Lemma sameButThemes_trans (st st' st'' : State) :
  sameButThemes st st' -> sameButThemes st' st'' -> sameButThemes st st''.
Proof.
  unfold sameButThemes. destruct st, st', st''. cbn.
  intros H1 H2. inversion H1. inversion H2. now subst.
Qed.

Lemma sameButThemes_refl (st : State) : sameButThemes st st.
Proof.
  unfold sameButThemes. now destruct st.
Qed.

Lemma onThemes_fold (host : Host) (folder extensionId : string)
    (points : list IThemeExtensionPoint) :
  forall st,
    let st' := fold_left (onTheme host folder extensionId) points st in
    sameButThemes st st'
    /\ (exists added,
           knownThemes st' = (knownThemes st ++ added)%list
           /\ List.length added = List.length (filter declaresPath points)
           /\ Forall (fun theme =>
                        IInternalThemeData.styleSheetContent theme = None
                        /\ IInternalThemeData.extensionId theme = extensionId
                        /\ compositeId (IInternalThemeData.id theme)) added)
    /\ errorCount (collected st')
       = (errorCount (collected st)
          + List.length (filter (fun point => negb (declaresPath point)) points))%nat.
Proof.
  induction points as [| point points IH]; intros st; cbn [fold_left filter].
  - split; [apply sameButThemes_refl |]. split; [| cbn; lia].
    exists []. rewrite app_nil_r. repeat split. constructor.
  - destruct (IH (onTheme host folder extensionId st point))
      as (Hsame & (added & Hknown & Hlength & Hadded) & Herrors).
    destruct (onTheme_appends host folder extensionId st point) as (Hsame1 & Hstep).
    cbv zeta in *.
    split; [eapply sameButThemes_trans; eassumption |].
    destruct (declaresPath point); cbn [negb].
    + destruct Hstep as (theme & Hknown1 & Hcache & Hextension & Hid & Herrors1).
      split.
      * exists (theme :: added). rewrite Hknown, Hknown1, <- app_assoc.
        split; [reflexivity |]. split; [cbn; lia |].
        constructor; [now repeat split | exact Hadded].
      * rewrite Herrors, Herrors1. reflexivity.
    + destruct Hstep as (Hknown1 & Herrors1).
      split.
      * exists added. rewrite Hknown, Hknown1. now repeat split.
      * rewrite Herrors, Herrors1. cbn. lia.
Qed.

(** [onThemes] only appends.  For an array of entries, the known themes
    of before stay in front, in place; behind them stands one theme for
    each entry with a non-empty path, without a cached style sheet, with the
    contributing extension as its [extensionId], and with an identifier
    made of a base theme, a space and a selector of the characters [_], [-],
    letters and digits that starts with neither a digit nor a dash.  Every
    entry without a path adds one error to the collector instead.  For a
    value that is not an array, no theme is added and one error is
    collected.  Nothing else of the state changes. *)
Theorem onThemes_appends (host : Host) (folder extensionId : string)
    (themes : option (list IThemeExtensionPoint)) (st : State) :
  let st' := onThemes host folder extensionId themes st in
  sameButThemes st st'
  /\ match themes with
     | Some points =>
         (exists added,
             knownThemes st' = (knownThemes st ++ added)%list
             /\ List.length added = List.length (filter declaresPath points)
             /\ Forall (fun theme =>
                          IInternalThemeData.styleSheetContent theme = None
                          /\ IInternalThemeData.extensionId theme = extensionId
                          /\ compositeId (IInternalThemeData.id theme)) added)
         /\ errorCount (collected st')
            = (errorCount (collected st)
               + List.length (filter (fun point => negb (declaresPath point)) points))%nat
     | None =>
         knownThemes st' = knownThemes st
         /\ errorCount (collected st') = S (errorCount (collected st))
     end.
Proof.
  destruct themes as [points |]; cbn [onThemes].
  - pose proof (onThemes_fold host folder extensionId points st) as H.
    cbv zeta in H. tauto.
  - split; [| split].
    + unfold sameButThemes. now destruct st.
    + reflexivity.
    + unfold errorCount, push. cbn. rewrite filter_app, length_app. cbn. lia.
Qed.

Lemma onThemes_knownThemes (host : Host) (folder extensionId : string)
    (themes : option (list IThemeExtensionPoint)) (st : State) :
  exists added,
    knownThemes (onThemes host folder extensionId themes st)
    = (knownThemes st ++ added)%list.
Proof.
  destruct themes as [points |]; cbn [onThemes].
  - destruct (onThemes_fold host folder extensionId points st)
      as (_ & (added & Hknown & _) & _).
    now exists added.
  - exists []. now rewrite app_nil_r.
Qed.

Lemma firstMatch_app {A : Type} (p : A -> bool) (l l' : list A) (found : nat * A) :
  firstMatch p l = Some found -> firstMatch p (l ++ l')%list = Some found.
Proof.
  revert found. induction l as [| x l IH]; intros found; cbn; [discriminate |].
  destruct (p x); [trivial |].
  destruct (firstMatch p l) as [[i y] |]; [| discriminate].
  intros H. now rewrite (IH _ eq_refl).
Qed.

(** An identifier that a known theme bears keeps resolving to that very
    theme, at its position, whatever themes are contributed afterwards: a
    later contribution with the same identifier is never the one found. *)
Theorem known_theme_resolves_the_same (host : Host) (folder extensionId : string)
    (themes : option (list IThemeExtensionPoint)) (st : State)
    (themeId : string) (defaultId : option string)
    (found : nat * IInternalThemeData.t) :
  firstMatch (hasId themeId) (knownThemes st) = Some found ->
  findThemeData themeId defaultId st = Some found
  /\ findThemeData themeId defaultId (onThemes host folder extensionId themes st)
     = Some found.
Proof.
  intros Hfound. unfold findThemeData. split.
  - now rewrite Hfound.
  - destruct (onThemes_knownThemes host folder extensionId themes st)
      as (added & ->).
    now rewrite (firstMatch_app _ _ added _ Hfound).
Qed.

(** The theorem at the example service: a second contribution under the
    identifier of the first theme does not change what is found. *)
Lemma known_theme_resolves_the_same_witness :
  findThemeData "vs-dark ext-themes-base-json" (Some DEFAULT_THEME_ID)
    (onThemes Example.host "/ext" "ext"
       (Some [mkIThemeExtensionPoint None (Some "Again") None
                (Some "themes/base.json") (Some "vs-dark")])
       Example.contributed)
  = Some (0%nat,
          IInternalThemeData.mk "vs-dark ext-themes-base-json" "Base" None
            "/ext/themes/base.json" "ext" None).
Proof.
  exact (proj2 (known_theme_resolves_the_same Example.host "/ext" "ext" _
                  Example.contributed "vs-dark ext-themes-base-json"
                  (Some DEFAULT_THEME_ID) _ eq_refl)).
Defined.

Lemma sameButIconSets_trans (st st' st'' : State) :
  sameButIconSets st st' -> sameButIconSets st' st'' -> sameButIconSets st st''.
Proof.
  unfold sameButIconSets. destruct st, st', st''. cbn.
  intros H1 H2. inversion H1. inversion H2. now subst.
Qed.

Lemma onFileIconSet_appends (host : Host) (folder extensionId : string)
    (st : State) (point : IThemeExtensionPoint) :
  let st' := onFileIconSet host folder extensionId st point in
  sameButIconSets st st'
  /\ (if declaresPath point && declaresId point
      then exists data,
             knownFileIconContributions st'
             = (knownFileIconContributions st ++ [data])%list
             /\ point_id point = Some (IInternalThemeData.id data)
             /\ IInternalThemeData.styleSheetContent data = None
             /\ IInternalThemeData.extensionId data = extensionId
             /\ errorCount (collected st') = errorCount (collected st)
      else knownFileIconContributions st' = knownFileIconContributions st
           /\ errorCount (collected st') = S (errorCount (collected st))).
Proof.
  unfold onFileIconSet, declaresPath, declaresId, sameButIconSets, errorCount.
  destruct (Js.truthy_opt (point_path point)); cbn [negb andb].
  - destruct (Js.truthy_opt (point_id point)) eqn:Hid; cbn [negb].
    + destruct (point_id point) as [declared |]; [| discriminate Hid].
      destruct (String.prefix folder _); cbn.
      * split; [now destruct st |]. eexists. now repeat split.
      * split; [reflexivity |]. eexists. repeat split.
        unfold push. rewrite filter_app, length_app. cbn. lia.
    + cbn. split; [now destruct st |]. split; [reflexivity |].
      unfold push. rewrite filter_app, length_app. cbn. lia.
  - cbn. split; [now destruct st |]. split; [reflexivity |].
    unfold push. rewrite filter_app, length_app. cbn. lia.
Qed.

Lemma onFileIcons_fold (host : Host) (folder extensionId : string)
    (points : list IThemeExtensionPoint) :
  forall st,
    let st' := fold_left (onFileIconSet host folder extensionId) points st in
    let accepted := filter (fun point => declaresPath point && declaresId point) points in
    sameButIconSets st st'
    /\ (exists added,
           knownFileIconContributions st'
           = (knownFileIconContributions st ++ added)%list
           /\ map (fun data => Some (IInternalThemeData.id data)) added
              = map point_id accepted
           /\ Forall (fun data =>
                        IInternalThemeData.styleSheetContent data = None
                        /\ IInternalThemeData.extensionId data = extensionId) added)
    /\ errorCount (collected st')
       = (errorCount (collected st) + (List.length points - List.length accepted))%nat.
Proof.
  induction points as [| point points IH]; intros st; cbn [fold_left filter].
  - split; [unfold sameButIconSets; now destruct st |]. split; [| cbn; lia].
    exists []. rewrite app_nil_r. repeat split. constructor.
  - destruct (IH (onFileIconSet host folder extensionId st point))
      as (Hsame & (added & Hknown & Hids & Hadded) & Herrors).
    destruct (onFileIconSet_appends host folder extensionId st point)
      as (Hsame1 & Hstep).
    cbv zeta in *.
    split; [eapply sameButIconSets_trans; eassumption |].
    pose proof (filter_length_le
                  (fun point => declaresPath point && declaresId point) points)
      as Hle.
    destruct (declaresPath point && declaresId point).
    + destruct Hstep as (data & Hknown1 & Hid & Hcache & Hextension & Herrors1).
      split.
      * exists (data :: added). rewrite Hknown, Hknown1, <- app_assoc.
        split; [reflexivity |]. split; [cbn; now rewrite Hids, Hid |].
        constructor; [now split | exact Hadded].
      * rewrite Herrors, Herrors1. cbn [List.length]. lia.
    + destruct Hstep as (Hknown1 & Herrors1).
      split.
      * exists added. rewrite Hknown, Hknown1. now repeat split.
      * rewrite Herrors, Herrors1. cbn [List.length]. lia.
Qed.

(** [onFileIcons] only appends.  For an array of entries, the known icon
    sets of before stay in front, in place; behind them stands one icon set
    for each entry with a non-empty path and a non-empty identifier, in the
    order of the entries, bearing the declared identifier as it is, without
    a cached style sheet.  Every other entry adds one error to the collector
    instead.  For a value that is not an array, no icon set is added and
    one error is collected.  Nothing else of the state changes. *)
Theorem onFileIcons_appends (host : Host) (folder extensionId : string)
    (fileIcons : option (list IThemeExtensionPoint)) (st : State) :
  let st' := onFileIcons host folder extensionId fileIcons st in
  sameButIconSets st st'
  /\ match fileIcons with
     | Some points =>
         let accepted :=
           filter (fun point => declaresPath point && declaresId point) points in
         (exists added,
             knownFileIconContributions st'
             = (knownFileIconContributions st ++ added)%list
             /\ map (fun data => Some (IInternalThemeData.id data)) added
                = map point_id accepted
             /\ Forall (fun data =>
                          IInternalThemeData.styleSheetContent data = None
                          /\ IInternalThemeData.extensionId data = extensionId) added)
         /\ errorCount (collected st')
            = (errorCount (collected st)
               + (List.length points - List.length accepted))%nat
     | None =>
         knownFileIconContributions st' = knownFileIconContributions st
         /\ errorCount (collected st') = S (errorCount (collected st))
     end.
Proof.
  destruct fileIcons as [points |]; cbn [onFileIcons].
  - pose proof (onFileIcons_fold host folder extensionId points st) as H.
    cbv zeta in H. cbv zeta. tauto.
  - split; [| split].
    + unfold sameButIconSets. now destruct st.
    + reflexivity.
    + unfold errorCount, push. cbn. rewrite filter_app, length_app. cbn. lia.
Qed.

(** ** The style elements *)

Lemma setFirstStyle_class (content rulesClassName : string)
    (elements : list (string * string)) :
  stylesOf rulesClassName (setFirstStyle content rulesClassName elements)
  = content :: tl (stylesOf rulesClassName elements).
Proof.
  unfold stylesOf.
  induction elements as [| [className innerHTML] elements IH]; cbn.
  - now rewrite String.eqb_refl.
  - destruct (String.eqb className rulesClassName) eqn:Hclass; cbn.
    + now rewrite Hclass.
    + rewrite Hclass. exact IH.
Qed.

Lemma setFirstStyle_other (content rulesClassName other : string)
    (elements : list (string * string)) :
  other <> rulesClassName ->
  stylesOf other (setFirstStyle content rulesClassName elements)
  = stylesOf other elements.
Proof.
  intros Hother. unfold stylesOf.
  induction elements as [| [className innerHTML] elements IH]; cbn.
  - apply not_eq_sym in Hother. apply String.eqb_neq in Hother. now rewrite Hother.
  - destruct (String.eqb className rulesClassName) eqn:Hclass; cbn.
    + apply String.eqb_eq in Hclass. subst className.
      apply not_eq_sym in Hother. apply String.eqb_neq in Hother.
      now rewrite Hother.
    + destruct (String.eqb className other); cbn; now rewrite IH.
Qed.

Lemma setFirstStyle_again (content content' rulesClassName : string)
    (elements : list (string * string)) :
  setFirstStyle content rulesClassName
    (setFirstStyle content' rulesClassName elements)
  = setFirstStyle content rulesClassName elements.
Proof.
  induction elements as [| [className innerHTML] elements IH]; cbn.
  - now rewrite String.eqb_refl.
  - destruct (String.eqb className rulesClassName) eqn:Hclass; cbn;
      rewrite Hclass; [reflexivity | now rewrite IH].
Qed.

(** [_applyRules] replaces, it does not layer.  Afterwards the first
    style element of the class holds the given content, and the class has
    as many style elements as before, or one when it had none; the further
    elements of the class and the elements of every other class hold what
    they held; nothing but the style elements changes.  The content last
    applied is the content installed, whatever was applied before. *)
Theorem applyRules_replaces (content rulesClassName : string) (st : State) :
  let st' := _applyRules content rulesClassName st in
  stylesOf rulesClassName (styles st')
  = content :: tl (stylesOf rulesClassName (styles st))
  /\ (forall other,
         other <> rulesClassName ->
         stylesOf other (styles st') = stylesOf other (styles st))
  /\ st' = set_styles (styles st') st
  /\ (forall before,
         _applyRules content rulesClassName (_applyRules before rulesClassName st)
         = st').
Proof.
  cbv zeta. unfold _applyRules. cbn [styles set_styles].
  split; [apply setFirstStyle_class |].
  split; [intros other Hother; now apply setFirstStyle_other |].
  split; [reflexivity |].
  intros before. destruct st. cbn. now rewrite setFirstStyle_again.
Qed.

(** The theorem at the class of the file icons, in a document that holds
    the style element of a color theme. *)
Lemma applyRules_replaces_witness :
  stylesOf colorThemeRulesClassName
    (styles (_applyRules "icons" fileIconRulesClassName Example.activated))
  = stylesOf colorThemeRulesClassName (styles Example.activated).
Proof.
  apply (proj1 (proj2 (applyRules_replaces "icons" fileIconRulesClassName
                         Example.activated))).
  discriminate.
Defined.

(** ** Fuel, inclusion chains and cycles *)

Lemma load_fuel_le (host : Host) (fuel : nat) :
  forall (fuel' : nat) (path : string) (outcome : Promise ThemeDocument.t),
    _loadThemeDocument host fuel path = Some outcome ->
    fuel <= fuel' ->
    _loadThemeDocument host fuel' path = Some outcome.
Proof.
  induction fuel as [| fuel IH]; intros fuel' path outcome; [discriminate |].
  destruct fuel' as [| fuel']; [lia |]. intros Hload Hle.
  cbn [_loadThemeDocument] in *.
  destruct (readFile host path) as [content |]; [| exact Hload].
  destruct (String.eqb (Paths_extname host path) ".json"); [| exact Hload].
  destruct (Json_parse_theme host content) as [contentValue errors].
  destruct (0 <? List.length errors)%nat; [exact Hload |].
  destruct (Js.truthy_opt (ThemeDocument.include contentValue)); [| exact Hload].
  destruct (_loadThemeDocument host fuel _) as [included |] eqn:Hincluded;
    [| discriminate Hload].
  rewrite (IH fuel' _ _ Hincluded) by lia. exact Hload.
Qed.

(** The load of an including document does what the load of the included
    one does when that one is rejected or does not settle. *)
Lemma load_includes (host : Host) (fuel : nat) (path included : string) :
  includes host path included ->
  (_loadThemeDocument host fuel included = None ->
   _loadThemeDocument host (S fuel) path = None)
  /\ (forall reason,
         _loadThemeDocument host fuel included = Some (Rejected reason) ->
         _loadThemeDocument host (S fuel) path = Some (Rejected reason)).
Proof.
  intros [p content include contentValue Hread Hext Hparse Hinclude Htruthy].
  split; [intros Hload | intros reason Hload];
    cbn [_loadThemeDocument]; rewrite Hread, Hext, Hparse;
    cbn [String.eqb Ascii.eqb Bool.eqb List.length Nat.ltb Nat.leb];
    rewrite Hinclude; cbn [Js.truthy_opt]; now rewrite Htruthy, Hload.
Qed.

(** Nothing detects a cycle of inclusions.  In a set of documents of
    which each includes another one of the set, no load ever settles,
    whatever the fuel: a document that includes itself, or two that include
    one another, keep the promise pending. *)
Theorem include_cycle_never_settles (host : Host) (cyclic : string -> Prop) :
  (forall path,
      cyclic path -> exists included, includes host path included /\ cyclic included) ->
  forall fuel path, cyclic path -> _loadThemeDocument host fuel path = None.
Proof.
  intros Hclosed. induction fuel as [| fuel IH]; intros path Hpath.
  - reflexivity.
  - destruct (Hclosed path Hpath) as (included & Hincludes & Hincluded).
    apply (load_includes host fuel path included Hincludes).
    now apply IH.
Qed.

(** The theorem at a document that includes itself. *)
Lemma include_cycle_never_settles_witness :
  _loadThemeDocument Example.looping 50 "/loop.json" = None.
Proof.
  apply (include_cycle_never_settles Example.looping (fun path => path = "/loop.json"));
    [| reflexivity].
  intros path ->. exists "/loop.json". split; [| reflexivity].
  exact (includes_intro Example.looping "/loop.json" "loop" "loop.json"
           (ThemeDocument.mk "loop" (Some "loop.json") [Example.comment])
           eq_refl eq_refl eq_refl eq_refl eq_refl).
Defined.

(** A rejection anywhere down a chain of inclusions is the rejection of
    the whole load: when the last document of a chain is rejected with a
    reason, be it by the read or by the parser, the first one is rejected
    with that reason, on enough fuel. *)
Theorem rejection_comes_up_the_chain (host : Host) (path last : string)
    (fuel : nat) (reason : Failure) :
  includesThrough host path last ->
  _loadThemeDocument host fuel last = Some (Rejected reason) ->
  exists fuel', _loadThemeDocument host fuel' path = Some (Rejected reason).
Proof.
  intros Hchain Hlast.
  induction Hchain as [path | path included last Hincludes _ IH].
  - now exists fuel.
  - destruct (IH Hlast) as (fuel' & Hincluded).
    exists (S fuel'). now apply (load_includes host fuel' path included Hincludes).
Qed.

(** The theorem at a document that includes a file that is not there. *)
Lemma rejection_comes_up_the_chain_witness :
  exists fuel, _loadThemeDocument Example.dangling fuel "/a.json"
               = Some (Rejected ReadFailure).
Proof.
  apply (rejection_comes_up_the_chain Example.dangling "/a.json" "/missing.json" 1).
  - apply (through_next Example.dangling "/a.json" "/missing.json" "/missing.json").
    + exact (includes_intro Example.dangling "/a.json" "a" "missing.json"
               (ThemeDocument.mk "a" (Some "missing.json") [Example.comment])
               eq_refl eq_refl eq_refl eq_refl eq_refl).
    + apply through_here.
  - reflexivity.
Defined.

(** ** When the compiler throws, and what it counts *)

Lemma walkThemeSettings_first (themeSelector : string) (s : ThemeSetting.t)
    (rest : list ThemeSetting.t) :
  walkThemeSettings themeSelector (s :: rest)
  = if scopeTruthy (ThemeSetting.scope s)
    then (Some noEditorSettings,
          (entryRules themeSelector s ++ flat_map (entryRules themeSelector) rest)%list)
    else (ThemeSetting.settings s, flat_map (entryRules themeSelector) rest).
Proof.
  unfold walkThemeSettings, forEach. cbn [forEachFrom].
  destruct (scopeTruthy (ThemeSetting.scope s)) eqn:Hscope.
  - rewrite themeSettingStep_scoped by (now right).
    now rewrite forEachFrom_later.
  - rewrite themeSettingStep_defaults by assumption.
    now rewrite forEachFrom_later.
Qed.

(** [_processThemeObject] throws for one shape of document only: the one
    whose first entry has neither a scope nor settings.  Every other
    document, the one without entries among them, compiles to a style
    sheet. *)
Theorem compiler_throws_for_bare_first_entry (host : Host) (themeId : string)
    (themeDocument : ThemeDocument.t) :
  _processThemeObject host themeId themeDocument = ThrowTypeError
  <-> exists s rest,
        ThemeDocument.settings themeDocument = s :: rest
        /\ scopeTruthy (ThemeSetting.scope s) = false
        /\ ThemeSetting.settings s = None.
Proof.
  unfold _processThemeObject.
  destruct (ThemeDocument.settings themeDocument) as [| s rest].
  - cbn. split; [discriminate |]. intros (s & rest & H & _). discriminate H.
  - rewrite walkThemeSettings_first.
    destruct (scopeTruthy (ThemeSetting.scope s)) eqn:Hscope.
    + split; [discriminate |].
      intros (s' & rest' & H & Hfalsy & _). injection H as <- <-. congruence.
    + destruct (ThemeSetting.settings s) as [editorSettings |] eqn:Hsettings.
      * split; [discriminate |].
        intros (s' & rest' & H & _ & Hnone). injection H as <- <-. congruence.
      * split; [| reflexivity]. intros _. now exists s, rest.
Qed.

Lemma editorBlock_adds (editorSettings : ThemeSettingStyle) (memberName : string)
    (emit : RGBA -> list string) (count : nat) (cssRules : list string) :
  (forall color, List.length (emit color) = count) ->
  exists added,
    editorBlock editorSettings memberName emit cssRules = (cssRules ++ added)%list
    /\ List.length added = (count * has memberName editorSettings)%nat.
Proof.
  intros Hcount. unfold editorBlock, has.
  destruct (member memberName editorSettings) as [value |]; cbn [Js.truthy_opt].
  - destruct (Js.truthy value).
    + eexists. split; [reflexivity |]. rewrite Hcount. lia.
    + exists []. rewrite app_nil_r. split; [reflexivity | cbn; lia].
  - exists []. rewrite app_nil_r. split; [reflexivity | cbn; lia].
Qed.

(** The rules of the whole editor come behind the rules there are, which
    stay as they are, and their number follows from the members of the
    editor settings that are there and not empty: three for [background],
    one for [foreground], two for [selection], one for [lineHighlight], one
    for [caret] and two for [invisibles].  Without any of these members no
    rule is added. *)
Theorem editor_rules_are_counted (themeSelector : string)
    (editorSettings : ThemeSettingStyle) (cssRules : list string) :
  exists added,
    editorRules themeSelector editorSettings cssRules = (cssRules ++ added)%list
    /\ List.length added
       = (3 * has "background" editorSettings
          + has "foreground" editorSettings
          + 2 * has "selection" editorSettings
          + has "lineHighlight" editorSettings
          + has "caret" editorSettings
          + 2 * has "invisibles" editorSettings)%nat.
Proof.
  unfold editorRules. cbv zeta.
  repeat match goal with
         | |- context [editorBlock editorSettings ?name ?emit ?rules] =>
             let added := fresh "added" in
             let Hrules := fresh "Hrules" in
             let Hlength := fresh "Hlength" in
             lazymatch rules with
             | context [editorBlock] => fail
             | _ =>
                 destruct (editorBlock_adds editorSettings name emit
                             (List.length (emit Color.fallback)) rules
                             (fun _ => eq_refl))
                   as (added & Hrules & Hlength);
                 rewrite Hrules; clear Hrules; cbn [List.length] in Hlength
             end
         end.
  eexists. rewrite <- !app_assoc. split; [reflexivity |].
  rewrite !length_app. lia.
Qed.

(** ** Members that make no declaration *)

(** A member of a settings record other than [foreground] and
    [fontStyle] makes no declaration, wherever it stands among the others:
    the statements with it are the statements without it.  So it is with
    [background], which the code leaves out on purpose. *)
Theorem other_members_make_no_statement (before after : ThemeSettingStyle)
    (settingName value : string) :
  settingName <> "foreground" ->
  settingName <> "fontStyle" ->
  _settingsToStatements (before ++ (settingName, value) :: after)%list
  = _settingsToStatements (before ++ after)%list.
Proof.
  intros Hforeground HfontStyle. unfold _settingsToStatements.
  rewrite !fold_settingStatement, !flat_map_app. cbn [flat_map app].
  unfold settingDeclarations at 2. cbn [fst snd].
  apply String.eqb_neq in Hforeground, HfontStyle.
  now rewrite Hforeground, HfontStyle.
Qed.

(** The theorem at a record with a [background] between two other
    members. *)
Lemma other_members_make_no_statement_witness :
  _settingsToStatements
    [("fontStyle", "bold"); ("background", "#000000"); ("foreground", "#FF0000")]
  = _settingsToStatements [("fontStyle", "bold"); ("foreground", "#FF0000")].
Proof.
  apply (other_members_make_no_statement [("fontStyle", "bold")]
           [("foreground", "#FF0000")] "background" "#000000"); discriminate.
Defined.

(** ** Which contribution an identifier names *)

Lemma firstMatch_first (themeId : string) (themes : list IInternalThemeData.t) :
  forall index theme,
    firstMatch (hasId themeId) themes = Some (index, theme) ->
    noneBefore themeId index themes.
Proof.
  induction themes as [| first themes IH]; intros index theme; cbn;
    [discriminate |].
  destruct (hasId themeId first) eqn:Hfirst.
  - intros H. injection H as <- <-. intros j other Hj. lia.
  - destruct (firstMatch (hasId themeId) themes) as [[i found] |] eqn:Hrest;
      [| discriminate].
    intros H. injection H as <- <-. intros [| j] other Hj; cbn.
    + intros H. injection H as <-. now apply String.eqb_neq in Hfirst.
    + apply (IH i found eq_refl). lia.
Qed.

Lemma firstMatch_known (themeId : string) (themes : list IInternalThemeData.t) :
  In themeId (map IInternalThemeData.id themes) ->
  exists found, firstMatch (hasId themeId) themes = Some found.
Proof.
  induction themes as [| first themes IH]; cbn; [contradiction |].
  destruct (hasId themeId first) eqn:Hfirst; [eauto |].
  intros [Hid | Hin].
  - unfold hasId in Hfirst. rewrite Hid, String.eqb_refl in Hfirst. discriminate.
  - destruct (IH Hin) as ([i found] & ->). eauto.
Qed.

(** [findThemeData] takes the first known theme of the requested
    identifier, and looks for the default identifier only when no known
    theme bears the requested one: what it finds is in the list at the
    position it gives, no theme before that position bears the identifier
    it was found by, and a theme found by the default identifier means that
    the requested one is unknown.  A known identifier is always found. *)
Theorem requested_theme_before_default (themeId defaultId : string) (st : State) :
  (forall index theme,
      findThemeData themeId (Some defaultId) st = Some (index, theme) ->
      nth_error (knownThemes st) index = Some theme
      /\ ((IInternalThemeData.id theme = themeId
           /\ noneBefore themeId index (knownThemes st))
          \/ (~ known themeId st
              /\ IInternalThemeData.id theme = defaultId
              /\ noneBefore defaultId index (knownThemes st))))
  /\ (known themeId st ->
      exists index theme,
        findThemeData themeId (Some defaultId) st = Some (index, theme)
        /\ IInternalThemeData.id theme = themeId).
Proof.
  unfold findThemeData, known. split.
  - intros index theme.
    destruct (firstMatch (hasId themeId) (knownThemes st)) as [found |] eqn:Hfirst.
    + intros H. injection H as ->.
      destruct (firstMatch_some _ _ _ _ Hfirst) as [Hid Hnth].
      split; [exact Hnth |]. left. split; [exact Hid |].
      now apply (firstMatch_first _ _ _ _ Hfirst).
    + destruct (Js.truthy defaultId); [| discriminate].
      intros Hdefault.
      destruct (firstMatch_some _ _ _ _ Hdefault) as [Hid Hnth].
      split; [exact Hnth |]. right. split; [| split; [exact Hid |]].
      * intros Hknown. apply firstMatch_known in Hknown as (found & Hfound).
        congruence.
      * now apply (firstMatch_first _ _ _ _ Hdefault).
  - intros Hknown. apply firstMatch_known in Hknown as ([index theme] & Hfound).
    rewrite Hfound. exists index, theme. split; [reflexivity |].
    now apply firstMatch_some in Hfound.
Qed.

(** The theorem at the example service, which knows the requested
    theme. *)
Lemma requested_theme_before_default_witness :
  exists index theme,
    findThemeData "vs ext-themes-broken-json" (Some DEFAULT_THEME_ID) Example.idle
    = Some (index, theme)
    /\ IInternalThemeData.id theme = "vs ext-themes-broken-json".
Proof.
  apply (proj2 (requested_theme_before_default "vs ext-themes-broken-json"
                  DEFAULT_THEME_ID Example.idle)).
  unfold known. cbn. tauto.
Defined.

Lemma findIconSet_from (current : Nullable) (allIconSets : list IInternalThemeData.t) :
  forall (index : nat) (iconSetData : option (nat * IInternalThemeData.t)),
    findIconSet current index allIconSets iconSetData
    = match iconSetFor current allIconSets with
      | Some (i, iconSet) => Some (index + i, iconSet)%nat
      | None => iconSetData
      end.
Proof.
  unfold iconSetFor.
  induction allIconSets as [| iconSet more IH]; intros index iconSetData;
    cbn [findIconSet firstMatch lastMatch].
  - now destruct current.
  - assert (Hsame : negb (strictlyDiffer (JsString (IInternalThemeData.id iconSet)) current)
                    = match current with
                      | JsString themeId => hasId themeId iconSet
                      | _ => false
                      end).
    { destruct current as [| | themeId]; cbn; try reflexivity.
      unfold hasId. now rewrite negb_involutive. }
    rewrite Hsame, !IH. clear IH Hsame.
    destruct current as [| | themeId];
      fold (hasId DEFAULT_FILE_ICONS iconSet);
      try destruct (hasId themeId iconSet);
      try destruct (firstMatch (hasId themeId) more) as [[? ?] |];
      destruct (lastMatch (hasId DEFAULT_FILE_ICONS) more) as [[? ?] |];
      destruct (hasId DEFAULT_FILE_ICONS iconSet);
      try reflexivity; f_equal; f_equal; lia.
Qed.

(** The loop of [_updateFileIcons] finds the first icon set that bears
    the current identifier, wherever an icon set named [vs-standard]
    stands.  When no icon set bears it, or the current identifier is
    [null] or [undefined], it finds the last icon set named [vs-standard]:
    among icon sets of the default name it is the latest contribution that
    stands in, where among themes it is the earliest.  It finds nothing
    when there is neither. *)
Theorem icon_set_first_requested_else_last_default (host : Host) (st : State) :
  findIconSet (currentFileIcons st) 0 (knownFileIconContributions st) None
  = iconSetFor (currentFileIcons st) (knownFileIconContributions st)
  /\ (iconSetFor (currentFileIcons st) (knownFileIconContributions st) = None ->
      _updateFileIcons host st = (Resolved false, st)).
Proof.
  assert (Hfind : findIconSet (currentFileIcons st) 0
                    (knownFileIconContributions st) None
                  = iconSetFor (currentFileIcons st) (knownFileIconContributions st)).
  { rewrite findIconSet_from.
    now destruct (iconSetFor _ _) as [[i iconSet] |]. }
  split; [exact Hfind |].
  intros Hnone. unfold _updateFileIcons. now rewrite Hfind, Hnone.
Qed.

(** The theorem at a service without icon sets. *)
Lemma icon_set_first_requested_else_last_default_witness :
  _updateFileIcons Example.host Example.contributed
  = (Resolved false, Example.contributed).
Proof.
  now apply (proj2 (icon_set_first_requested_else_last_default Example.host
                      Example.contributed)).
Defined.

(** ** What an activation does to the state *)

Ltac onApply_fields host toAll st :=
  unfold onApply, sendTelemetry, broadcast;
  destruct (container st), toAll; cbn;
  repeat match goal with
         | |- context [if ?c then _ else _] => destruct c; cbn
         | |- context [match getExtensionDescription ?h ?e with _ => _ end] =>
             destruct (getExtensionDescription h e); cbn
         end;
  try reflexivity.

Lemma onApply_storage (host : Host) (toAll : bool)
    (newTheme : IInternalThemeData.t) (st : State) :
  storage (onApply host toAll newTheme st)
  = store THEME_PREF (IInternalThemeData.id newTheme) (storage st).
Proof. onApply_fields host toAll st. Qed.


Lemma onApply_styles (host : Host) (toAll : bool)
    (newTheme : IInternalThemeData.t) (st : State) :
  styles (onApply host toAll newTheme st) = styles st.
Proof. onApply_fields host toAll st. Qed.

Lemma onApply_broadcasts (host : Host) (toAll : bool)
    (newTheme : IInternalThemeData.t) (st : State) :
  broadcasts (onApply host toAll newTheme st)
  = if toAll
    then (broadcasts st ++ [(THEME_CHANNEL, IInternalThemeData.id newTheme)])%list
    else broadcasts st.
Proof. onApply_fields host toAll st. Qed.

Lemma onApply_icon_side (host : Host) (toAll : bool)
    (newTheme : IInternalThemeData.t) (st : State) :
  knownFileIconContributions (onApply host toAll newTheme st)
  = knownFileIconContributions st
  /\ currentFileIcons (onApply host toAll newTheme st) = currentFileIcons st
  /\ collected (onApply host toAll newTheme st) = collected st.
Proof. onApply_fields host toAll st; now repeat split. Qed.

Lemma onApply_container (host : Host) (toAll : bool)
    (newTheme : IInternalThemeData.t) (st : State) :
  container (onApply host toAll newTheme st) = None <-> container st = None.
Proof.
  unfold onApply, sendTelemetry, broadcast.
  destruct (container st) eqn:Hcontainer, toAll; cbn;
    repeat match goal with
           | |- context [if ?c then _ else _] => destruct c; cbn
           | |- context [match getExtensionDescription ?h ?e with _ => _ end] =>
               destruct (getExtensionDescription h e); cbn
           end;
    rewrite ?Hcontainer; split; congruence.
Qed.

(** What a settled activation was: one that changed nothing, the
    activation of the current theme, or the application of the theme found,
    from its cache or from its document. *)
Lemma setColorTheme_inv (host : Host) (fuel : nat) (themeId : string)
    (toAll : bool) (st st' : State) (outcome : Promise bool) :
  setColorTheme host fuel themeId toAll st = Some (outcome, st') ->
  (outcome <> Resolved true /\ st' = st)
  \/ (outcome = Resolved true
      /\ currentTheme st = Some themeId
      /\ st' = if toAll then broadcast THEME_CHANNEL themeId st else st)
  \/ (outcome = Resolved true
      /\ Js.truthy themeId = true
      /\ exists index theme content,
           findThemeData (validateThemeId themeId) (Some DEFAULT_THEME_ID) st
           = Some (index, theme)
           /\ ((cached theme = Some content
                /\ st' = onApply host toAll theme
                           (_applyRules content colorThemeRulesClassName st))
               \/ (cached theme = None
                   /\ (exists themeDocument,
                          _loadThemeDocument host fuel (IInternalThemeData.path theme)
                          = Some (Resolved themeDocument)
                          /\ _processThemeObject host (IInternalThemeData.id theme)
                               themeDocument
                             = Return content)
                   /\ st' = onApply host toAll (IInternalThemeData.cache content theme)
                              (_applyRules content colorThemeRulesClassName
                                 (set_knownThemes
                                    (updateAt (IInternalThemeData.cache content) index
                                       (knownThemes st)) st))))).
Proof.
  unfold setColorTheme.
  destruct (Js.truthy themeId) eqn:Htruthy; cbn [negb].
  2: { intros H. injection H as <- <-. left. split; [discriminate | reflexivity]. }
  destruct (match currentTheme st with
            | Some current => String.eqb themeId current
            | None => false
            end) eqn:Hsame.
  { intros H. injection H as <- <-. right. left.
    split; [reflexivity |]. split; [| reflexivity].
    destruct (currentTheme st) as [current |]; [| discriminate Hsame].
    apply String.eqb_eq in Hsame. now subst current. }
  clear Hsame. unfold applyThemeCSS.
  destruct (findThemeData (validateThemeId themeId) (Some DEFAULT_THEME_ID) st)
    as [[index theme] |] eqn:Hfind.
  2: { intros H. injection H as <- <-. left. split; [discriminate | reflexivity]. }
  unfold applyTheme.
  destruct (cached theme) as [content |] eqn:Hcached.
  { intros H. injection H as <- <-. right. right. split; [reflexivity |].
    split; [reflexivity |]. exists index, theme, content.
    split; [reflexivity |]. left. now split. }
  destruct (_loadThemeDocument host fuel (IInternalThemeData.path theme))
    as [[themeDocument | reason] |] eqn:Hload; [| | discriminate].
  2: { intros H. injection H as <- <-. left. split; [discriminate | reflexivity]. }
  destruct (_processThemeObject host (IInternalThemeData.id theme) themeDocument)
    as [content |] eqn:Hcompile.
  2: { intros H. injection H as <- <-. left. split; [discriminate | reflexivity]. }
  intros H. injection H as <- <-. right. right. split; [reflexivity |].
  split; [reflexivity |]. exists index, theme, content.
  split; [reflexivity |]. right. split; [exact Hcached |]. split; [| reflexivity].
  exists themeDocument. now split.
Qed.

Lemma member_store (key value : string) (entries : Dict) :
  member key (store key value entries) = Some value.
Proof.
  induction entries as [| [k v] entries IH]; cbn.
  - now rewrite String.eqb_refl.
  - destruct (String.eqb k key) eqn:Hk; cbn; now rewrite Hk.
Qed.


Lemma nth_error_updateAt_other {A : Type} (f : A -> A) (index other : nat) (l : list A) :
  other <> index ->
  nth_error (updateAt f index l) other = nth_error l other.
Proof.
  revert index other. induction l as [| y l IH]; intros [| index] [| other] H; cbn;
    try reflexivity; try contradiction.
  apply IH. lia.
Qed.


Lemma findThemeData_nth (themeId defaultId : string) (st : State)
    (index : nat) (theme : IInternalThemeData.t) :
  findThemeData themeId (Some defaultId) st = Some (index, theme) ->
  nth_error (knownThemes st) index = Some theme.
Proof.
  unfold findThemeData.
  destruct (firstMatch (hasId themeId) (knownThemes st)) as [found |] eqn:Hfirst.
  - intros H. injection H as ->. now apply firstMatch_some in Hfirst.
  - destruct (Js.truthy defaultId); [| discriminate].
    intros H. now apply firstMatch_some in H.
Qed.

Lemma requested_theme_lookup (themeId defaultId : string) (st : State)
    (index : nat) (theme : IInternalThemeData.t) :
  findThemeData themeId (Some defaultId) st = Some (index, theme) ->
  IInternalThemeData.id theme = themeId
  \/ (~ known themeId st /\ IInternalThemeData.id theme = defaultId).
Proof.
  unfold findThemeData, known.
  destruct (firstMatch (hasId themeId) (knownThemes st)) as [found |] eqn:Hfirst.
  - intros H. injection H as ->. left. now apply firstMatch_some in Hfirst.
  - destruct (Js.truthy defaultId); [| discriminate].
    intros Hdefault. right. split.
    + intros Hknown. apply firstMatch_known in Hknown as (found & Hfound).
      congruence.
    + now apply firstMatch_some in Hdefault.
Qed.



(** ** What is broadcast, and to whom *)



(** ** The two sides of the service *)

Lemma setFileIcons_side (host : Host) (fileIcons : Nullable) (st : State) :
  sameButIconSide st (snd (setFileIcons host fileIcons st))
  /\ stylesOf colorThemeRulesClassName (styles (snd (setFileIcons host fileIcons st)))
     = stylesOf colorThemeRulesClassName (styles st)
  /\ map IInternalThemeData.id
       (knownFileIconContributions (snd (setFileIcons host fileIcons st)))
     = map IInternalThemeData.id (knownFileIconContributions st).
Proof.
  unfold setFileIcons, sameButIconSide.
  destruct (strictlyDiffer fileIcons (currentFileIcons st));
    [| cbn; now destruct st].
  unfold _updateFileIcons.
  destruct (findIconSet _ _ _ _) as [[index data] |]; [| cbn; now destruct st].
  unfold _applyFileIcons.
  destruct (cached data) as [content |].
  - cbn. split; [now destruct st |]. split; [| reflexivity].
    apply setFirstStyle_other. discriminate.
  - destruct (_loadFileIconsDocument host (IInternalThemeData.path data));
      [| cbn; now destruct st].
    destruct (_processFileIconsObject _ _ _ _); cbn; [| now destruct st].
    split; [now destruct st |]. split; [| apply updateAt_ids].
    apply setFirstStyle_other. discriminate.
Qed.

(** The two kinds of activation keep to their sides.  An activation of a
    color theme leaves the known icon sets, the current icon set, the
    collected messages and the style elements of the file icons as they
    are, and the known themes keep their identifiers, in place.  An
    activation of an icon set changes nothing but the current icon set, the
    known icon sets, whose identifiers stay in place, and the style
    elements, of which those of the color themes hold what they held. *)
Theorem activations_keep_to_their_sides (host : Host) (st : State) :
  (forall fuel themeId toAll outcome st',
      setColorTheme host fuel themeId toAll st = Some (outcome, st') ->
      knownFileIconContributions st' = knownFileIconContributions st
      /\ currentFileIcons st' = currentFileIcons st
      /\ collected st' = collected st
      /\ stylesOf fileIconRulesClassName (styles st')
         = stylesOf fileIconRulesClassName (styles st)
      /\ map IInternalThemeData.id (knownThemes st')
         = map IInternalThemeData.id (knownThemes st))
  /\ (forall fileIcons,
         let st' := snd (setFileIcons host fileIcons st) in
         sameButIconSide st st'
         /\ stylesOf colorThemeRulesClassName (styles st')
            = stylesOf colorThemeRulesClassName (styles st)
         /\ map IInternalThemeData.id (knownFileIconContributions st')
            = map IInternalThemeData.id (knownFileIconContributions st)).
Proof.
  split; [| intros fileIcons; apply setFileIcons_side].
  intros fuel themeId toAll outcome st' H.
  apply setColorTheme_inv in H
    as [[_ ->] | [(_ & _ & ->) | (_ & _ & Happlied)]].
  - now repeat split.
  - destruct toAll; now repeat split.
  - destruct Happlied as (index & theme & content & _ & Hcases).
    destruct Hcases as [[_ ->] | (_ & _ & ->)];
      destruct (onApply_icon_side host toAll theme
                  (_applyRules content colorThemeRulesClassName st))
        as (Hknown & Hcurrent & Hcollected);
      rewrite onApply_styles, onApply_knownThemes;
      pose proof (onApply_icon_side host toAll) as Hside;
      repeat split;
      try (now rewrite (proj1 (Hside _ _)));
      try (now rewrite (proj1 (proj2 (Hside _ _))));
      try (now rewrite (proj2 (proj2 (Hside _ _))));
      cbn [_applyRules styles knownThemes set_styles set_knownThemes];
      try (apply setFirstStyle_other; discriminate);
      try reflexivity; apply updateAt_ids.
Qed.

(** The theorem at the first activation of the example service. *)
Lemma activations_keep_to_their_sides_witness :
  currentFileIcons Example.themed = currentFileIcons Example.idle
  /\ collected Example.themed = collected Example.idle.
Proof.
  destruct (proj1 (activations_keep_to_their_sides Example.host Example.idle) 2
              "vs-dark ext-themes-base-json" false (Resolved true) Example.themed
              eq_refl)
    as (_ & Hcurrent & Hcollected & _).
  now split.
Defined.

(** ** Usage is logged once for an extension *)






(** ** Compiled style sheets are kept *)

Lemma keepsCaches_refl (l : list IInternalThemeData.t) : keepsCaches l l.
Proof.
  intros index data content Hnth Hcached. now exists data.
Qed.

Lemma keepsCaches_trans (l l' l'' : list IInternalThemeData.t) :
  keepsCaches l l' -> keepsCaches l' l'' -> keepsCaches l l''.
Proof.
  intros H H' index data content Hnth Hcached.
  destruct (H index data content Hnth Hcached) as (data' & Hnth' & Hid & Hpath & Hc).
  destruct (H' index data' content Hnth' Hc) as (data'' & Hnth'' & Hid' & Hpath' & Hc').
  exists data''. repeat split; congruence.
Qed.

Lemma keepsCaches_app (l added : list IInternalThemeData.t) :
  keepsCaches l (l ++ added)%list.
Proof.
  intros index data content Hnth Hcached. exists data.
  split; [| now repeat split].
  rewrite nth_error_app1; [exact Hnth |].
  apply nth_error_Some. congruence.
Qed.

Lemma keepsCaches_updateAt (content : string) (index : nat)
    (l : list IInternalThemeData.t) (data : IInternalThemeData.t) :
  nth_error l index = Some data ->
  cached data = None ->
  keepsCaches l (updateAt (IInternalThemeData.cache content) index l).
Proof.
  intros Hnth Hcached other held kept Hother Hheld.
  destruct (Nat.eq_dec other index) as [-> | Hdiffer].
  - congruence.
  - exists held. rewrite nth_error_updateAt_other by exact Hdiffer. now repeat split.
Qed.

Lemma findIconSet_nth (current : Nullable) (l : list IInternalThemeData.t)
    (index : nat) (data : IInternalThemeData.t) :
  findIconSet current 0 l None = Some (index, data) ->
  nth_error l index = Some data.
Proof.
  rewrite findIconSet_from. unfold iconSetFor.
  assert (Hlast : forall (p : IInternalThemeData.t -> bool) i x,
             lastMatch p l = Some (i, x) -> nth_error l i = Some x).
  { intros p. induction l as [| y l IH]; intros i x; cbn; [discriminate |].
    destruct (lastMatch p l) as [[j z] |].
    - intros H. injection H as <- <-. now apply IH.
    - destruct (p y); [| discriminate]. intros H. now injection H as <- <-. }
  assert (Hfirst : forall themeId i x,
             firstMatch (hasId themeId) l = Some (i, x) -> nth_error l i = Some x).
  { intros themeId i x H. now apply firstMatch_some in H. }
  destruct current as [| | themeId];
    try destruct (firstMatch (hasId themeId) l) as [[i x] |] eqn:Hrequested;
    try destruct (lastMatch (hasId DEFAULT_FILE_ICONS) l) as [[j y] |] eqn:Hdefault;
    try discriminate; intros H; injection H as <- <-; eauto.
Qed.

Lemma setColorTheme_keepsCaches (host : Host) (fuel : nat) (themeId : string)
    (toAll : bool) (st st' : State) (outcome : Promise bool) :
  setColorTheme host fuel themeId toAll st = Some (outcome, st') ->
  keepsCaches (knownThemes st) (knownThemes st')
  /\ knownFileIconContributions st' = knownFileIconContributions st.
Proof.
  intros H.
  pose proof (setColorTheme_inv _ _ _ _ _ _ _ H)
    as [[_ ->] | [(_ & _ & ->) | (_ & _ & Happlied)]].
  - split; [apply keepsCaches_refl | reflexivity].
  - destruct toAll; (split; [apply keepsCaches_refl | reflexivity]).
  - destruct Happlied as (index & theme & content & Hfind & Hcases).
    destruct Hcases as [[_ ->] | (Hcached & _ & ->)];
      rewrite onApply_knownThemes;
      (split; [| now rewrite (proj1 (onApply_icon_side _ _ _ _))]);
      cbn [_applyRules knownThemes set_styles set_knownThemes].
    + apply keepsCaches_refl.
    + eapply keepsCaches_updateAt; [| exact Hcached].
      exact (findThemeData_nth _ _ _ _ _ Hfind).
Qed.

Lemma setFileIcons_keepsCaches (host : Host) (fileIcons : Nullable) (st : State) :
  keepsCaches (knownFileIconContributions st)
    (knownFileIconContributions (snd (setFileIcons host fileIcons st)))
  /\ knownThemes (snd (setFileIcons host fileIcons st)) = knownThemes st.
Proof.
  unfold setFileIcons.
  destruct (strictlyDiffer fileIcons (currentFileIcons st));
    [| split; [apply keepsCaches_refl | reflexivity]].
  unfold _updateFileIcons.
  cbn [currentFileIcons knownFileIconContributions set_currentFileIcons].
  destruct (findIconSet fileIcons 0 (knownFileIconContributions st) None)
    as [[index data] |] eqn:Hfind;
    [| split; [apply keepsCaches_refl | reflexivity]].
  unfold _applyFileIcons.
  destruct (cached data) as [content |] eqn:Hcached;
    [split; [apply keepsCaches_refl | reflexivity] |].
  destruct (_loadFileIconsDocument host (IInternalThemeData.path data));
    [| split; [apply keepsCaches_refl | reflexivity]].
  destruct (_processFileIconsObject _ _ _ _);
    [| split; [apply keepsCaches_refl | reflexivity]].
  cbn. split; [| reflexivity].
  eapply keepsCaches_updateAt; [| exact Hcached].
  exact (findIconSet_nth _ _ _ _ Hfind).
Qed.

Lemma step_keepsCaches (host : Host) (st st' : State) :
  step host st st' ->
  keepsCaches (knownThemes st) (knownThemes st')
  /\ keepsCaches (knownFileIconContributions st) (knownFileIconContributions st').
Proof.
  intros [st0 folder extensionId themes
         | st0 folder extensionId fileIcons
         | st0 fuel classes outcome st1 Hstep
         | st0 fuel themeId toAll outcome st1 Hstep
         | st0 fileIcons].
  - destruct (onThemes_knownThemes host folder extensionId themes st0)
      as (added & ->).
    split; [apply keepsCaches_app |].
    destruct themes as [points |]; [| apply keepsCaches_refl].
    destruct (onThemes_fold host folder extensionId points st0) as (Hsame & _).
    cbn [onThemes]. unfold sameButThemes in Hsame. rewrite Hsame.
    apply keepsCaches_refl.
  - destruct fileIcons as [points |];
      [| split; apply keepsCaches_refl].
    destruct (onFileIcons_fold host folder extensionId points st0)
      as (Hsame & (added & Hknown & _) & _).
    cbn [onFileIcons]. split.
    + unfold sameButIconSets in Hsame. rewrite Hsame. apply keepsCaches_refl.
    + rewrite Hknown. apply keepsCaches_app.
  - unfold initialize in Hstep.
    destruct (member THEME_PREF (storage (set_container (Some classes) st0)))
      as [themeId |]; [destruct (Js.truthy themeId) |];
      apply setColorTheme_keepsCaches in Hstep as [Hthemes Hicons];
      (split; [exact Hthemes |]); rewrite Hicons; apply keepsCaches_refl.
  - apply setColorTheme_keepsCaches in Hstep as [Hthemes Hicons].
    split; [exact Hthemes |]. rewrite Hicons. apply keepsCaches_refl.
  - destruct (setFileIcons_keepsCaches host fileIcons st0) as [Hicons Hthemes].
    split; [| exact Hicons]. rewrite Hthemes. apply keepsCaches_refl.
Qed.

(** A compiled style sheet is never dropped or replaced.  Through any
    number of operations of the service, a theme or an icon set that holds
    a cached style sheet stays at its position, with its identifier and its
    path, holding the same style sheet.  And the activation of a theme that
    holds one applies it whatever the fuel and the file system are: the
    document is not read again, so a change of the file is not seen. *)
Theorem compiled_style_sheets_are_kept (host : Host) :
  (forall st st',
      steps host st st' ->
      keepsCaches (knownThemes st) (knownThemes st')
      /\ keepsCaches (knownFileIconContributions st) (knownFileIconContributions st'))
  /\ (forall fuel themeId toAll st index theme content,
         Js.truthy themeId = true ->
         currentTheme st <> Some themeId ->
         findThemeData (validateThemeId themeId) (Some DEFAULT_THEME_ID) st
         = Some (index, theme) ->
         cached theme = Some content ->
         exists st',
           setColorTheme host fuel themeId toAll st = Some (Resolved true, st')
           /\ stylesOf colorThemeRulesClassName (styles st')
              = content :: tl (stylesOf colorThemeRulesClassName (styles st))
           /\ knownThemes st' = knownThemes st).
Proof.
  split.
  - induction 1 as [st | st st' st'' _ [IHthemes IHicons] Hstep].
    + split; apply keepsCaches_refl.
    + apply step_keepsCaches in Hstep as [Hthemes Hicons].
      split; eapply keepsCaches_trans; eassumption.
  - intros fuel themeId toAll st index theme content Htruthy Hother Hfind Hcached.
    eexists. split; [| split].
    + unfold setColorTheme. rewrite Htruthy. cbn [negb].
      assert (Hdiffer : match currentTheme st with
                        | Some current => String.eqb themeId current
                        | None => false
                        end = false).
      { destruct (currentTheme st) as [current |]; [| reflexivity].
        apply String.eqb_neq. intros ->. now apply Hother. }
      rewrite Hdiffer. unfold applyThemeCSS. rewrite Hfind.
      unfold applyTheme. rewrite Hcached. reflexivity.
    + rewrite onApply_styles. cbn [_applyRules styles set_styles].
      apply setFirstStyle_class.
    + now rewrite onApply_knownThemes.
Qed.

(** The theorem at the example service: the theme compiled by the first
    activation is applied again on a host without files and without fuel. *)
Lemma compiled_style_sheets_are_kept_witness :
  exists st',
    setColorTheme Example.dangling 0 "vs-dark ext-themes-base-json" false
      (set_currentTheme None Example.themed)
    = Some (Resolved true, st')
    /\ knownThemes st' = knownThemes Example.themed.
Proof.
  destruct (proj2 (compiled_style_sheets_are_kept Example.dangling) 0
              "vs-dark ext-themes-base-json" false
              (set_currentTheme None Example.themed) 0
              (IInternalThemeData.cache
                 ".monaco-editor.vs-dark.ext-themes-base-json .token.keyword { color: rgba(0, 0, 255, 1); }"
                 (Example.theme "vs-dark ext-themes-base-json" "/ext/themes/base.json"))
              ".monaco-editor.vs-dark.ext-themes-base-json .token.keyword { color: rgba(0, 0, 255, 1); }"
              eq_refl)
    as (st' & Hset & _ & Hknown).
  - discriminate.
  - reflexivity.
  - reflexivity.
  - exists st'. now split.
Defined.

(** ** The same icon set requested again *)

Lemma strictlyDiffer_false (x y : Nullable) : strictlyDiffer x y = false -> y = x.
Proof.
  destruct x as [| | s], y as [| | s']; cbn; try discriminate; try reflexivity.
  intros H. apply negb_false_iff, String.eqb_eq in H. now subst s'.
Qed.

Lemma strictlyDiffer_same (x : Nullable) : strictlyDiffer x x = false.
Proof.
  destruct x as [| | s]; cbn; try reflexivity. now rewrite String.eqb_refl.
Qed.

(** After a request for an icon set, the current icon set is the
    requested one, whatever became of the request; and the same request
    made again resolves to [true] and changes nothing.  So a request whose
    load was rejected, or that found no icon set, is not tried again when it
    is repeated. *)
Theorem icon_request_is_not_repeated (host : Host) (fileIcons : Nullable) (st : State) :
  let st' := snd (setFileIcons host fileIcons st) in
  currentFileIcons st' = fileIcons
  /\ setFileIcons host fileIcons st' = (Resolved true, st').
Proof.
  cbv zeta.
  assert (Hcurrent : currentFileIcons (snd (setFileIcons host fileIcons st)) = fileIcons).
  { unfold setFileIcons.
    destruct (strictlyDiffer fileIcons (currentFileIcons st)) eqn:Hdiffer;
      [| now apply strictlyDiffer_false].
    unfold _updateFileIcons.
    destruct (findIconSet _ _ _ _) as [[index data] |]; [| reflexivity].
    unfold _applyFileIcons.
    destruct (cached data); [reflexivity |].
    destruct (_loadFileIconsDocument host (IInternalThemeData.path data));
      [| reflexivity].
    now destruct (_processFileIconsObject _ _ _ _). }
  split; [exact Hcurrent |].
  unfold setFileIcons at 1. now rewrite Hcurrent, strictlyDiffer_same.
Qed.

(** ** Initialization *)

Lemma setColorTheme_surroundings (host : Host) (fuel : nat) (themeId : string)
    (toAll : bool) (st st' : State) (outcome : Promise bool) :
  setColorTheme host fuel themeId toAll st = Some (outcome, st') ->
  (container st' = None <-> container st = None)
  /\ (storage st' = storage st
      \/ exists applied,
           Js.truthy applied = true
           /\ storage st' = store THEME_PREF applied (storage st)).
Proof.
  intros H.
  pose proof (setColorTheme_inv _ _ _ _ _ _ _ H)
    as [[_ ->] | [(_ & _ & ->) | (_ & Htruthy & Happlied)]].
  - split; [reflexivity | now left].
  - destruct toAll; (split; [reflexivity | now left]).
  - destruct Happlied as (index & theme & content & Hfind & Hcases).
    assert (Hid : Js.truthy (IInternalThemeData.id theme) = true).
    { destruct (requested_theme_lookup _ _ _ _ _ Hfind) as [-> | [_ ->]];
        [now apply validateThemeId_truthy | reflexivity]. }
    destruct Hcases as [[_ ->] | (_ & _ & ->)];
      rewrite onApply_container, onApply_storage;
      (split; [reflexivity |]); right;
      exists (IInternalThemeData.id theme); now split.
Qed.

(** When [initialize] settles, a container is registered and a
    preference is stored that is not empty: the one there was, the default
    identifier when there was none or an empty one, or the identifier of
    the theme that was applied.  [initialize] broadcasts nothing. *)
Theorem initialize_registers_and_stores (host : Host) (fuel : nat)
    (classes : string) (st st' : State) (outcome : Promise bool) :
  initialize host fuel classes st = Some (outcome, st') ->
  container st' <> None
  /\ (exists stored,
         member THEME_PREF (storage st') = Some stored
         /\ Js.truthy stored = true)
  /\ broadcasts st' = broadcasts st.
Proof.
  unfold initialize.
  assert (Hrun : forall themeId base,
             container base <> None ->
             (exists stored,
                 member THEME_PREF (storage base) = Some stored
                 /\ Js.truthy stored = true) ->
             broadcasts base = broadcasts st ->
             setColorTheme host fuel themeId false base = Some (outcome, st') ->
             container st' <> None
             /\ (exists stored,
                    member THEME_PREF (storage st') = Some stored
                    /\ Js.truthy stored = true)
             /\ broadcasts st' = broadcasts st).
  { intros themeId base Hcontainer Hstored Hbroadcasts Hset.
    destruct (setColorTheme_surroundings _ _ _ _ _ _ _ Hset) as [Hsame Hstorage].
    split; [now rewrite Hsame |]. split.
    - destruct Hstorage as [-> | (applied & Htruthy & ->)]; [exact Hstored |].
      exists applied. now rewrite member_store.
    - rewrite <- Hbroadcasts.
      destruct (setColorTheme_inv _ _ _ _ _ _ _ Hset)
        as [[_ ->] | [(_ & _ & ->) | (_ & _ & index & theme & content & _ & Hcases)]];
        try reflexivity.
      destruct Hcases as [[_ ->] | (_ & _ & ->)]; now rewrite onApply_broadcasts. }
  cbn [storage set_container].
  destruct (member THEME_PREF (storage st)) as [themeId |] eqn:Hpref.
  - destruct (Js.truthy themeId) eqn:Htruthy; apply Hrun; cbn; try discriminate;
      try reflexivity.
    + now exists themeId.
    + exists DEFAULT_THEME_ID. now rewrite member_store.
  - apply Hrun; cbn; try discriminate; try reflexivity.
    exists DEFAULT_THEME_ID. now rewrite member_store.
Qed.

(** The theorem at the example service. *)
Lemma initialize_registers_and_stores_witness :
  container Example.initialized <> None
  /\ broadcasts Example.initialized = broadcasts Example.contributed.
Proof.
  destruct (initialize_registers_and_stores Example.host 2 "monaco-shell"
              Example.contributed Example.initialized (Resolved false) eq_refl)
    as (Hcontainer & _ & Hbroadcasts).
  now split.
Defined.

(** ** The selectors of the overlays *)

Lemma append_assoc (x y z : string) : (x ++ y) ++ z = x ++ y ++ z.
Proof.
  induction x as [| c x IH]; cbn; [reflexivity | now rewrite IH].
Qed.

Lemma dictionaryCalls_qualified (dict : option Dict) (className : string)
    (selectorOf selectorOf' : string -> string) :
  (forall key, selectorOf' key = className ++ " " ++ selectorOf key) ->
  dictionaryCalls dict selectorOf'
  = map (fun call => (className ++ " " ++ fst call, snd call))
      (dictionaryCalls dict selectorOf).
Proof.
  intros Hkey. unfold dictionaryCalls. destruct dict as [entries |]; [| reflexivity].
  rewrite map_map. apply map_ext. intros entry. cbn. now rewrite Hkey.
Qed.

Lemma associationCalls_qualified (host : Host)
    (associations : option FileIconsAssociation) (className : string) :
  Js.truthy className = true ->
  associationCalls host associations (Some className)
  = map (fun call => (className ++ " " ++ fst call, snd call))
      (associationCalls host associations None).
Proof.
  intros Htruthy. unfold associationCalls.
  destruct associations as [associations |]; [| reflexivity].
  rewrite Htruthy. cbv zeta. rewrite !map_app. cbn [map fst snd].
  f_equal; [| f_equal; [| f_equal]].
  - now rewrite !append_assoc.
  - apply dictionaryCalls_qualified. intros key. now rewrite !append_assoc.
  - apply dictionaryCalls_qualified. intros key. unfold fileNameSelector.
    now rewrite !append_assoc.
  - apply dictionaryCalls_qualified. intros key. now rewrite !append_assoc.
Qed.

(** [collectSelectors] on an overlay adds what it adds in the base pass
    on the same association, with each selector behind the class of the
    overlay and a space, for the same definition ids in the same order: the
    [light] pass qualifies with [.vs], the [highContrast] pass with
    [.hc_black]. *)
Theorem overlay_selectors_are_qualified (host : Host)
    (associations : option FileIconsAssociation) (className : string)
    (m : SelectorMap) :
  Js.truthy className = true ->
  collectSelectors host associations None m
  = accumulate (associationCalls host associations None) m
  /\ collectSelectors host associations (Some className) m
     = accumulate
         (map (fun call => (className ++ " " ++ fst call, snd call))
            (associationCalls host associations None))
         m.
Proof.
  intros Htruthy. rewrite !collectSelectors_calls.
  split; [reflexivity |].
  now rewrite associationCalls_qualified.
Qed.

(** The theorem at the [light] overlay of the example document. *)
Lemma overlay_selectors_are_qualified_witness :
  collectSelectors Example.host (light Example.icons) (Some ".vs") []
  = Return [("doc", [".vs .show-file-icons .file-icon"])].
Proof.
  rewrite (proj2 (overlay_selectors_are_qualified Example.host (light Example.icons)
                    ".vs" [] eq_refl)).
  reflexivity.
Defined.

(** ** Definition ids that name members of the prototype *)

Lemma existsb_inherited_false (ids : list string) :
  existsb inherited ids = false ->
  forall defId, In defId ids -> inherited defId = false.
Proof.
  intros Hnone defId Hin.
  destruct (inherited defId) eqn:Hinherited; [| reflexivity].
  rewrite <- Hnone. symmetry. apply existsb_exists. now exists defId.
Qed.

(** The calls throw when one of them names a member of the prototype. *)
Lemma accumulate_inherited (calls : list (string * option string)) :
  existsb inherited (calledIds calls) = true ->
  accumulate calls [] = ThrowTypeError.
Proof.
  induction calls as [| last init IH] using rev_ind; [discriminate |].
  intros Hsome. rewrite accumulate_app.
  destruct (existsb inherited (calledIds init)) eqn:Hinit.
  - now rewrite IH.
  - assert (Hinit' : accumulate init [] = Return (table init)).
    { apply (accumulate_table init []). intros call d Hin Hcall.
      apply (existsb_inherited_false _ Hinit).
      now apply calledId_In with (call := call). }
    rewrite Hinit'. cbn [andThen]. unfold accumulate. cbn [fold_left andThen].
    rewrite calledIds_snoc in Hsome.
    destruct (calledId last) as [d |] eqn:Hlast; [| congruence].
    destruct (among d (calledIds init)) eqn:Hamong; [congruence |].
    rewrite existsb_app, Hinit in Hsome. cbn [existsb orb] in Hsome.
    rewrite orb_false_r in Hsome.
    destruct (calledId_truthy _ _ Hlast) as [Hsnd Htruthy].
    unfold addSelector, pushSelector, table.
    now rewrite Hsnd, Htruthy, member_table, Hamong, Hsome.
Qed.

(** [_processFileIconsObject] throws exactly when the document has icon
    definitions and one of its associations, in the document itself or in
    its [light] or [highContrast] part, names a definition id that is the
    name of a member of [Object.prototype], such as [constructor] or
    [toString].  A document without icon definitions compiles to the empty
    style sheet whatever its associations name. *)
Theorem icon_compiler_throws_for_inherited_names (host : Host)
    (id fileIconsPath : string) (fileIconsDocument : FileIconsDocument) :
  (_processFileIconsObject host id fileIconsPath fileIconsDocument = ThrowTypeError
   <-> iconDefinitions fileIconsDocument <> None
       /\ exists defId,
            In defId (calledIds (documentCalls host fileIconsDocument))
            /\ inherited defId = true)
  /\ _processFileIconsObject host id fileIconsPath
       (mkFileIconsDocument (associations fileIconsDocument) None
          (light fileIconsDocument) (highContrast fileIconsDocument))
     = Return "".
Proof.
  split; [| reflexivity].
  unfold _processFileIconsObject, fileIconRules.
  destruct (iconDefinitions fileIconsDocument) as [definitions |]; cbn [andThen].
  - destruct (existsb inherited (calledIds (documentCalls host fileIconsDocument)))
      eqn:Hsome.
    + rewrite collectAll_calls, accumulate_inherited by exact Hsome.
      cbn [andThen]. split; [intros _ | reflexivity].
      split; [discriminate |].
      apply existsb_exists in Hsome as (defId & Hin & Hinherited).
      now exists defId.
    + rewrite collectAll_table by (now apply existsb_inherited_false).
      cbn [andThen]. split; [discriminate |].
      intros (_ & defId & Hin & Hinherited).
      now rewrite (existsb_inherited_false _ Hsome defId Hin) in Hinherited.
  - split; [discriminate |]. now intros [Hdefinitions _].
Qed.
